(** * The adaptive review engine of the exam trainer

    A shallow embedding of the JavaScript modules [config.js], [utils.js],
    [state.js], [timer.js], [quiz.js], [smart.js], [storage.js] and
    [main.js], followed by the properties of the spaced-repetition
    scheduler, the round state machine and the cloud merge.

    Conventions of the embedding:
    - a JavaScript number that holds an integer is a [Z]; an array index
      that the code keeps non-negative is a [nat];
    - an object used as a dictionary keyed by question id is a [gmap Z];
    - [null]/[undefined] is [None];
    - [Date.now()] is an argument [now] of the handler that reads it;
    - [Math.random()] is a draw from an explicit random source (module
      [Utils]);
    - a product or a sum of numbers that need not be integers, and the
      quotient that feeds one, is rounded to a double as IEEE 754 says
      ([Utils.fl]); the index that [shuffle] draws is taken from the exact
      product (see [Utils.shuffle_from]);
    - [setInterval] returns the id of the interval it creates, an argument
      [interval] of the handler that calls it; the DOM, the callbacks of
      the intervals and the network are outside the [state] object and are
      not modelled. *)

From Stdlib Require Import ZArith QArith Qround Qpower Lia Lqa.
From stdpp Require Import base option list gmap strings sorting.

Local Open Scope Z_scope.

(** ** config.js *)
Module Config.

Definition TOTAL_EXAMS : Z := 5.
Definition PASS_THRESHOLD : Z := 72.
Definition TIME_LIMIT_MINUTES : Z := 105.
Definition TIME_LIMIT_SECONDS : Z := TIME_LIMIT_MINUTES * 60.

(** [SPACED_REP_CONFIG] *)
Definition MAX_LEVEL : Z := 5.

(** [SPACED_REP_CONFIG.INTERVALS]: an object with the keys 0..5; any
    other key reads [undefined]. *)
Definition INTERVALS (level : Z) : option Z :=
  if decide (level = 0) then Some 2
  else if decide (level = 1) then Some 4
  else if decide (level = 2) then Some 8
  else if decide (level = 3) then Some 15
  else if decide (level = 4) then Some 25
  else if decide (level = 5) then Some 50
  else None.

Definition CORRECT_SURE : Z := 2.
Definition CORRECT_NOT_SURE : Z := 1.
Definition WRONG : Z := -2.

(** [MODES] *)
Inductive Mode := LEARNING | EXAM | SMART.

(** [ROUND_TYPES] *)
Inductive RoundType :=
| BASE | REVIEW_WRONG | REVIEW_NOT_SURE | REVIEW_DONT_KNOW
| REVIEW_ALL | REVIEW_WEAK.

#[global] Instance Mode_eq_dec : EqDecision Mode.
Proof. solve_decision. Defined.
#[global] Instance RoundType_eq_dec : EqDecision RoundType.
Proof. solve_decision. Defined.

End Config.

(** ** utils.js and the JavaScript built-ins the code relies on *)
Module Utils.

(** *** Numbers

    A JavaScript number is a double.  The integers of the code (counts,
    ids, times in milliseconds) are doubles that hold an integer, and
    their sums, differences and products are exact; they are [Z]s here.
    Where the code divides, multiplies by a fraction or adds one, the
    result is the double nearest to the exact value, a tie going to the
    one with the even significand: [fl].  A double has 53 significant
    bits, and below [2 ^ -1022] its last place stays at [2 ^ -1074];
    values of [2 ^ 1024] and more, that a double cannot hold, do not
    occur. *)

(** round to the nearest integer, a tie to the even one *)
Definition rne (y : Q) : Z :=
  let f := Qfloor y in
  match (y - inject_Z f ?= 1 # 2)%Q with
  | Lt => f
  | Eq => if Z.even f then f else f + 1
  | Gt => f + 1
  end.

(** the integer part of the binary logarithm of a positive rational *)
Definition ilog2 (x : Q) : Z :=
  if Qle_bool 1 x then Z.log2 (Qfloor x)
  else - Z.log2_up (Qceiling (/ x)).

(** the exponent of the unit in the last place of the double nearest to a
    positive rational *)
Definition ulp_exp (x : Q) : Z := Z.max (ilog2 x - 52) (-1074).

(** the double nearest to a positive rational *)
Definition fl_pos (x : Q) : Q :=
  (inject_Z (rne (x / 2 ^ ulp_exp x)) * 2 ^ ulp_exp x)%Q.

(** the double nearest to a rational *)
Definition fl (x : Q) : Q :=
  match (x ?= 0)%Q with
  | Eq => 0%Q
  | Gt => fl_pos x
  | Lt => (- fl_pos (- x))%Q
  end.

(** [Math.round]: the nearest integer, a half rounded up *)
Definition Math_round (x : Q) : Z := Qfloor (x + (1 # 2)).

(** [Math.round (p / q)] for integers [p] and [q]: the floor of
    [p/q + 1/2].  The quotient is taken exactly: with a single division
    the double nearest to [p / q] is on the same side of every half of an
    integer as [p / q] itself, for [|p| <= 2 ^ 51] and [0 < q < 2 ^ 53]
    (lemma [round_div_double]; [floor_div_double] and [ceil_div_double]
    say the same of [Math.floor] and [Math.ceil]). *)
Definition round_div (p q : Z) : Z := (2 * p + q) `div` (2 * q).

(** [calcPercent]: [Math.round((part / total) * 100)], the quotient and
    the product each rounded to a double *)
Definition calcPercent (part total : Z) : Z :=
  if decide (total = 0) then 0
  else Math_round (fl (fl (inject_Z part / inject_Z total) * 100)).

(** [new Set(array)] followed by iteration: the elements in the order of
    their first occurrence. *)
Definition set_add {A} `{EqDecision A} (s : list A) (x : A) : list A :=
  if decide (x ∈ s) then s else s ++ [x].

Definition new_Set {A} `{EqDecision A} (array : list A) : list A :=
  foldl set_add [] array.

(** [array.slice(-n)]: the last [n] elements. *)
Definition slice_last {A} (n : nat) (array : list A) : list A :=
  drop (length array - n) array.

(** *** The random source

    [Math.random()] returns a number in [0, 1).  A computation that
    calls it is a function of the sequence of the numbers drawn, [rnd],
    and of how many were drawn so far. *)
Definition Rand (A : Type) : Type := (nat -> Q) -> nat -> A * nat.

Definition ret {A} (a : A) : Rand A := fun _ n => (a, n).

Definition bind {A B} (m : Rand A) (k : A -> Rand B) : Rand B :=
  fun rnd n => let '(a, n') := m rnd n in k a rnd n'.

Notation "'let*' x ':=' m 'in' k" := (bind m (fun x => k))
  (at level 10, x name, m at level 100, k at level 200).

Definition Math_random : Rand Q := fun rnd n => (rnd n, S n).

(** what a source has to satisfy to be an outcome of [Math.random] *)
Definition valid_source (rnd : nat -> Q) : Prop :=
  forall n, (0 <= rnd n)%Q /\ (rnd n < 1)%Q.

(** [[result[i], result[j]] = [result[j], result[i]]].  Both indices are
    inside the array whenever the draws are in [0, 1); outside, the
    array is left as it is. *)
Definition swap {A} (result : list A) (i j : nat) : list A :=
  match result !! i, result !! j with
  | Some a, Some b => <[j := a]> (<[i := b]> result)
  | _, _ => result
  end.

(** the loop [for (let i = ...; i > 0; i--)] of [shuffle].  The index
    [Math.floor(Math.random() * (i + 1))] is read off the exact product.
    The double nearest to the product can be the integer just above it
    (the double just below a third, times 3, is 1), and for such a draw
    the code exchanges the neighbour of the pair exchanged here; with the
    draw 0 the two agree.  What is proved of [shuffle] below rests on the
    index being in range only. *)
Fixpoint shuffle_from {A} (i : nat) (result : list A) : Rand (list A) :=
  match i with
  | O => ret result
  | S i' =>
      let* r := Math_random in
      let j := Z.to_nat (Qfloor (r * inject_Z (Z.of_nat i + 1))) in
      shuffle_from i' (swap result i j)
  end.

(** [shuffle]: Fisher-Yates *)
Definition shuffle {A} (array : list A) : Rand (list A) :=
  shuffle_from (length array - 1) array.

(** [array.slice(a, b)] for [0 <= a <= b] *)
Definition slice {A} (a b : nat) (array : list A) : list A :=
  take (b - a) (drop a array).

(** [Object.entries(obj)] and [Object.keys(obj)] of an object keyed by
    question ids: keys that are array indices (from 0 to [2 ^ 32 - 2])
    are enumerated in ascending order.  An object lists its other keys
    after these, in the order of their insertion, which a [gmap] does not
    record: here every key takes its place in the ascending order. *)
Definition key_le {A} (p q : Z * A) : Prop := p.1 <= q.1.

#[global] Instance key_le_dec {A} (p q : Z * A) : Decision (key_le p q).
Proof. unfold key_le. apply _. Defined.

Definition Object_entries {A} (obj : gmap Z A) : list (Z * A) :=
  merge_sort key_le (map_to_list obj).

Definition Object_keys {A} (obj : gmap Z A) : list Z :=
  (Object_entries obj).*1.

End Utils.

(** ** state.js *)
Module State.
Import Config.

(** *** The typedefs *)

Record QuestionData := {
  number : Z;
  question : string;
  answers : list (string * string);   (* letter, text: in key order *)
  correct : list string
}.

Inductive Status := Unanswered | Correct | Wrong.

#[global] Instance Status_eq_dec : EqDecision Status.
Proof. solve_decision. Defined.

Record QuestionState := {
  selectedAnswer : option string;
  status : Status;
  dontKnow : bool;
  notSure : bool;
  time : Z
}.

Record HistoryEntry := {
  he_date : Z;                 (* the instant whose ISO string is stored *)
  he_mode : option Mode;
  he_total : Z;
  he_correct : Z;
  he_pct : Z;
  he_avgTime : Z
}.

Record QuestionMeta := { flagged : bool; note : string }.

(** a record of [state.spacedRepetition]; [lastSeenPosition] is a key
    that the object may lack *)
Record SpacedRepData := {
  level : Z;
  lastSeen : Z;
  seenCount : Z;
  lastSeenPosition : option Z
}.

(** the argument of [updateSpacedRepData]: an object with some of the
    keys *)
Record SpacedRepUpdate := {
  u_level : option Z;
  u_lastSeen : option Z;
  u_seenCount : option Z;
  u_lastSeenPosition : option Z
}.

Record ExamResults := {
  er_total : Z; er_correct : Z; er_pct : Z; er_passed : bool
}.

Record ExamQuestion := {
  eq_qid : Z; eq_answer : option string; eq_correct : bool
}.

(** the argument of [addExamHistory] *)
Record ExamResult := {
  ex_date : Z;
  ex_mode : option Mode;
  ex_examIndex : option Z;
  ex_duration : Z;
  ex_results : ExamResults;
  ex_questions : list ExamQuestion
}.

(** ['exam_' + Date.now()] *)
Inductive ExamId := exam_ (ms : Z).

(** [{ id: ..., ...examResult }] *)
Record ExamHistoryRecord := { id : ExamId; examResult : ExamResult }.

(** *** The [state] object, in the groups of its declaration *)

Record Bank := {
  questions : gmap Z QuestionData;
  allQuestionIds : list Z;
  exams : list (list Z)
}.

Record Round := {
  stack : list Z;
  currentIndex : nat;
  questionState : gmap Z QuestionState;
  answerOrder : gmap Z (list (string * string));
  baseStack : option (list Z);
  baseState : option (gmap Z QuestionState);
  currentMode : option Mode;
  currentRoundType : RoundType;
  selectedExamIndex : option Z
}.

(** [timerInterval] is the id of the interval of the exam clock, as
    [setInterval] returned it, or [null] *)
Record Timing := {
  examStartTime : option Z;
  questionStartTime : option Z;
  timerInterval : option Z
}.

(** [completedLearning] and [completedExam] are [Set]s: lists without
    repetition, in insertion order *)
Record Progress := {
  completedLearning : list Z;
  completedExam : list Z;
  history : list HistoryEntry;
  wrongCounts : gmap Z Z;
  questionMeta : gmap Z QuestionMeta;
  spacedRepetition : gmap Z SpacedRepData;
  examHistory : list ExamHistoryRecord
}.

Record Sync := {
  syncId : option string;
  isOnline : bool;
  isSaving : bool;
  lastCloudTimestamp : Z
}.

Record AppState := {
  bank : Bank;
  round : Round;
  timing : Timing;
  progress : Progress;
  sync : Sync
}.

(** the initial value of [state] *)
Definition initial : AppState := {|
  bank := {| questions := ∅; allQuestionIds := []; exams := [] |};
  round := {| stack := []; currentIndex := 0%nat; questionState := ∅;
              answerOrder := ∅; baseStack := None; baseState := None;
              currentMode := None; currentRoundType := BASE;
              selectedExamIndex := None |};
  timing := {| examStartTime := None; questionStartTime := None;
               timerInterval := None |};
  progress := {| completedLearning := []; completedExam := [];
                 history := []; wrongCounts := ∅; questionMeta := ∅;
                 spacedRepetition := ∅; examHistory := [] |};
  sync := {| syncId := None; isOnline := false; isSaving := false;
             lastCloudTimestamp := 0 |}
|}.

(** *** Assignments to the properties of [state] *)

Definition with_bank (f : Bank -> Bank) (s : AppState) : AppState :=
  {| bank := f (bank s); round := round s; timing := timing s;
     progress := progress s; sync := sync s |}.
Definition with_round (f : Round -> Round) (s : AppState) : AppState :=
  {| bank := bank s; round := f (round s); timing := timing s;
     progress := progress s; sync := sync s |}.
Definition with_timing (f : Timing -> Timing) (s : AppState) : AppState :=
  {| bank := bank s; round := round s; timing := f (timing s);
     progress := progress s; sync := sync s |}.
Definition with_progress (f : Progress -> Progress) (s : AppState)
  : AppState :=
  {| bank := bank s; round := round s; timing := timing s;
     progress := f (progress s); sync := sync s |}.
Definition with_sync (f : Sync -> Sync) (s : AppState) : AppState :=
  {| bank := bank s; round := round s; timing := timing s;
     progress := progress s; sync := f (sync s) |}.

Definition set_exams v (b : Bank) : Bank :=
  {| questions := questions b; allQuestionIds := allQuestionIds b;
     exams := v |}.

Definition set_stack v (r : Round) : Round :=
  {| stack := v; currentIndex := currentIndex r;
     questionState := questionState r; answerOrder := answerOrder r;
     baseStack := baseStack r; baseState := baseState r;
     currentMode := currentMode r; currentRoundType := currentRoundType r;
     selectedExamIndex := selectedExamIndex r |}.
Definition set_currentIndex v (r : Round) : Round :=
  {| stack := stack r; currentIndex := v;
     questionState := questionState r; answerOrder := answerOrder r;
     baseStack := baseStack r; baseState := baseState r;
     currentMode := currentMode r; currentRoundType := currentRoundType r;
     selectedExamIndex := selectedExamIndex r |}.
Definition set_questionState v (r : Round) : Round :=
  {| stack := stack r; currentIndex := currentIndex r;
     questionState := v; answerOrder := answerOrder r;
     baseStack := baseStack r; baseState := baseState r;
     currentMode := currentMode r; currentRoundType := currentRoundType r;
     selectedExamIndex := selectedExamIndex r |}.
Definition set_answerOrder v (r : Round) : Round :=
  {| stack := stack r; currentIndex := currentIndex r;
     questionState := questionState r; answerOrder := v;
     baseStack := baseStack r; baseState := baseState r;
     currentMode := currentMode r; currentRoundType := currentRoundType r;
     selectedExamIndex := selectedExamIndex r |}.
Definition set_baseStack v (r : Round) : Round :=
  {| stack := stack r; currentIndex := currentIndex r;
     questionState := questionState r; answerOrder := answerOrder r;
     baseStack := v; baseState := baseState r;
     currentMode := currentMode r; currentRoundType := currentRoundType r;
     selectedExamIndex := selectedExamIndex r |}.
Definition set_baseState v (r : Round) : Round :=
  {| stack := stack r; currentIndex := currentIndex r;
     questionState := questionState r; answerOrder := answerOrder r;
     baseStack := baseStack r; baseState := v;
     currentMode := currentMode r; currentRoundType := currentRoundType r;
     selectedExamIndex := selectedExamIndex r |}.
Definition set_currentMode v (r : Round) : Round :=
  {| stack := stack r; currentIndex := currentIndex r;
     questionState := questionState r; answerOrder := answerOrder r;
     baseStack := baseStack r; baseState := baseState r;
     currentMode := v; currentRoundType := currentRoundType r;
     selectedExamIndex := selectedExamIndex r |}.
Definition set_currentRoundType v (r : Round) : Round :=
  {| stack := stack r; currentIndex := currentIndex r;
     questionState := questionState r; answerOrder := answerOrder r;
     baseStack := baseStack r; baseState := baseState r;
     currentMode := currentMode r; currentRoundType := v;
     selectedExamIndex := selectedExamIndex r |}.
Definition set_selectedExamIndex v (r : Round) : Round :=
  {| stack := stack r; currentIndex := currentIndex r;
     questionState := questionState r; answerOrder := answerOrder r;
     baseStack := baseStack r; baseState := baseState r;
     currentMode := currentMode r; currentRoundType := currentRoundType r;
     selectedExamIndex := v |}.

Definition set_examStartTime v (t : Timing) : Timing :=
  {| examStartTime := v; questionStartTime := questionStartTime t;
     timerInterval := timerInterval t |}.
Definition set_questionStartTime v (t : Timing) : Timing :=
  {| examStartTime := examStartTime t; questionStartTime := v;
     timerInterval := timerInterval t |}.
Definition set_timerInterval v (t : Timing) : Timing :=
  {| examStartTime := examStartTime t;
     questionStartTime := questionStartTime t; timerInterval := v |}.

Definition set_completedLearning v (p : Progress) : Progress :=
  {| completedLearning := v; completedExam := completedExam p;
     history := history p; wrongCounts := wrongCounts p;
     questionMeta := questionMeta p;
     spacedRepetition := spacedRepetition p;
     examHistory := examHistory p |}.
Definition set_completedExam v (p : Progress) : Progress :=
  {| completedLearning := completedLearning p; completedExam := v;
     history := history p; wrongCounts := wrongCounts p;
     questionMeta := questionMeta p;
     spacedRepetition := spacedRepetition p;
     examHistory := examHistory p |}.
Definition set_history v (p : Progress) : Progress :=
  {| completedLearning := completedLearning p;
     completedExam := completedExam p;
     history := v; wrongCounts := wrongCounts p;
     questionMeta := questionMeta p;
     spacedRepetition := spacedRepetition p;
     examHistory := examHistory p |}.
Definition set_wrongCounts v (p : Progress) : Progress :=
  {| completedLearning := completedLearning p;
     completedExam := completedExam p;
     history := history p; wrongCounts := v;
     questionMeta := questionMeta p;
     spacedRepetition := spacedRepetition p;
     examHistory := examHistory p |}.
Definition set_questionMeta v (p : Progress) : Progress :=
  {| completedLearning := completedLearning p;
     completedExam := completedExam p;
     history := history p; wrongCounts := wrongCounts p;
     questionMeta := v;
     spacedRepetition := spacedRepetition p;
     examHistory := examHistory p |}.
Definition set_spacedRepetition v (p : Progress) : Progress :=
  {| completedLearning := completedLearning p;
     completedExam := completedExam p;
     history := history p; wrongCounts := wrongCounts p;
     questionMeta := questionMeta p;
     spacedRepetition := v;
     examHistory := examHistory p |}.
Definition set_examHistory v (p : Progress) : Progress :=
  {| completedLearning := completedLearning p;
     completedExam := completedExam p;
     history := history p; wrongCounts := wrongCounts p;
     questionMeta := questionMeta p;
     spacedRepetition := spacedRepetition p;
     examHistory := v |}.

Definition set_syncId v (y : Sync) : Sync :=
  {| syncId := v; isOnline := isOnline y; isSaving := isSaving y;
     lastCloudTimestamp := lastCloudTimestamp y |}.
Definition set_isOnline v (y : Sync) : Sync :=
  {| syncId := syncId y; isOnline := v; isSaving := isSaving y;
     lastCloudTimestamp := lastCloudTimestamp y |}.
Definition set_isSaving v (y : Sync) : Sync :=
  {| syncId := syncId y; isOnline := isOnline y; isSaving := v;
     lastCloudTimestamp := lastCloudTimestamp y |}.
Definition set_lastCloudTimestamp v (y : Sync) : Sync :=
  {| syncId := syncId y; isOnline := isOnline y; isSaving := isSaving y;
     lastCloudTimestamp := v |}.

(** *** State getters *)

(** a number in a condition: [undefined] and [0] are falsy *)
Definition truthy (x : option Z) : bool :=
  match x with Some z => bool_decide (z ≠ 0) | None => false end.

(** a string in a condition: [null] and the empty string are falsy *)
Definition truthy_str (x : option string) : bool :=
  match x with Some a => bool_decide (a ≠ EmptyString) | None => false end.

Definition getCurrentQuestionId (s : AppState) : option Z :=
  stack (round s) !! currentIndex (round s).

Definition getQuestion (s : AppState) (qid : Z) : option QuestionData :=
  questions (bank s) !! qid.

Definition getCurrentQuestion (s : AppState) : option QuestionData :=
  match getCurrentQuestionId s with
  | Some qid => if truthy (Some qid) then questions (bank s) !! qid else None
  | None => None
  end.

Definition getQuestionState (s : AppState) (qid : Z)
  : option QuestionState :=
  questionState (round s) !! qid.

Definition isExamMode (s : AppState) : bool :=
  bool_decide (currentMode (round s) = Some EXAM).
Definition isLearningMode (s : AppState) : bool :=
  bool_decide (currentMode (round s) = Some LEARNING).
Definition isSmartMode (s : AppState) : bool :=
  bool_decide (currentMode (round s) = Some SMART).

Definition getCompletedExams (s : AppState) : list Z :=
  if isExamMode s then completedExam (progress s)
  else completedLearning (progress s).

(** *** State setters *)

Definition setExams (v : list (list Z)) : AppState -> AppState :=
  with_bank (set_exams v).
Definition setMode (mode : option Mode) : AppState -> AppState :=
  with_round (set_currentMode mode).
Definition setSelectedExamIndex (idx : option Z) : AppState -> AppState :=
  with_round (set_selectedExamIndex idx).
Definition setRoundType (type : RoundType) : AppState -> AppState :=
  with_round (set_currentRoundType type).

(** [state.questionState[qid] = {...state.questionState[qid], ...updates}]:
    both callers pass all the five properties of a [QuestionState], which
    then override whatever the previous object held. *)
Definition updateQuestionState (qid : Z) (updates : QuestionState)
  (s : AppState) : AppState :=
  with_round (set_questionState (<[qid := updates]> (questionState (round s)))) s.

Definition setAnswerOrder (qid : Z) (order : list (string * string))
  (s : AppState) : AppState :=
  with_round (set_answerOrder (<[qid := order]> (answerOrder (round s)))) s.

Definition getAnswerOrder (s : AppState) (qid : Z) :=
  answerOrder (round s) !! qid.

(** [getCompletedExams().add(state.selectedExamIndex)]: the [Set] of the
    current mode is updated in place *)
Definition markExamCompleted (s : AppState) : AppState :=
  match selectedExamIndex (round s) with
  | Some idx =>
      if isExamMode s
      then with_progress
             (set_completedExam (Utils.set_add (completedExam (progress s)) idx)) s
      else with_progress
             (set_completedLearning
                (Utils.set_add (completedLearning (progress s)) idx)) s
  | None => s
  end.

Definition addHistoryEntry (entry : HistoryEntry) (s : AppState)
  : AppState :=
  with_progress (set_history (history (progress s) ++ [entry])) s.

(** [(state.wrongCounts[qid] || 0) + 1] *)
Definition incrementWrongCount (qid : Z) (s : AppState) : AppState :=
  with_progress
    (set_wrongCounts
       (<[qid := default 0 (wrongCounts (progress s) !! qid) + 1]>
          (wrongCounts (progress s)))) s.

(** the JSON round trip copies the object; a value of the embedding is
    its own copy *)
Definition saveBaseState (s : AppState) : AppState :=
  with_round (fun r =>
    set_baseStack (Some (stack r))
      (set_baseState (Some (questionState r)) r)) s.

Definition restoreBaseState (s : AppState) : AppState :=
  match baseState (round s), baseStack (round s) with
  | Some bs, Some bk =>
      with_round (fun r => set_stack bk (set_questionState bs r)) s
  | _, _ => s
  end.

(** *** Spaced repetition *)

Definition getSpacedRepData (s : AppState) (qid : Z) : SpacedRepData :=
  default {| level := 0; lastSeen := 0; seenCount := 0;
             lastSeenPosition := None |}
          (spacedRepetition (progress s) !! qid).

(** [{...getSpacedRepData(qid), ...data}] *)
Definition spread (old : SpacedRepData) (data : SpacedRepUpdate)
  : SpacedRepData :=
  {| level := default (level old) (u_level data);
     lastSeen := default (lastSeen old) (u_lastSeen data);
     seenCount := default (seenCount old) (u_seenCount data);
     lastSeenPosition :=
       match u_lastSeenPosition data with
       | Some p => Some p
       | None => lastSeenPosition old
       end |}.

Definition updateSpacedRepData (qid : Z) (data : SpacedRepUpdate)
  (s : AppState) : AppState :=
  with_progress
    (set_spacedRepetition
       (<[qid := spread (getSpacedRepData s qid) data]>
          (spacedRepetition (progress s)))) s.

Definition getAllSpacedRepData (s : AppState) : gmap Z SpacedRepData :=
  spacedRepetition (progress s).

(** *** Detailed exam history *)

Definition addExamHistory (now : Z) (r : ExamResult) (s : AppState)
  : AppState :=
  let pushed := examHistory (progress s)
                  ++ [{| id := exam_ now; examResult := r |}] in
  (* Keep only last 50 exams *)
  if decide (50 < length pushed)%nat
  then with_progress (set_examHistory (Utils.slice_last 50 pushed)) s
  else with_progress (set_examHistory pushed) s.

Definition getExamHistory (s : AppState) := examHistory (progress s).

(** *** Navigation *)

Definition initStack (questionIds : list Z) (s : AppState) : AppState :=
  with_round (fun r =>
    set_answerOrder ∅
      (set_questionState ∅
         (set_currentIndex 0%nat
            (set_stack questionIds r)))) s.

Definition nextQuestion (s : AppState) : bool * AppState :=
  if decide (Z.of_nat (currentIndex (round s))
             < Z.of_nat (length (stack (round s))) - 1)
  then (true, with_round (set_currentIndex (S (currentIndex (round s)))) s)
  else (false, s).

Definition prevQuestion (s : AppState) : bool * AppState :=
  if decide (0 < currentIndex (round s))%nat
  then (true, with_round (set_currentIndex (pred (currentIndex (round s)))) s)
  else (false, s).

Definition isLastQuestion (s : AppState) : bool :=
  bool_decide (Z.of_nat (length (stack (round s))) - 1
               <= Z.of_nat (currentIndex (round s))).

(** *** Sync state and timing *)

Definition setSyncId (v : option string) := with_sync (set_syncId v).
Definition setOnline (v : bool) := with_sync (set_isOnline v).
Definition setSaving (v : bool) := with_sync (set_isSaving v).
Definition setLastCloudTimestamp (ts : Z) :=
  with_sync (set_lastCloudTimestamp ts).
Definition getLastCloudTimestamp (s : AppState) : Z :=
  lastCloudTimestamp (sync s).

Definition setExamStartTime (v : option Z) :=
  with_timing (set_examStartTime v).
Definition setQuestionStartTime (v : option Z) :=
  with_timing (set_questionStartTime v).
Definition getExamStartTime (s : AppState) := examStartTime (timing s).
Definition getQuestionStartTime (s : AppState) :=
  questionStartTime (timing s).
Definition setTimerInterval (v : option Z) :=
  with_timing (set_timerInterval v).
Definition getTimerInterval (s : AppState) := timerInterval (timing s).

(** *** Data export and import *)

(** the document kept in the cloud; a key may be missing *)
Record CloudData := {
  d_timestamp : option Z;
  d_completedLearning : option (list Z);
  d_completedExam : option (list Z);
  d_history : option (list HistoryEntry);
  d_wrongCounts : option (gmap Z Z);
  d_exams : option (list (list Z));
  d_questionMeta : option (gmap Z QuestionMeta);
  d_spacedRepetition : option (gmap Z SpacedRepData);
  d_examHistory : option (list ExamHistoryRecord)
}.

Definition getAllData (now : Z) (s : AppState) : CloudData :=
  {| d_timestamp := Some now;
     d_completedLearning := Some (completedLearning (progress s));
     d_completedExam := Some (completedExam (progress s));
     d_history := Some (history (progress s));
     d_wrongCounts := Some (wrongCounts (progress s));
     d_exams := Some (exams (bank s));
     d_questionMeta := Some (questionMeta (progress s));
     d_spacedRepetition := Some (spacedRepetition (progress s));
     d_examHistory := Some (examHistory (progress s)) |}.

(** [if (data.k) state.k = data.k]: an array or an object is truthy, so
    the assignment runs when the key is there *)
Definition assign_if {A} (v : option A) (set : A -> AppState -> AppState)
  (s : AppState) : AppState :=
  match v with Some a => set a s | None => s end.

Definition applyData (data : option CloudData) (s : AppState) : AppState :=
  match data with
  | None => s
  | Some data =>
      let s := assign_if (d_completedLearning data)
                 (fun a => with_progress
                    (set_completedLearning (Utils.new_Set a))) s in
      let s := assign_if (d_completedExam data)
                 (fun a => with_progress
                    (set_completedExam (Utils.new_Set a))) s in
      let s := assign_if (d_history data)
                 (fun a => with_progress (set_history a)) s in
      let s := assign_if (d_wrongCounts data)
                 (fun a => with_progress (set_wrongCounts a)) s in
      (* if (data.exams?.length) *)
      let s := match d_exams data with
               | Some (e :: es) => with_bank (set_exams (e :: es)) s
               | _ => s
               end in
      let s := assign_if (d_questionMeta data)
                 (fun a => with_progress (set_questionMeta a)) s in
      let s := assign_if (d_spacedRepetition data)
                 (fun a => with_progress (set_spacedRepetition a)) s in
      let s := assign_if (d_examHistory data)
                 (fun a => with_progress (set_examHistory a)) s in
      (* data.timestamp || 0 *)
      with_sync (set_lastCloudTimestamp (default 0 (d_timestamp data))) s
  end.

(** *** Loading, metadata, resets *)

(** [loadQuestions] *)
Definition loadQuestions (questionsArray : list QuestionData)
  (s : AppState) : AppState :=
  with_bank (fun b =>
    {| questions := foldl (fun m q => <[number q := q]> m) ∅ questionsArray;
       allQuestionIds := number <$> questionsArray;
       exams := exams b |}) s.

Definition getQuestionMeta (s : AppState) (qid : Z) : QuestionMeta :=
  default {| flagged := false; note := EmptyString |}
          (questionMeta (progress s) !! qid).

(** [toggleQuestionFlag]: the entry is created when it is missing, then
    its flag is negated in place *)
Definition toggleQuestionFlag (qid : Z) (s : AppState) : bool * AppState :=
  let m := getQuestionMeta s qid in
  (negb (flagged m),
   with_progress
     (set_questionMeta
        (<[qid := {| flagged := negb (flagged m); note := note m |}]>
           (questionMeta (progress s)))) s).

Definition setQuestionNote (qid : Z) (text : string) (s : AppState)
  : AppState :=
  let m := getQuestionMeta s qid in
  with_progress
    (set_questionMeta
       (<[qid := {| flagged := flagged m; note := text |}]>
          (questionMeta (progress s)))) s.

Definition getFlaggedQuestionIds (s : AppState) : list Z :=
  (filter (fun e => flagged e.2 = true)
     (Utils.Object_entries (questionMeta (progress s)))).*1.

Definition resetAllData (s : AppState) : AppState :=
  let s := with_progress (fun _ =>
             {| completedLearning := []; completedExam := [];
                history := []; wrongCounts := ∅; questionMeta := ∅;
                spacedRepetition := ∅; examHistory := [] |}) s in
  let s := with_bank (set_exams []) s in
  with_round (fun r => set_selectedExamIndex None (set_currentMode None r)) s.

Definition clearStats (s : AppState) : AppState :=
  with_progress (fun p => set_wrongCounts ∅ (set_history [] p)) s.

(** [state.examHistory.find(e => e.id === examId)] *)
Definition getExamById (s : AppState) (examId : ExamId)
  : option ExamHistoryRecord :=
  List.find (fun e => match id e, examId with
                      | exam_ a, exam_ b => bool_decide (a = b)
                      end)
            (examHistory (progress s)).

End State.

(** ** timer.js *)

(** The module is the [timer.js] that [main.js] imports, the one written
    against the accessors of [state.js] above ([getTimerInterval],
    [setTimerInterval]); the clock of a question is a start time only. *)
Module Timer.
Import State.

(** [resetQuestionTimer]: the display apart, it restarts the clock of the
    question *)
Definition resetQuestionTimer (now : Z) (s : AppState) : AppState :=
  setQuestionStartTime (Some now) s.

(** [getQuestionElapsed]: [Math.round((Date.now() - startTime) / 1000)] *)
Definition getQuestionElapsed (now : Z) (s : AppState) : Z :=
  match getQuestionStartTime s with
  | Some startTime =>
      if truthy (Some startTime)
      then Utils.round_div (now - startTime) 1000
      else 0
  | None => 0
  end.

(** [getExamElapsed]: [Math.floor((Date.now() - startTime) / 1000)] *)
Definition getExamElapsed (now : Z) (s : AppState) : Z :=
  match getExamStartTime s with
  | Some startTime =>
      if truthy (Some startTime) then (now - startTime) `div` 1000 else 0
  | None => 0
  end.

(** [stopExamTimer]: [clearInterval] acts on the browser; the id is
    forgotten *)
Definition stopExamTimer (s : AppState) : AppState :=
  match getTimerInterval s with
  | Some interval =>
      if truthy (Some interval) then setTimerInterval None s else s
  | None => s
  end.

(** [startExamTimer]: the display apart, it records the start of the exam
    and, outside learning mode, the id [interval] of the interval that
    [setInterval] creates; the callback is kept in a variable of the
    module *)
Definition startExamTimer (now interval : Z) (s : AppState) : AppState :=
  let s := stopExamTimer s in
  let s := setExamStartTime (Some now) s in
  (* Hide timer in learning mode *)
  if isLearningMode s then s
  else setTimerInterval (Some interval) s.

(** [stopAllTimers] *)
Definition stopAllTimers (s : AppState) : AppState := stopExamTimer s.

(** the [remaining] of [updateExamTimer] *)
Definition remaining (now startTime : Z) : Z :=
  Z.max (Config.TIME_LIMIT_SECONDS - (now - startTime) `div` 1000) 0.

(** [updateExamTimer]: the tick of the exam clock; [onTimeExpired] is the
    callback of the module, [None] when it is not a function *)
Definition updateExamTimer (onTimeExpired : option (AppState -> AppState))
  (now : Z) (s : AppState) : AppState :=
  match getExamStartTime s with
  | Some startTime =>
      if truthy (Some startTime) then
        if decide (remaining now startTime = 0) then
          match onTimeExpired with
          | Some callback => callback s
          | None => s
          end
        else s
      else s
  | None => s
  end.

End Timer.

(** ** quiz.js *)
Module Quiz.
Import Config State.

(** [existing?.status || 'unanswered'] and its like *)
Definition status_of (existing : option QuestionState) : Status :=
  match existing with Some e => status e | None => Unanswered end.
Definition time_of (existing : option QuestionState) : Z :=
  match existing with Some e => time e | None => 0 end.
Definition dontKnow_of (existing : option QuestionState) : bool :=
  match existing with Some e => dontKnow e | None => false end.
Definition notSure_of (existing : option QuestionState) : bool :=
  match existing with Some e => notSure e | None => false end.

(** [selectedAnswer || existing?.selectedAnswer || null] *)
Definition draft_answer (selected : option string)
  (existing : option QuestionState) : option string :=
  if truthy_str selected then selected
  else match existing with
       | Some e => if truthy_str (selectedAnswer e)
                   then selectedAnswer e else None
       | None => None
       end.

Definition updateDraftState (selected : option string) (dk ns : bool)
  (s : AppState) : AppState :=
  match getCurrentQuestionId s with
  | None => s
  | Some qid =>
      if negb (truthy (Some qid)) then s
      else
        let existing := getQuestionState s qid in
        (* In learning mode, don't update if already answered *)
        if isLearningMode s
           && bool_decide (status_of existing ≠ Unanswered)
        then s
        else updateQuestionState qid
               {| selectedAnswer := draft_answer selected existing;
                  status := status_of existing;
                  dontKnow := dk;
                  notSure := ns;
                  time := time_of existing |} s
  end.

Definition checkCurrentQuestion (selected : option string) (now : Z)
  (s : AppState) : bool * AppState :=
  if negb (truthy_str selected) then (false, s)
  else
    match getCurrentQuestionId s, getCurrentQuestion s with
    | Some qid, Some q =>
        if negb (truthy (Some qid)) then (false, s)
        else
          let timeSpent := Timer.getQuestionElapsed now s in
          let isCorrect :=
            match selected with
            | Some a => bool_decide (a ∈ correct q)
            | None => false
            end in
          let existing := getQuestionState s qid in
          let s := updateQuestionState qid
                     {| selectedAnswer := selected;
                        status := if isCorrect then Correct else Wrong;
                        dontKnow := dontKnow_of existing;
                        notSure := notSure_of existing;
                        time := timeSpent |} s in
          let s := if isCorrect then s else incrementWrongCount qid s in
          (true, s)
    | _, _ => (false, s)
    end.

Record ExamStats := {
  stats_correct : Z;
  wrong : list Z;
  dk : list Z;
  ns : list Z;
  correctButNotSure : list Z;
  totalTime : Z
}.

(** the body of the [forEach] of [computeStats] *)
Definition computeStats_step (qs : gmap Z QuestionState)
  (acc : ExamStats) (qid : Z) : ExamStats :=
  match qs !! qid with
  | None => acc
  | Some st =>
      if bool_decide (status st = Unanswered) then acc
      else
        let dk' := if dontKnow st then dk acc ++ [qid] else dk acc in
        let ns' := if notSure st then ns acc ++ [qid] else ns acc in
        let totalTime' := totalTime acc + time st in
        if bool_decide (status st = Correct)
        then {| stats_correct := stats_correct acc + 1;
                wrong := wrong acc; dk := dk'; ns := ns';
                correctButNotSure :=
                  if notSure st then correctButNotSure acc ++ [qid]
                  else correctButNotSure acc;
                totalTime := totalTime' |}
        else {| stats_correct := stats_correct acc;
                wrong := wrong acc ++ [qid]; dk := dk'; ns := ns';
                correctButNotSure := correctButNotSure acc;
                totalTime := totalTime' |}
  end.

Definition computeStats (qs : gmap Z QuestionState) (questionIds : list Z)
  : ExamStats :=
  foldl (computeStats_step qs)
    {| stats_correct := 0; wrong := []; dk := []; ns := [];
       correctButNotSure := []; totalTime := 0 |}
    questionIds.

Definition isPassed (n_correct total : Z) : bool :=
  bool_decide (PASS_THRESHOLD <= Utils.calcPercent n_correct total).

Definition startRound (roundType : RoundType) (questionIds : list Z)
  (now : Z) (s : AppState) : bool * AppState :=
  match questionIds with
  | [] => (false, s)
  | _ :: _ =>
      let s := setRoundType roundType s in
      let s := initStack questionIds s in
      let s := Timer.resetQuestionTimer now s in
      (true, s)
  end.

(** [finishExam]; the cloud write that [saveAll] schedules leaves the
    [state] object as it is *)
Definition finishExam (roundType : RoundType)
  (qs : gmap Z QuestionState) (stk : list Z) (mode : option Mode)
  (selectedExamIdx : option Z) (now : Z) (s : AppState) : AppState :=
  if decide (roundType = BASE) then
    let s := saveBaseState s in
    let s := match selectedExamIdx with
             | Some _ => markExamCompleted s
             | None => s
             end in
    let stats := computeStats qs stk in
    let total := Z.of_nat (length stk) in
    let pct := Utils.calcPercent (stats_correct stats) total in
    let avgTime := if decide (total = 0) then 0
                   else Utils.round_div (totalTime stats) total in
    addHistoryEntry
      {| he_date := now; he_mode := mode; he_total := total;
         he_correct := stats_correct stats; he_pct := pct;
         he_avgTime := avgTime |} s
  else s.

Definition getReviewQuestions (baseSt : option (gmap Z QuestionState))
  (baseStk : option (list Z)) (reviewType : RoundType) : list Z :=
  match baseSt, baseStk with
  | Some bs, Some bk =>
      let stats := computeStats bs bk in
      match reviewType with
      | REVIEW_WRONG => wrong stats
      | REVIEW_NOT_SURE => ns stats
      | REVIEW_DONT_KNOW => dk stats
      | REVIEW_ALL =>
          Utils.new_Set (wrong stats ++ dk stats ++ ns stats)
      | _ => []
      end
  | _, _ => []
  end.

(** [ensureAnswerOrder]: shuffle on first access; an array is truthy even
    when it is empty *)
Definition ensureAnswerOrder (qid : Z) (s : AppState) : Utils.Rand AppState :=
  match getAnswerOrder s qid with
  | Some _ => Utils.ret s
  | None =>
      match getQuestion s qid with
      | None => Utils.ret s
      | Some q =>
          Utils.bind (Utils.shuffle (answers q))
            (fun shuffled => Utils.ret (setAnswerOrder qid shuffled s))
      end
  end.

(** [Math.ceil(shuffled.length / EXAM_CONFIG.TOTAL_EXAMS)] *)
Definition exam_size (n : nat) : nat :=
  Z.to_nat ((Z.of_nat n + TOTAL_EXAMS - 1) `div` TOTAL_EXAMS).

Definition generateExams (allQuestionIds : list Z)
  : Utils.Rand (list (list Z)) :=
  Utils.bind (Utils.shuffle allQuestionIds) (fun shuffled =>
    let size := exam_size (length shuffled) in
    Utils.ret
      ((fun i => Utils.slice (i * size) ((i + 1) * size) shuffled)
         <$> seq 0 (Z.to_nat TOTAL_EXAMS))).

(** [handleNext]; the two callbacks act on the state (and draw numbers) *)
Definition handleNext (onFinish onShowQuestion : AppState -> Utils.Rand AppState)
  (selected : option string) (now : Z) (s : AppState)
  : Utils.Rand (bool * AppState) :=
  if negb (truthy_str selected) then Utils.ret (false, s)
  else
    let state := match getCurrentQuestionId s with
                 | Some qid => getQuestionState s qid
                 | None => None
                 end in
    let advance (s : AppState) : Utils.Rand (bool * AppState) :=
      if negb (isLastQuestion s) then
        let s := (nextQuestion s).2 in
        let s := Timer.resetQuestionTimer now s in
        Utils.bind (onShowQuestion s) (fun s => Utils.ret (true, s))
      else
        Utils.bind (onFinish s) (fun s => Utils.ret (false, s)) in
    if isLearningMode s then
      (* In learning mode, first show result, then move to next *)
      if bool_decide (status_of state = Unanswered) then
        let s := (checkCurrentQuestion selected now s).2 in
        Utils.bind (onShowQuestion s) (fun s => Utils.ret (true, s))
      else advance s
    else
      (* In exam mode, check and move immediately *)
      advance (checkCurrentQuestion selected now s).2.

Definition handleBack (onShowQuestion : AppState -> Utils.Rand AppState)
  (s : AppState) : Utils.Rand (bool * AppState) :=
  let '(moved, s') := prevQuestion s in
  if moved then Utils.bind (onShowQuestion s') (fun s => Utils.ret (true, s))
  else Utils.ret (false, s').

End Quiz.

(** ** smart.js *)
Module Smart.
Import Config State Utils.

Definition updateSpacedRepLevel (qid : Z) (is_correct ns : bool) (now : Z)
  (s : AppState) : AppState :=
  let data := getSpacedRepData s qid in
  let newLevel := level data in
  let newLevel :=
    if is_correct then
      if ns then newLevel + CORRECT_NOT_SURE else newLevel + CORRECT_SURE
    else newLevel + WRONG in
  (* Clamp level between 0 and MAX_LEVEL *)
  let newLevel := Z.max 0 (Z.min MAX_LEVEL newLevel) in
  updateSpacedRepData qid
    {| u_level := Some newLevel;
       u_lastSeen := Some now;
       u_seenCount := Some (seenCount data + 1);
       u_lastSeenPosition := None |} s.

(** [SPACED_REP_CONFIG.INTERVALS[data.level] || 50] *)
Definition interval_of (lvl : Z) : Z := default 50 (INTERVALS lvl).

(** the score of a question that was seen before *)
Definition seen_priority (data : SpacedRepData) (currentPosition : Z) : Z :=
  let interval := interval_of (level data) in
  let questionsSinceSeen :=
    currentPosition - default 0 (lastSeenPosition data) in
  let overdueScore := questionsSinceSeen - interval in
  let levelPenalty := level data * 10 in
  overdueScore - levelPenalty.

Definition calculatePriority (qid : Z) (currentPosition : Z)
  (s : AppState) : Rand Q :=
  let data := getSpacedRepData s qid in
  (* Never seen = highest priority *)
  if decide (seenCount data = 0)
  then let* r := Math_random in ret (fl (-1000 + fl (r * 100)))
  else ret (inject_Z (seen_priority data currentPosition)).

Record Scored := { qid : Z; priority : Q; data : SpacedRepData }.

(** [allQids.map(qid => ({ qid, priority: ..., data: ... }))] *)
Fixpoint score_all (qids : list Z) (s : AppState) : Rand (list Scored) :=
  match qids with
  | [] => ret []
  | q :: rest =>
      let* p := calculatePriority q 0 s in
      let* others := score_all rest s in
      ret ({| qid := q; priority := p; data := getSpacedRepData s q |}
             :: others)
  end.

(** [scored.sort((a, b) => a.priority - b.priority)]: the sort of an
    array is stable, so the result is that of the stable insertion *)
Fixpoint insert_sorted (a : Scored) (sorted : list Scored) : list Scored :=
  match sorted with
  | [] => [a]
  | b :: rest =>
      if Qle_bool (priority a) (priority b) then a :: b :: rest
      else b :: insert_sorted a rest
  end.

Definition sort_by_priority (scored : list Scored) : list Scored :=
  foldr insert_sorted [] scored.

(** the tiers of [shuffleWithPriority] *)
Definition is_urgent (x : Scored) : bool :=
  bool_decide (seenCount (data x) = 0) || bool_decide (level (data x) <= 1).
Definition is_moderate (x : Scored) : bool :=
  negb (is_urgent x) && bool_decide (level (data x) <= 3).
Definition is_review (x : Scored) : bool :=
  negb (is_urgent x) && negb (bool_decide (level (data x) <= 3)).

Definition shuffleWithPriority (scoredQuestions : list Scored)
  : Rand (list Z) :=
  let urgent := qid <$> filter (fun x => is_urgent x = true) scoredQuestions in
  let moderate := qid <$> filter (fun x => is_moderate x = true) scoredQuestions in
  let review := qid <$> filter (fun x => is_review x = true) scoredQuestions in
  let* u := shuffle urgent in
  let* m := shuffle moderate in
  let* r := shuffle review in
  ret (u ++ m ++ r).

Definition generateSmartQueue (sessionSize : nat) (s : AppState)
  : Rand (list Z) :=
  let allQids := allQuestionIds (bank s) in
  match allQids with
  | [] => ret []
  | _ =>
      (* Score all questions *)
      let* scored := score_all allQids s in
      (* Sort by priority (lowest first = show first) *)
      let sorted := sort_by_priority scored in
      (* Take top questions for session *)
      let selected := take (Nat.min sessionSize (length allQids)) sorted in
      shuffleWithPriority selected
  end.

Record SmartStats := {
  total : Z;
  mastered : Z;
  learning : Z;
  struggling : Z;
  notStarted : Z;
  masteredPct : Z
}.

(** the four counters of [getSmartStats] *)
Record Counters := { c_mastered : Z; c_learning : Z;
                     c_struggling : Z; c_notStarted : Z }.

(** the body of the [forEach] of [getSmartStats] *)
Definition count_step (srData : gmap Z SpacedRepData) (c : Counters)
  (q : Z) : Counters :=
  match srData !! q with
  | None =>
      {| c_mastered := c_mastered c; c_learning := c_learning c;
         c_struggling := c_struggling c;
         c_notStarted := c_notStarted c + 1 |}
  | Some d =>
      if decide (seenCount d = 0) then
        {| c_mastered := c_mastered c; c_learning := c_learning c;
           c_struggling := c_struggling c;
           c_notStarted := c_notStarted c + 1 |}
      else if decide (4 <= level d) then
        {| c_mastered := c_mastered c + 1; c_learning := c_learning c;
           c_struggling := c_struggling c;
           c_notStarted := c_notStarted c |}
      else if decide (1 <= level d) then
        {| c_mastered := c_mastered c; c_learning := c_learning c + 1;
           c_struggling := c_struggling c;
           c_notStarted := c_notStarted c |}
      else
        {| c_mastered := c_mastered c; c_learning := c_learning c;
           c_struggling := c_struggling c + 1;
           c_notStarted := c_notStarted c |}
  end.

Definition getSmartStats (s : AppState) : SmartStats :=
  let allQids := allQuestionIds (bank s) in
  let srData := getAllSpacedRepData s in
  let c := foldl (count_step srData)
             {| c_mastered := 0; c_learning := 0; c_struggling := 0;
                c_notStarted := 0 |} allQids in
  let n := Z.of_nat (length allQids) in
  {| total := n;
     mastered := c_mastered c;
     learning := c_learning c;
     struggling := c_struggling c;
     notStarted := c_notStarted c;
     masteredPct :=
       if decide (n = 0) then 0
       else Math_round (fl (fl (inject_Z (c_mastered c) / inject_Z n)
                            * 100)) |}.

(** [markQuestionSeen]: [{ ...data, lastSeenPosition: position }] *)
Definition markQuestionSeen (qid : Z) (position : Z) (s : AppState)
  : AppState :=
  let data := getSpacedRepData s qid in
  updateSpacedRepData qid
    {| u_level := Some (level data);
       u_lastSeen := Some (lastSeen data);
       u_seenCount := Some (seenCount data);
       u_lastSeenPosition := Some position |} s.

(** [getDueQuestions]: [hoursSinceSeen >= interval], where the interval of
    a level outside 0..5 is [undefined] and the comparison then fails *)
Definition is_due (now : Z) (data : SpacedRepData) : bool :=
  if decide (seenCount data = 0) then true
  else match INTERVALS (level data) with
       | Some interval =>
           bool_decide (interval * (1000 * 60 * 60) <= now - lastSeen data)
       | None => false
       end.

Definition getDueQuestions (now : Z) (s : AppState) : list Z :=
  filter (fun q => is_due now (getSpacedRepData s q) = true)
    (allQuestionIds (bank s)).

End Smart.

(** ** storage.js *)
Module Storage.
Import State.

(** [onCloudDataChange]: [snapshot.val()] is the document, or [null].
    The notification of the presentation layer is outside [state]. *)
Definition onCloudDataChange (snapshot : option CloudData) (s : AppState)
  : AppState :=
  if isSaving (sync s) then s  (* Ignore our own saves *)
  else
    match snapshot with
    | None => s
    | Some data =>
        (* Only apply if cloud data is newer *)
        if truthy (d_timestamp data)
           && bool_decide (getLastCloudTimestamp s
                           < default 0 (d_timestamp data))
        then applyData (Some data) s
        else s
    end.

(** [saveToCloud] up to its [await]: [connected] tells whether [dataRef]
    is set; the document handed to the network is returned *)
Definition saveToCloud_begin (connected : bool) (now : Z) (s : AppState)
  : option CloudData * AppState :=
  if negb connected || isSaving (sync s) then (None, s)
  else (Some (getAllData now s), setSaving true s).

(** [saveToCloud] after its [await]: [ok] tells whether the write went
    through; [data] is the document of the first half *)
Definition saveToCloud_end (ok : bool) (data : CloudData) (s : AppState)
  : AppState :=
  let s := if ok then setLastCloudTimestamp (default 0 (d_timestamp data)) s
           else s in
  setSaving false s.

End Storage.

(** ** ui.js *)
Module Ui.
Import State.

(** [renderQuestion]: what it does to [state]; the rest writes the page *)
Definition renderQuestion (s : AppState) : Utils.Rand AppState :=
  match getCurrentQuestionId s, getCurrentQuestion s with
  | Some qid, Some _ => Quiz.ensureAnswerOrder qid s
  | _, _ => Utils.ret s
  end.

End Ui.

(** ** stats.js *)
Module Stats.
Import Config State.

Record OverallStats := {
  totalExams : Z; avgScore : Z; avgTime : Z; passRate : Z
}.

Definition sum_of (f : HistoryEntry -> Z) (h : list HistoryEntry) : Z :=
  foldl (fun sum e => sum + f e) 0 h.

Definition calculateOverallStats (s : AppState) : OverallStats :=
  let h := history (progress s) in
  let n := Z.of_nat (length h) in
  if decide (n = 0) then
    {| totalExams := 0; avgScore := 0; avgTime := 0; passRate := 0 |}
  else
    let passed :=
      Z.of_nat (length (filter (fun e => PASS_THRESHOLD <= he_pct e) h)) in
    {| totalExams := n;
       avgScore := Utils.round_div (sum_of he_pct h) n;
       avgTime := Utils.round_div (sum_of he_avgTime h) n;
       passRate := Utils.calcPercent passed n |}.

Definition getAllWeakQuestionIds (s : AppState) : list Z :=
  Utils.Object_keys (wrongCounts (progress s)).

(** [state.history.slice(-n)]; [-0] is [0], and [slice(0)] is the whole
    array *)
Definition getRecentHistory (n : nat) (s : AppState) : list HistoryEntry :=
  if decide (n = 0%nat) then history (progress s)
  else Utils.slice_last n (history (progress s)).

End Stats.

(** ** main.js *)
Module Main.
Import Config State.

(** the first loop of [finishExam] *)
Definition update_levels (now : Z) (s : AppState) (q : Z) : AppState :=
  match getQuestionState s q with
  | Some qState =>
      if bool_decide (status qState ≠ Unanswered)
      then Smart.updateSpacedRepLevel q
             (bool_decide (status qState = Correct)) (notSure qState) now s
      else s
  | None => s
  end.

(** the questions of the detailed record *)
Definition exam_question (s : AppState) (q : Z) : ExamQuestion :=
  let qs := getQuestionState s q in
  {| eq_qid := q;
     eq_answer := match qs with
                  | Some e => if truthy_str (selectedAnswer e)
                              then selectedAnswer e else None
                  | None => None
                  end;
     eq_correct := match qs with
                   | Some e => bool_decide (status e = Correct)
                   | None => false
                   end |}.

(** [finishExam]; [s0] is the copy that [getState] returns after the
    timers are stopped: the properties read from it later ([stack],
    [questionState], [currentMode], [currentRoundType],
    [selectedExamIndex]) are not assigned in between.
    [renderResultsScreen()] at the end acts on the page only. *)
Definition finishExam (now : Z) (s : AppState) : AppState :=
  let s0 := Timer.stopAllTimers s in
  let stk := stack (round s0) in
  let mode := currentMode (round s0) in
  (* Update spaced repetition data for smart mode *)
  let s := if bool_decide (mode = Some SMART)
              || bool_decide (mode = Some LEARNING)
           then foldl (update_levels now) s0 stk
           else s0 in
  (* Record detailed history *)
  let s :=
    if decide (currentRoundType (round s0) = BASE) then
      let examStats := Quiz.computeStats (questionState (round s0)) stk in
      let n := Z.of_nat (length stk) in
      let pct :=
        if decide (n = 0) then 0
        else Utils.Math_round
               (Utils.fl (Utils.fl (inject_Z (Quiz.stats_correct examStats)
                                    / inject_Z n) * 100)) in
      addExamHistory now
        {| ex_date := now;
           ex_mode := mode;
           ex_examIndex := selectedExamIndex (round s0);
           ex_duration := Timer.getExamElapsed now s;
           ex_results :=
             {| er_total := n;
                er_correct := Quiz.stats_correct examStats;
                er_pct := pct;
                er_passed := if decide (n = 0) then false
                             else bool_decide (72 <= pct) |};
           ex_questions := exam_question s <$> stk |} s
    else s in
  Quiz.finishExam (currentRoundType (round s0)) (questionState (round s0))
    stk mode (selectedExamIndex (round s0)) now s.

(** [handleNext]: the selected answer is read from the page *)
Definition handleNext (selected : option string) (now : Z) (s : AppState)
  : Utils.Rand (bool * AppState) :=
  Quiz.handleNext (fun s => Utils.ret (finishExam now s)) Ui.renderQuestion
    selected now s.

Definition handleBack (s : AppState) : Utils.Rand (bool * AppState) :=
  Quiz.handleBack Ui.renderQuestion s.

(** what follows a successful [startRound] in every handler *)
Definition show_round (now interval : Z) (s : AppState)
  : Utils.Rand AppState :=
  let s := Timer.startExamTimer now interval s in
  let s := Timer.resetQuestionTimer now s in
  Ui.renderQuestion s.

Definition startReview (reviewType : RoundType) (now interval : Z)
  (s : AppState) : Utils.Rand AppState :=
  let questions :=
    Quiz.getReviewQuestions (baseState (round s)) (baseStack (round s))
      reviewType in
  match questions with
  | [] => Utils.ret s
  | _ =>
      let '(ok, s') := Quiz.startRound reviewType questions now s in
      if ok then show_round now interval s' else Utils.ret s'
  end.

Definition backToBaseResults (s : AppState) : AppState :=
  restoreBaseState (setRoundType BASE s).

Definition reviewWeakPoints (now interval : Z) (s : AppState)
  : Utils.Rand AppState :=
  let weakIds := Stats.getAllWeakQuestionIds s in
  match weakIds with
  | [] => Utils.ret s
  | _ =>
      let s := match currentMode (round s) with
               | None => setMode (Some LEARNING) s
               | Some _ => s
               end in
      let '(ok, s') := Quiz.startRound REVIEW_WEAK weakIds now s in
      if ok then show_round now interval s' else Utils.ret s'
  end.

(** [handleFlag] *)
Definition handleFlag (s : AppState) : AppState :=
  match getCurrentQuestionId s with
  | Some qid => if truthy (Some qid) then (toggleQuestionFlag qid s).2 else s
  | None => s
  end.

End Main.

Import Config Utils State Timer Quiz Smart Storage.

(** * The vocabulary of the specification *)

(** the level rule in the words of the specification *)
Definition clamp (x lo hi : Z) : Z := Z.max lo (Z.min hi x).

Definition spec_delta (is_correct not_sure : bool) : Z :=
  if is_correct then (if not_sure then 1 else 2) else -2.

(** what the lists of [computeStats] hold, question by question *)
Definition is_wrong (qs : gmap Z QuestionState) (q : Z) : bool :=
  match qs !! q with
  | Some st => bool_decide (status st = Wrong)
  | None => false
  end.

Definition is_notSure (qs : gmap Z QuestionState) (q : Z) : bool :=
  match qs !! q with
  | Some st => bool_decide (status st ≠ Unanswered) && notSure st
  | None => false
  end.

Definition is_dontKnow (qs : gmap Z QuestionState) (q : Z) : bool :=
  match qs !! q with
  | Some st => bool_decide (status st ≠ Unanswered) && dontKnow st
  | None => false
  end.

(** a record of the data model: level in [0,5], seen count not negative *)
Definition valid_record (d : SpacedRepData) : Prop :=
  0 <= level d <= 5 /\ 0 <= seenCount d.

(** the four categories in the words of the specification *)
Definition spec_mastered (o : option SpacedRepData) : bool :=
  match o with
  | Some d => bool_decide (4 <= level d) && bool_decide (0 < seenCount d)
  | None => false
  end.

Definition spec_learning (o : option SpacedRepData) : bool :=
  match o with
  | Some d => bool_decide (1 <= level d <= 3) && bool_decide (0 < seenCount d)
  | None => false
  end.

Definition spec_struggling (o : option SpacedRepData) : bool :=
  match o with
  | Some d => bool_decide (level d = 0) && bool_decide (0 < seenCount d)
  | None => false
  end.

Definition spec_notStarted (o : option SpacedRepData) : bool :=
  match o with
  | Some d => bool_decide (seenCount d = 0)
  | None => true
  end.

(** how many questions of [l] fall in the category [f] *)
Definition count_in (f : option SpacedRepData -> bool)
    (sr : gmap Z SpacedRepData) (l : list Z) : Z :=
  Z.of_nat (length (filter (fun q => f (sr !! q) = true) l)).

(** the order of the comparator [(a, b) => a.priority - b.priority] *)
Definition by_priority (a b : Scored) : Prop :=
  (priority a <= priority b)%Q.

(** * The states and snapshots of the examples *)

Definition sample_result : ExamResult :=
  {| ex_date := 0; ex_mode := Some EXAM; ex_examIndex := Some 0;
     ex_duration := 60;
     ex_results := {| er_total := 1; er_correct := 1; er_pct := 100;
                      er_passed := true |};
     ex_questions := [{| eq_qid := 1; eq_answer := Some "A"%string;
                         eq_correct := true |}] |}.

Definition full_history : AppState :=
  with_progress
    (set_examHistory
       (replicate 50 {| id := exam_ 1; examResult := sample_result |}))
    initial.

Definition sample_question : QuestionData :=
  {| number := 1; question := "Q1"%string;
     answers := [("A", "yes"); ("B", "no")]%string;
     correct := ["A"%string] |}.

(** a learning round over the single question 1, started at 1000 ms *)
Definition sample_state : AppState :=
  (startRound BASE [1] 1000
     (setMode (Some LEARNING)
        (with_bank (fun b => {| questions := {[ 1 := sample_question ]};
                                allQuestionIds := [1];
                                exams := [[1]] |}) initial))).2.

(** the state in which the answer A is drafted for question 1 *)
Definition drafted_state : AppState :=
  updateDraftState (Some "A"%string) false false sample_state.

(** the base round of the example: 5 wrong and not sure, 7 wrong, 9 correct
    but "don't know" *)
Definition example_base : gmap Z QuestionState :=
  <[5 := {| selectedAnswer := Some "B"%string; status := Wrong;
            dontKnow := false; notSure := true; time := 3 |}]>
  (<[7 := {| selectedAnswer := Some "C"%string; status := Wrong;
             dontKnow := false; notSure := false; time := 4 |}]>
  (<[9 := {| selectedAnswer := Some "A"%string; status := Correct;
             dontKnow := true; notSure := false; time := 5 |}]> ∅)).

(** four questions: 1 mastered, 2 being learnt, 3 struggling, 4 without a
    record *)
Definition sample_progress : AppState :=
  with_bank
    (fun b => {| questions := questions b; allQuestionIds := [1; 2; 3; 4];
                 exams := exams b |})
    (with_progress
       (set_spacedRepetition
          (<[1 := {| level := 5; lastSeen := 10; seenCount := 3;
                     lastSeenPosition := None |}]>
          (<[2 := {| level := 2; lastSeen := 20; seenCount := 1;
                     lastSeenPosition := None |}]>
          (<[3 := {| level := 0; lastSeen := 30; seenCount := 2;
                     lastSeenPosition := None |}]> ∅))))
       initial).

(** the local state of the examples: exams generated, last merge at 10 *)
Definition local_state : AppState :=
  setLastCloudTimestamp 10 (setExams [[1; 2]; [3]] initial).

Definition sample_entry : HistoryEntry :=
  {| he_date := 15; he_mode := Some EXAM; he_total := 2; he_correct := 1;
     he_pct := 50; he_avgTime := 7 |}.

(** a newer snapshot that carries a history and an empty list of exams *)
Definition newer_snapshot : CloudData :=
  {| d_timestamp := Some 20;
     d_completedLearning := None; d_completedExam := None;
     d_history := Some [sample_entry];
     d_wrongCounts := None;
     d_exams := Some [];
     d_questionMeta := None; d_spacedRepetition := None;
     d_examHistory := None |}.

(** a smart session over the questions 3 and 7, both answered *)
Definition smart_session : AppState :=
  let s := setMode (Some SMART) initial in
  let s := (startRound BASE [3; 7] 1000 s).2 in
  let s := updateQuestionState 3
             {| selectedAnswer := Some "A"%string; status := Correct;
                dontKnow := false; notSure := false; time := 4 |} s in
  updateQuestionState 7
    {| selectedAnswer := Some "B"%string; status := Wrong;
       dontKnow := false; notSure := false; time := 6 |} s.

(** the questions 1 (never seen) and 2 (seen once, level 0) *)
Definition two_questions : AppState :=
  with_bank
    (fun b => {| questions := questions b; allQuestionIds := [1; 2];
                 exams := exams b |})
    (with_progress
       (set_spacedRepetition
          (<[2 := {| level := 0; lastSeen := 5; seenCount := 1;
                     lastSeenPosition := None |}]> ∅))
       initial).

(** the source whose every draw is 0 *)
Definition zero_source : nat -> Q := fun _ => 0%Q.

(** question 2 seen once at position 1000, at level 5 *)
Definition far_position : AppState :=
  with_progress
    (set_spacedRepetition
       (<[2 := {| level := 5; lastSeen := 5; seenCount := 1;
                  lastSeenPosition := Some 1000 |}]> ∅))
    two_questions.

(** a round in which 5 is correct but not sure and 7 is wrong *)
Definition example_unsure : gmap Z QuestionState :=
  <[5 := {| selectedAnswer := Some "A"%string; status := Correct;
            dontKnow := false; notSure := true; time := 3 |}]>
  (<[7 := {| selectedAnswer := Some "C"%string; status := Wrong;
             dontKnow := false; notSure := false; time := 4 |}]> ∅).

(** a history of two exams *)
Definition two_entries : AppState :=
  addHistoryEntry
    {| he_date := 30; he_mode := Some EXAM; he_total := 4; he_correct := 4;
       he_pct := 100; he_avgTime := 9 |}
    (addHistoryEntry sample_entry initial).

(** the answered and the correctly answered questions of a round *)
Definition is_answered (qs : gmap Z QuestionState) (q : Z) : bool :=
  match qs !! q with
  | Some st => bool_decide (status st ≠ Unanswered)
  | None => false
  end.

Definition is_correct (qs : gmap Z QuestionState) (q : Z) : bool :=
  match qs !! q with
  | Some st => bool_decide (status st = Correct)
  | None => false
  end.

(** the time recorded for an answered question, 0 for the others *)
Definition answered_time (qs : gmap Z QuestionState) (q : Z) : Z :=
  match qs !! q with
  | Some st => if bool_decide (status st ≠ Unanswered) then time st else 0
  | None => 0
  end.

(** a state differs from another in the answer orders at most *)
Definition same_but_answerOrder (s s' : AppState) : Prop :=
  exists ao, s' = with_round (set_answerOrder ao) s.

(** a state differs from another in the spaced-repetition records at
    most *)
Definition same_but_spacedRepetition (s s' : AppState) : Prop :=
  exists sr, s' = with_progress (set_spacedRepetition sr) s.

(** the record that the end of a session leaves for a question of the
    stack, given the record [d] it had: untouched when the question was not
    answered *)
Definition session_record (now : Z) (qs : gmap Z QuestionState) (q : Z)
    (d : SpacedRepData) : SpacedRepData :=
  match qs !! q with
  | Some st =>
      if bool_decide (status st ≠ Unanswered) then
        {| level := clamp (level d
                           + spec_delta (bool_decide (status st = Correct))
                               (notSure st)) 0 5;
           lastSeen := now;
           seenCount := seenCount d + 1;
           lastSeenPosition := lastSeenPosition d |}
      else d
  | None => d
  end.

(** every stored record is one of the data model *)
Definition valid_store (s : AppState) : Prop :=
  forall q d, spacedRepetition (progress s) !! q = Some d -> valid_record d.

(** a learning round over the single question 0, loaded with the
    correct letter A *)
Definition zero_question : QuestionData :=
  {| number := 0; question := "Q0"%string;
     answers := [("A", "yes"); ("B", "no")]%string;
     correct := ["A"%string] |}.

Definition zero_round : AppState :=
  (startRound BASE [0] 1000
     (setMode (Some LEARNING) (loadQuestions [zero_question] initial))).2.


(** an exam round over two loaded questions *)
Definition two_loaded : AppState :=
  (startRound BASE [1; 2] 1000
     (setMode (Some EXAM)
        (loadQuestions
           [sample_question;
            {| number := 2; question := "Q2"%string;
               answers := [("A", "no"); ("B", "yes")]%string;
               correct := ["B"%string] |}] initial))).2.

(** pressing Next once for each of the answers, each at its time *)
Fixpoint press_next (presses : list (string * Z)) (s : AppState)
  : Rand (list bool * AppState) :=
  match presses with
  | [] => ret ([], s)
  | (a, now) :: rest =>
      let* r := Main.handleNext (Some a) now s in
      let* rs := press_next rest r.2 in
      ret (r.1 :: rs.1, rs.2)
  end.


(** the index of the current question is inside the stack *)
Definition index_in_range (s : AppState) : Prop :=
  (currentIndex (round s) < length (stack (round s)))%nat.

(** the tier of a record in [shuffleWithPriority]: 0 urgent, 1 moderate,
    2 review *)
Definition tier_of (d : SpacedRepData) : nat :=
  if bool_decide (seenCount d = 0) || bool_decide (level d <= 1) then 0%nat
  else if bool_decide (level d <= 3) then 1%nat
  else 2%nat.

(** a smart round over the loaded questions 1 and 2, the first one
    answered *)
Definition smart_loaded : AppState :=
  updateQuestionState 1
    {| selectedAnswer := Some "A"%string; status := Correct;
       dontKnow := false; notSure := false; time := 4 |}
    (setMode (Some SMART) two_loaded).

(** * Properties *)

(** ** Double arithmetic (the built-ins of JavaScript) *)

(** *** Rounding to the nearest integer *)

Lemma rne_bounds (y : Q) : Qfloor y <= rne y <= Qfloor y + 1.
Proof.
  unfold rne. destruct (_ ?= _)%Q; [destruct (Z.even _)|..]; lia.
Qed.

#[global] Instance rne_comp : Proper (Qeq ==> eq) rne.
Proof.
  intros y y' Hy. unfold rne. rewrite (Qfloor_comp _ _ Hy).
  assert (H : (y - inject_Z (Qfloor y') == y' - inject_Z (Qfloor y'))%Q)
    by (rewrite Hy; reflexivity).
  by rewrite (Qcompare_comp _ _ H _ _ (Qeq_refl _)).
Qed.

Lemma rne_ge_int (y : Q) (N : Z) : (inject_Z N <= y)%Q -> N <= rne y.
Proof.
  intros H. apply Qfloor_resp_le in H. rewrite Qfloor_Z in H.
  pose proof (rne_bounds y). lia.
Qed.

Lemma rne_le_int (y : Q) (N : Z) : (y <= inject_Z N)%Q -> rne y <= N.
Proof.
  intros H. pose proof (rne_bounds y) as Hb.
  pose proof (Qfloor_resp_le _ _ H) as Hf. rewrite Qfloor_Z in Hf.
  destruct (decide (Qfloor y < N)) as [Hlt|Hge]; [lia|].
  assert (Heq : Qfloor y = N) by lia.
  unfold rne. rewrite Heq.
  pose proof (Qfloor_le y) as Hfl. rewrite Heq in Hfl.
  assert (Hc : (y - inject_Z N ?= 1 # 2)%Q = Lt).
  { rewrite <- Qlt_alt. lra. }
  rewrite Hc. lia.
Qed.

Lemma rne_mono (y y' : Q) : (y <= y')%Q -> rne y <= rne y'.
Proof.
  intros H. pose proof (rne_bounds y) as Hb. pose proof (rne_bounds y') as Hb'.
  pose proof (Qfloor_resp_le _ _ H) as Hf.
  destruct (decide (Qfloor y < Qfloor y')) as [Hlt|Hge]; [lia|].
  assert (Heq : Qfloor y' = Qfloor y) by lia.
  unfold rne. rewrite Heq.
  destruct (y - inject_Z (Qfloor y) ?= 1 # 2)%Q eqn:Hc;
    destruct (y' - inject_Z (Qfloor y) ?= 1 # 2)%Q eqn:Hc';
    try (destruct (Z.even _)); try lia;
    rewrite <- ?Qlt_alt, <- ?Qgt_alt, <- ?Qeq_alt in Hc;
    rewrite <- ?Qlt_alt, <- ?Qgt_alt, <- ?Qeq_alt in Hc';
    exfalso; lra.
Qed.

(** *** Powers of two *)

Lemma pow2_pos (e : Z) : (0 < 2 ^ e)%Q.
Proof. by apply Qpower_0_lt. Qed.

Lemma pow2_Z (k : Z) : 0 <= k -> (inject_Z (2 ^ k) == 2 ^ k)%Q.
Proof. intros Hk. by rewrite Zpower_Qpower. Qed.

Lemma pow2_add (a b : Z) : (2 ^ (a + b) == 2 ^ a * 2 ^ b)%Q.
Proof. by apply Qpower_plus. Qed.

Lemma pow2_le (a b : Z) : a <= b -> (2 ^ a <= 2 ^ b)%Q.
Proof. intros H. by apply Qpower_le_compat_l. Qed.

Lemma pow2_lt_inv (a b : Z) : (2 ^ a < 2 ^ b)%Q -> a < b.
Proof. intros H. by eapply Qpower_lt_compat_l_inv. Qed.

(** a power of two with a negative exponent is the inverse of an integer *)
Lemma pow2_inv (e : Z) :
  e <= 0 -> (2 ^ e * inject_Z (2 ^ (- e)) == 1)%Q.
Proof.
  intros He. rewrite pow2_Z by lia. rewrite <- pow2_add.
  by replace (e + - e) with 0 by lia.
Qed.

(** *** The binary logarithm *)

Lemma ilog2_spec (x : Q) :
  (0 < x)%Q -> (2 ^ ilog2 x <= x)%Q /\ (x < 2 ^ (ilog2 x + 1))%Q.
Proof.
  intros Hx. unfold ilog2. destruct (Qle_bool 1 x) eqn:H1.
  - apply Qle_bool_iff in H1.
    assert (Hf : 1 <= Qfloor x).
    { apply Qfloor_resp_le in H1. exact H1. }
    destruct (Z.log2_spec (Qfloor x)) as [Hlo Hhi]; [lia|].
    pose proof (Z.log2_nonneg (Qfloor x)) as Hk.
    rewrite <- !pow2_Z by lia. split.
    + eapply Qle_trans; [|apply Qfloor_le]. by rewrite <- Zle_Qle.
    + eapply Qlt_le_trans; [apply Qlt_floor|].
      rewrite <- Zle_Qle. rewrite <- Z.add_1_r in Hhi. lia.
  - assert (Hlt : (x < 1)%Q).
    { apply Qnot_le_lt. intros H. apply Qle_bool_iff in H. congruence. }
    assert (Hinv : (x * / x == 1)%Q) by (apply Qmult_inv_r; lra).
    assert (Hy : (1 < / x)%Q).
    { pose proof (Qinv_lt_0_compat x Hx). nra. }
    pose proof (Qle_ceiling (/ x)) as Hc.
    pose proof (Qceiling_lt (/ x)) as Hc'.
    assert (Hc2 : 1 < Qceiling (/ x)).
    { rewrite Zlt_Qlt. change (inject_Z 1) with 1%Q. lra. }
    destruct (Z.log2_up_spec (Qceiling (/ x)) Hc2) as [Hlo Hhi].
    remember (Z.log2_up (Qceiling (/ x))) as k eqn:Ek. clear Ek.
    assert (Hk : 1 <= k).
    { destruct (decide (1 <= k)) as [|Hn]; [done|].
      assert (k <= 0) by lia.
      assert (2 ^ k <= 1).
      { destruct (decide (k = 0)) as [->|]; [done|].
        rewrite Z.pow_neg_r by lia. lia. }
      lia. }
    assert (Hp : (2 ^ (- k) * inject_Z (2 ^ k) == 1)%Q).
    { pose proof (pow2_inv (- k) ltac:(lia)) as H.
      by rewrite Z.opp_involutive in H. }
    assert (Hp' : (2 ^ (- k + 1) * inject_Z (2 ^ (k - 1)) == 1)%Q).
    { pose proof (pow2_inv (- k + 1) ltac:(lia)) as H.
      by replace (- (- k + 1)) with (k - 1) in H by lia. }
    pose proof (pow2_pos (- k)) as Hq. pose proof (pow2_pos (- k + 1)) as Hq'.
    replace (Z.pred k) with (k - 1) in Hlo by lia.
    assert (Hlo' : (inject_Z (2 ^ (k - 1)) < / x)%Q).
    { eapply Qle_lt_trans; [|apply Hc'].
      rewrite <- Zle_Qle. lia. }
    assert (Hhi' : (/ x <= inject_Z (2 ^ k))%Q).
    { rewrite Zle_Qle in Hhi. lra. }
    pose proof (Qinv_lt_0_compat x Hx) as Hix.
    clear Hc Hc' Hc2 Hlo Hhi Hy Hlt H1.
    set (a := (2 ^ (- k))%Q) in *. set (b := (2 ^ (- k + 1))%Q) in *.
    set (A := inject_Z (2 ^ k)) in *. set (B := inject_Z (2 ^ (k - 1))) in *.
    set (y := (/ x)%Q) in *. clearbody a b A B y.
    split.
    + assert (H1 : (a * y <= 1)%Q) by nra.
      assert (H2 : (x * (a * y) <= x * 1)%Q) by nra.
      assert (H3 : (x * (a * y) == a)%Q).
      { transitivity (a * (x * y))%Q; [ring|]. rewrite Hinv. ring. }
      lra.
    + assert (H1 : (1 < b * y)%Q) by nra.
      assert (H2 : (x * 1 < x * (b * y))%Q) by nra.
      assert (H3 : (x * (b * y) == b)%Q).
      { transitivity (b * (x * y))%Q; [ring|]. rewrite Hinv. ring. }
      lra.
Qed.

#[global] Instance ilog2_comp : Proper (Qeq ==> eq) ilog2.
Proof.
  intros x y Hxy. unfold ilog2.
  assert (Hb : Qle_bool 1 x = Qle_bool 1 y).
  { apply eq_true_iff_eq. rewrite !Qle_bool_iff. by rewrite Hxy. }
  rewrite Hb. assert (Hi : (/ x == / y)%Q) by by rewrite Hxy.
  unfold Qceiling.
  assert (Hi' : (- / x == - / y)%Q) by by rewrite Hi.
  by rewrite (Qfloor_comp _ _ Hxy), (Qfloor_comp _ _ Hi').
Qed.

Lemma ilog2_lt (x : Q) (k : Z) : (0 < x)%Q -> (x < 2 ^ k)%Q -> ilog2 x < k.
Proof.
  intros Hx Hk. destruct (ilog2_spec x Hx) as [Hlo _].
  apply pow2_lt_inv. by eapply Qle_lt_trans.
Qed.

Lemma ilog2_ge (x : Q) (k : Z) : (2 ^ k <= x)%Q -> k <= ilog2 x.
Proof.
  intros Hk. pose proof (pow2_pos k) as Hp.
  destruct (ilog2_spec x) as [_ Hhi]; [lra|].
  assert (k < ilog2 x + 1); [|lia].
  apply pow2_lt_inv. by eapply Qle_lt_trans.
Qed.

Lemma ilog2_mono (x y : Q) : (0 < x)%Q -> (x <= y)%Q -> ilog2 x <= ilog2 y.
Proof.
  intros Hx Hxy. destruct (ilog2_spec x Hx) as [Hlo _].
  apply ilog2_ge. lra.
Qed.

(** *** Rounding to a double *)

Lemma fl_pos_eq (x : Q) :
  fl_pos x = (inject_Z (rne (x / 2 ^ ulp_exp x)) * 2 ^ ulp_exp x)%Q.
Proof. reflexivity. Qed.

#[global] Instance fl_pos_comp : Proper (Qeq ==> Qeq) fl_pos.
Proof.
  intros x y Hxy. rewrite !fl_pos_eq. unfold ulp_exp.
  rewrite (ilog2_comp _ _ Hxy).
  assert (H : (x / 2 ^ Z.max (ilog2 y - 52) (-1074)
               == y / 2 ^ Z.max (ilog2 y - 52) (-1074))%Q) by by rewrite Hxy.
  by rewrite (rne_comp _ _ H).
Qed.

Lemma fl_pos_nonneg (x : Q) : (0 < x)%Q -> (0 <= fl_pos x)%Q.
Proof.
  intros Hx. rewrite fl_pos_eq. pose proof (pow2_pos (ulp_exp x)) as Hp.
  assert (H : 0 <= rne (x / 2 ^ ulp_exp x)).
  { apply rne_ge_int. apply Qle_shift_div_l; [done|].
    change (inject_Z 0) with 0%Q. lra. }
  rewrite Zle_Qle in H. change (inject_Z 0) with 0%Q in H. nra.
Qed.

(** below [2 ^ 53] the unit in the last place is at most one *)
Lemma ulp_exp_small (x : Q) :
  (0 < x)%Q -> (x < 2 ^ 53)%Q -> ulp_exp x <= 0.
Proof.
  intros Hx Hlt. pose proof (ilog2_lt x 53 Hx Hlt). unfold ulp_exp. lia.
Qed.

(** a bound that is a multiple of the unit in the last place of [x] is
    respected by the rounding of [x] *)
Lemma fl_pos_le_grid (x b : Q) (N : Z) :
  (b == inject_Z N * 2 ^ ulp_exp x)%Q -> (x <= b)%Q -> (fl_pos x <= b)%Q.
Proof.
  intros Hb Hx. rewrite fl_pos_eq. pose proof (pow2_pos (ulp_exp x)) as Hp.
  set (p := (2 ^ ulp_exp x)%Q) in *.
  assert (Hr : rne (x / p) <= N).
  { apply rne_le_int. apply Qle_shift_div_r; [done|]. lra. }
  rewrite Zle_Qle in Hr. nra.
Qed.

Lemma fl_pos_ge_grid (x b : Q) (N : Z) :
  (b == inject_Z N * 2 ^ ulp_exp x)%Q -> (b <= x)%Q -> (b <= fl_pos x)%Q.
Proof.
  intros Hb Hx. rewrite fl_pos_eq. pose proof (pow2_pos (ulp_exp x)) as Hp.
  set (p := (2 ^ ulp_exp x)%Q) in *.
  assert (Hr : N <= rne (x / p)).
  { apply rne_ge_int. apply Qle_shift_div_l; [done|]. lra. }
  rewrite Zle_Qle in Hr. nra.
Qed.

(** an integer is such a multiple when the unit is at most one, a power of
    two when its exponent is at least that of the unit *)
Lemma int_on_grid (c e : Z) :
  e <= 0 -> (inject_Z c == inject_Z (c * 2 ^ (- e)) * 2 ^ e)%Q.
Proof.
  intros He. rewrite inject_Z_mult, <- Qmult_assoc.
  rewrite (Qmult_comm (inject_Z (2 ^ (- e)))), (pow2_inv e He). ring.
Qed.

Lemma pow2_on_grid (k e : Z) :
  e <= k -> (2 ^ k == inject_Z (2 ^ (k - e)) * 2 ^ e)%Q.
Proof.
  intros He. rewrite pow2_Z by lia. rewrite <- pow2_add.
  by replace (k - e + e) with k by lia.
Qed.

Lemma fl_pos_le_int (x : Q) (c : Z) :
  (0 < x)%Q -> (x <= inject_Z c)%Q -> c < 2 ^ 53 ->
  (fl_pos x <= inject_Z c)%Q.
Proof.
  intros Hx Hc Hb.
  assert (He : ulp_exp x <= 0).
  { apply ulp_exp_small; [done|]. rewrite <- pow2_Z by lia.
    eapply Qle_lt_trans; [done|]. by rewrite <- Zlt_Qlt. }
  by eapply fl_pos_le_grid; [apply int_on_grid|].
Qed.

Lemma fl_pos_ge_pow2 (x : Q) (k : Z) :
  ulp_exp x <= k -> (2 ^ k <= x)%Q -> (2 ^ k <= fl_pos x)%Q.
Proof. intros He Hk. by eapply fl_pos_ge_grid; [apply pow2_on_grid|]. Qed.

Lemma fl_pos_le_pow2 (x : Q) (k : Z) :
  ulp_exp x <= k -> (x <= 2 ^ k)%Q -> (fl_pos x <= 2 ^ k)%Q.
Proof. intros He Hk. by eapply fl_pos_le_grid; [apply pow2_on_grid|]. Qed.

Lemma fl_pos_ge_int (x : Q) (c : Z) :
  (0 < x)%Q -> (inject_Z c <= x)%Q -> c <= 2 ^ 53 ->
  (inject_Z c <= fl_pos x)%Q.
Proof.
  intros Hx Hc Hb.
  destruct (decide (ulp_exp x <= 0)) as [He|He].
  { by eapply fl_pos_ge_grid; [apply int_on_grid|]. }
  assert (Hi : ilog2 x = 52 + ulp_exp x) by (unfold ulp_exp in *; lia).
  destruct (ilog2_spec x Hx) as [Hlo _]. rewrite Hi in Hlo.
  assert (H53 : (2 ^ 53 <= 2 ^ (52 + ulp_exp x))%Q) by (apply pow2_le; lia).
  apply (fl_pos_ge_pow2 x (52 + ulp_exp x)) in Hlo; [|lia].
  rewrite Zle_Qle in Hb. rewrite pow2_Z in Hb by lia. lra.
Qed.

Lemma fl_pos_mono (x y : Q) :
  (0 < x)%Q -> (x <= y)%Q -> (fl_pos x <= fl_pos y)%Q.
Proof.
  intros Hx Hxy. assert (Hy : (0 < y)%Q) by lra.
  pose proof (ilog2_mono x y Hx Hxy) as Hi.
  destruct (decide (ulp_exp x = ulp_exp y)) as [He|He].
  - rewrite !fl_pos_eq, He. pose proof (pow2_pos (ulp_exp y)) as Hp.
    set (p := (2 ^ ulp_exp y)%Q) in *.
    assert (Hr : rne (x / p) <= rne (y / p)).
    { apply rne_mono. apply Qle_shift_div_l; [done|].
      assert ((x / p * p == x)%Q) by (field; lra). lra. }
    rewrite Zle_Qle in Hr. nra.
  - assert (Hlt : ulp_exp x < ulp_exp y) by (unfold ulp_exp in *; lia).
    assert (Hey : ilog2 y = 52 + ulp_exp y) by (unfold ulp_exp in *; lia).
    destruct (ilog2_spec x Hx) as [_ Hhi].
    destruct (ilog2_spec y Hy) as [Hlo _]. rewrite Hey in Hlo.
    assert (Hx' : (fl_pos x <= 2 ^ (53 + ulp_exp x))%Q).
    { apply fl_pos_le_pow2; [lia|].
      assert ((2 ^ (ilog2 x + 1) <= 2 ^ (53 + ulp_exp x))%Q)
        by (apply pow2_le; unfold ulp_exp; lia).
      lra. }
    assert (Hy' : (2 ^ (52 + ulp_exp y) <= fl_pos y)%Q)
      by (apply fl_pos_ge_pow2; [lia|done]).
    assert ((2 ^ (53 + ulp_exp x) <= 2 ^ (52 + ulp_exp y))%Q)
      by (apply pow2_le; lia).
    lra.
Qed.

#[global] Instance fl_comp : Proper (Qeq ==> Qeq) fl.
Proof.
  intros x y Hxy. unfold fl.
  rewrite (Qcompare_comp _ _ Hxy _ _ (Qeq_refl 0)).
  destruct (y ?= 0)%Q; [reflexivity|..].
  - assert (H : (- x == - y)%Q) by by rewrite Hxy.
    by rewrite (fl_pos_comp _ _ H).
  - by rewrite (fl_pos_comp _ _ Hxy).
Qed.

Lemma fl_sign (x : Q) :
  ((x == 0)%Q /\ fl x = 0%Q)
  \/ ((0 < x)%Q /\ fl x = fl_pos x)
  \/ ((x < 0)%Q /\ fl x = (- fl_pos (- x))%Q).
Proof.
  unfold fl. destruct (x ?= 0)%Q eqn:Hc.
  - left. by apply Qeq_alt in Hc.
  - right. right. by rewrite <- Qlt_alt in Hc.
  - right. left. by rewrite <- Qgt_alt in Hc.
Qed.

Lemma fl_mono (x y : Q) : (x <= y)%Q -> (fl x <= fl y)%Q.
Proof.
  intros Hxy.
  destruct (fl_sign x) as [[Hx ->]|[[Hx ->]|[Hx ->]]];
    destruct (fl_sign y) as [[Hy ->]|[[Hy ->]|[Hy ->]]];
    try lra.
  - apply fl_pos_nonneg. lra.
  - by apply fl_pos_mono.
  - pose proof (fl_pos_nonneg (- x)). lra.
  - pose proof (fl_pos_nonneg (- x)). pose proof (fl_pos_nonneg y). lra.
  - pose proof (fl_pos_mono (- y) (- x)). lra.
Qed.

Lemma fl_le_int (x : Q) (c : Z) :
  (x <= inject_Z c)%Q -> - 2 ^ 53 <= c < 2 ^ 53 -> (fl x <= inject_Z c)%Q.
Proof.
  intros Hx Hc.
  destruct (fl_sign x) as [[H0 ->]|[[H0 ->]|[H0 ->]]].
  - lra.
  - apply fl_pos_le_int; [done..|lia].
  - pose proof (fl_pos_ge_int (- x) (- c)) as H.
    rewrite inject_Z_opp in H. lapply H; [|lra]. intros H'.
    lapply H'; [|lra]. intros H''. lapply H''; [|lia]. lra.
Qed.

Lemma fl_ge_int (x : Q) (c : Z) :
  (inject_Z c <= x)%Q -> - 2 ^ 53 < c <= 2 ^ 53 -> (inject_Z c <= fl x)%Q.
Proof.
  intros Hx Hc.
  destruct (fl_sign x) as [[H0 ->]|[[H0 ->]|[H0 ->]]].
  - lra.
  - apply fl_pos_ge_int; [done..|lia].
  - pose proof (fl_pos_le_int (- x) (- c)) as H.
    rewrite inject_Z_opp in H. lapply H; [|lra]. intros H'.
    lapply H'; [|lra]. intros H''. lapply H''; [|lia]. lra.
Qed.

Lemma fl_int (c : Z) :
  - 2 ^ 53 < c < 2 ^ 53 -> (fl (inject_Z c) == inject_Z c)%Q.
Proof.
  intros Hc. apply Qle_antisym.
  - apply fl_le_int; [lra|lia].
  - apply fl_ge_int; [lra|lia].
Qed.

(** *** [Math.round] and percentages *)

Lemma Math_round_le_int (x : Q) (N : Z) :
  (x <= inject_Z N)%Q -> Math_round x <= N.
Proof.
  intros H. unfold Math_round.
  assert (Hlt : (x + (1 # 2) < inject_Z (N + 1))%Q).
  { rewrite inject_Z_plus. change (inject_Z 1) with 1%Q. lra. }
  pose proof (Qfloor_le (x + (1 # 2))) as Hf.
  assert (Qfloor (x + (1 # 2)) < N + 1); [|lia].
  rewrite Zlt_Qlt. lra.
Qed.

Lemma Math_round_ge_int (x : Q) (N : Z) :
  (inject_Z N <= x)%Q -> N <= Math_round x.
Proof.
  intros H. unfold Math_round.
  assert (Hle : (inject_Z N <= x + (1 # 2))%Q) by lra.
  apply Qfloor_resp_le in Hle. by rewrite Qfloor_Z in Hle.
Qed.

Lemma Math_round_lt_half (x : Q) (N : Z) :
  (x < inject_Z N - (1 # 2))%Q -> Math_round x < N.
Proof.
  intros H. unfold Math_round.
  pose proof (Qfloor_le (x + (1 # 2))) as Hf.
  rewrite Zlt_Qlt. lra.
Qed.

Lemma Math_round_ge_half (x : Q) (N : Z) :
  (inject_Z N - (1 # 2) <= x)%Q -> N <= Math_round x.
Proof.
  intros H. unfold Math_round.
  assert (Hle : (inject_Z N <= x + (1 # 2))%Q) by lra.
  apply Qfloor_resp_le in Hle. by rewrite Qfloor_Z in Hle.
Qed.

Lemma quotient_bounds (p t : Z) :
  0 < t -> 0 <= p <= t ->
  (0 <= inject_Z p / inject_Z t <= 1)%Q.
Proof.
  intros Ht [H0 H1]. rewrite Zlt_Qlt in Ht. rewrite Zle_Qle in H0, H1.
  change (inject_Z 0) with 0%Q in *. split.
  - apply Qle_shift_div_l; [done|]. lra.
  - apply Qle_shift_div_r; [done|]. lra.
Qed.

Lemma percent_bounds (x : Q) :
  (0 <= x <= 1)%Q -> 0 <= Math_round (fl (fl x * 100)) <= 100.
Proof.
  intros [H0 H1].
  assert (Hf0 : (0 <= fl x)%Q) by (apply (fl_ge_int x 0); [done|lia]).
  assert (Hf1 : (fl x <= 1)%Q) by (apply (fl_le_int x 1); [done|lia]).
  split.
  - apply Math_round_ge_int, (fl_ge_int _ 0); [|lia].
    change (inject_Z 0) with 0%Q. lra.
  - apply Math_round_le_int, (fl_le_int _ 100); [|lia].
    change (inject_Z 100) with 100%Q. lra.
Qed.

Lemma percent_mono (x y : Q) :
  (x <= y)%Q ->
  Math_round (fl (fl x * 100)) <= Math_round (fl (fl y * 100)).
Proof.
  intros Hxy. unfold Math_round. apply Qfloor_resp_le.
  pose proof (fl_mono x y Hxy) as H1.
  pose proof (fl_mono (fl x * 100) (fl y * 100)) as H2. lra.
Qed.

Lemma percent_threshold (c t : Z) :
  0 < t < 2 ^ 32 ->
  72 <= Math_round (fl (fl (inject_Z c / inject_Z t) * 100))
  <-> 143 * t <= 200 * c.
Proof.
  intros [Ht Hb]. pose proof Ht as Ht'. rewrite Zlt_Qlt in Ht'.
  change (inject_Z 0) with 0%Q in Ht'. split.
  - intros H. destruct (decide (143 * t <= 200 * c)) as [|Hn]; [done|].
    exfalso.
    assert (Hc : 200 * c + 1 <= 143 * t) by lia.
    assert (Hx : (inject_Z c / inject_Z t
                  <= (143 # 200) - 1 / inject_Z (200 * 2 ^ 32))%Q).
    { apply Qle_shift_div_r; [done|].
      rewrite Zle_Qle in Hc. rewrite Zlt_Qlt in Hb.
      rewrite inject_Z_plus, !inject_Z_mult in Hc.
      change (inject_Z 200) with 200%Q in Hc.
      change (inject_Z 143) with 143%Q in Hc.
      change (inject_Z 1) with 1%Q in Hc.
      change (inject_Z (2 ^ 32)) with 4294967296%Q in Hb.
      change (1 / inject_Z (200 * 2 ^ 32))%Q with (1 # 858993459200)%Q.
      lra. }
    apply percent_mono in Hx.
    assert (Hv : Math_round
                   (fl (fl ((143 # 200) - 1 / inject_Z (200 * 2 ^ 32)) * 100))
                 = 71) by (vm_compute; reflexivity).
    lia.
  - intros H.
    assert (Hx : ((143 # 200) <= inject_Z c / inject_Z t)%Q).
    { apply Qle_shift_div_l; [done|].
      rewrite Zle_Qle, !inject_Z_mult in H.
      change (inject_Z 200) with 200%Q in H.
      change (inject_Z 143) with 143%Q in H. lra. }
    apply percent_mono in Hx.
    assert (Hv : Math_round (fl (fl (143 # 200) * 100)) = 72)
      by (vm_compute; reflexivity).
    lia.
Qed.

Lemma calcPercent_range (part total : Z) :
  0 <= part <= total -> 0 <= calcPercent part total <= 100.
Proof.
  intros Hp. unfold calcPercent. destruct (decide (total = 0)); [lia|].
  apply percent_bounds, quotient_bounds; lia.
Qed.

(** ** A single quotient of integers *)

(** a half of an integer is a multiple of a unit in the last place that
    is at most a half *)
Lemma half_on_grid (m e : Z) :
  e <= -1 -> ((inject_Z m / 2) == inject_Z (m * 2 ^ (- 1 - e)) * 2 ^ e)%Q.
Proof.
  intros He. rewrite inject_Z_mult, <- Qmult_assoc.
  rewrite pow2_Z by lia. rewrite <- pow2_add.
  replace (- 1 - e + e) with (-1) by lia. reflexivity.
Qed.

(** the last place of the quotient of an integer of at most 52 bits by an
    integer of at most 53 bits is at most a half, and at most the least
    distance of the quotient to a half of an integer *)
Lemma quotient_ulp (p q : Z) :
  0 < p <= 2 ^ 51 -> 0 < q < 2 ^ 53 ->
  ulp_exp (inject_Z p / inject_Z q) <= -1
  /\ (2 ^ ulp_exp (inject_Z p / inject_Z q) * (2 * inject_Z q) <= 1)%Q.
Proof.
  intros [Hp0 Hp] [Hq0 Hq].
  set (x := (inject_Z p / inject_Z q)%Q).
  assert (HQ : (0 < inject_Z q)%Q) by (by rewrite <- (Zlt_Qlt 0)).
  assert (HP : (0 < inject_Z p)%Q) by (by rewrite <- (Zlt_Qlt 0)).
  assert (Hx : (0 < x)%Q) by (apply Qlt_shift_div_l; [done|lra]).
  assert (Hxq : (x * inject_Z q == inject_Z p)%Q) by (unfold x; field; lra).
  rewrite Zle_Qle in Hp. rewrite Zlt_Qlt in Hq.
  rewrite pow2_Z in Hp, Hq by lia.
  destruct (ilog2_spec x Hx) as [Hlo Hhi].
  assert (Hi : ilog2 x < 51 + 1).
  { apply ilog2_lt; [done|].
    assert (H52 : (2 ^ (51 + 1) == 2 * 2 ^ 51)%Q) by (vm_compute; reflexivity).
    assert (1 <= q) by lia. rewrite Zle_Qle in H.
    change (inject_Z 1) with 1%Q in H. nra. }
  split; [unfold ulp_exp; lia|].
  unfold ulp_exp. destruct (Z.max_spec (ilog2 x - 52) (-1074)) as [[_ ->]|[_ ->]].
  - assert (H53 : (2 ^ (-1074) * (2 * 2 ^ 53) <= 1)%Q)
      by (vm_compute; discriminate).
    pose proof (pow2_pos (-1074)). nra.
  - assert (He : (2 ^ (ilog2 x - 52) * 2 ^ 52 == 2 ^ ilog2 x)%Q).
    { rewrite <- pow2_add. by replace (ilog2 x - 52 + 52) with (ilog2 x) by lia. }
    assert (H52 : (2 ^ 52 == 2 * 2 ^ 51)%Q) by (vm_compute; reflexivity).
    pose proof (pow2_pos (ilog2 x - 52)) as Hpe.
    pose proof (pow2_pos 51) as Hp51.
    set (u := (2 ^ (ilog2 x - 52))%Q) in *.
    set (t := (2 ^ 51)%Q) in *. set (w := (2 ^ 52)%Q) in *.
    set (v := (2 ^ ilog2 x)%Q) in *. clearbody u t w v.
    (* u * w = v <= x, x * q = p <= t, w = 2 t *)
    assert (H1 : (u * w * inject_Z q <= x * inject_Z q)%Q) by nra.
    assert (H2 : (u * (2 * t) * inject_Z q <= t)%Q).
    { rewrite <- H52. lra. }
    assert (H3 : (t * (u * (2 * inject_Z q)) <= t * 1)%Q) by lra.
    nra.
Qed.

Section Quotient.

Context (p q : Z) (Hp : 0 < p <= 2 ^ 51) (Hq : 0 < q < 2 ^ 53).

Let y : Q := (inject_Z p / inject_Z q)%Q.

Lemma quotient_pos_le_half (m : Z) :
  (y <= inject_Z m / 2)%Q -> (fl_pos y <= inject_Z m / 2)%Q.
Proof.
  intros H. destruct (quotient_ulp p q Hp Hq) as [He _].
  by eapply fl_pos_le_grid; [apply half_on_grid|].
Qed.

Lemma quotient_pos_ge_half (m : Z) :
  (inject_Z m / 2 <= y)%Q -> (inject_Z m / 2 <= fl_pos y)%Q.
Proof.
  intros H. destruct (quotient_ulp p q Hp Hq) as [He _].
  by eapply fl_pos_ge_grid; [apply half_on_grid|].
Qed.

(** the distance of the quotient to a half of an integer that it is not *)
Lemma quotient_gap (m : Z) :
  ((y < inject_Z m / 2)%Q ->
   (y + 2 ^ ulp_exp y <= inject_Z m / 2)%Q)
  /\ ((inject_Z m / 2 < y)%Q ->
      (inject_Z m / 2 + 2 ^ ulp_exp y <= y)%Q).
Proof.
  destruct (quotient_ulp p q Hp Hq) as [_ Hu]. fold y in Hu.
  assert (HQ : (0 < inject_Z q)%Q) by (rewrite <- (Zlt_Qlt 0); lia).
  assert (Hyq : (y * inject_Z q == inject_Z p)%Q) by (unfold y; field; lra).
  pose proof (pow2_pos (ulp_exp y)) as Hpe.
  set (u := (2 ^ ulp_exp y)%Q) in *. clearbody u.
  assert (Hc : (inject_Z m == 2 * (inject_Z m / 2))%Q) by field.
  set (c := (inject_Z m / 2)%Q) in *. clearbody c.
  split; intros H.
  - assert (Hz : 2 * p + 1 <= m * q).
    { assert (2 * p < m * q); [|lia].
      rewrite Zlt_Qlt, !inject_Z_mult. change (inject_Z 2) with 2%Q.
      rewrite Hc, <- Hyq.
      assert (0 < (c - y) * inject_Z q)%Q by (apply Qmult_lt_0_compat; lra).
      lra. }
    rewrite Zle_Qle, inject_Z_plus, !inject_Z_mult in Hz.
    change (inject_Z 2) with 2%Q in Hz. change (inject_Z 1) with 1%Q in Hz.
    rewrite Hc, <- Hyq in Hz.
    assert (H1 : (u * (2 * inject_Z q) <= 2 * (c - y) * inject_Z q)%Q)
      by lra.
    assert (H2 : (0 <= (c - y - u) * inject_Z q)%Q) by lra.
    assert (H3 : (0 <= c - y - u)%Q).
    { destruct (Qlt_le_dec (c - y - u) 0) as [Hn|]; [|done].
      assert (((c - y - u) * inject_Z q < 0)%Q); [|lra].
      assert (0 < (- (c - y - u)) * inject_Z q)%Q
        by (apply Qmult_lt_0_compat; lra).
      lra. }
    lra.
  - assert (Hz : m * q + 1 <= 2 * p).
    { assert (m * q < 2 * p); [|lia].
      rewrite Zlt_Qlt, !inject_Z_mult. change (inject_Z 2) with 2%Q.
      rewrite Hc, <- Hyq.
      assert (0 < (y - c) * inject_Z q)%Q by (apply Qmult_lt_0_compat; lra).
      lra. }
    rewrite Zle_Qle, inject_Z_plus, !inject_Z_mult in Hz.
    change (inject_Z 2) with 2%Q in Hz. change (inject_Z 1) with 1%Q in Hz.
    rewrite Hc, <- Hyq in Hz.
    assert (H2 : (0 <= (y - c - u) * inject_Z q)%Q) by lra.
    assert (H3 : (0 <= y - c - u)%Q).
    { destruct (Qlt_le_dec (y - c - u) 0) as [Hn|]; [|done].
      assert (((y - c - u) * inject_Z q < 0)%Q); [|lra].
      assert (0 < (- (y - c - u)) * inject_Z q)%Q
        by (apply Qmult_lt_0_compat; lra).
      lra. }
    lra.
Qed.

Lemma quotient_pos_lt_half (m : Z) :
  (y < inject_Z m / 2)%Q -> (fl_pos y < inject_Z m / 2)%Q.
Proof.
  intros H. destruct (quotient_ulp p q Hp Hq) as [He _]. fold y in He.
  apply (proj1 (quotient_gap m)) in H.
  pose proof (pow2_pos (ulp_exp y)) as Hpe.
  assert (Hg : (fl_pos y <= inject_Z m / 2 - 2 ^ ulp_exp y)%Q).
  { apply (fl_pos_le_grid _ _ (m * 2 ^ (- 1 - ulp_exp y) - 1)); [|lra].
    rewrite (half_on_grid m (ulp_exp y) He).
    replace (m * 2 ^ (- 1 - ulp_exp y) - 1)
      with (m * 2 ^ (- 1 - ulp_exp y) + -1) by lia.
    rewrite inject_Z_plus. change (inject_Z (-1)) with (-1)%Q. ring. }
  lra.
Qed.

Lemma quotient_pos_gt_half (m : Z) :
  (inject_Z m / 2 < y)%Q -> (inject_Z m / 2 < fl_pos y)%Q.
Proof.
  intros H. destruct (quotient_ulp p q Hp Hq) as [He _]. fold y in He.
  apply (proj2 (quotient_gap m)) in H.
  pose proof (pow2_pos (ulp_exp y)) as Hpe.
  assert (Hg : (inject_Z m / 2 + 2 ^ ulp_exp y <= fl_pos y)%Q).
  { apply (fl_pos_ge_grid _ _ (m * 2 ^ (- 1 - ulp_exp y) + 1)); [|lra].
    rewrite (half_on_grid m (ulp_exp y) He).
    rewrite inject_Z_plus. change (inject_Z 1) with 1%Q. ring. }
  lra.
Qed.

End Quotient.

(** the double nearest to the quotient of two such integers is on the same
    side of every half of an integer as the quotient itself *)
Lemma fl_quotient_half (p q m : Z) :
  - 2 ^ 51 <= p <= 2 ^ 51 -> 0 < q < 2 ^ 53 ->
  ((inject_Z m / 2 <= inject_Z p / inject_Z q)%Q ->
   (inject_Z m / 2 <= fl (inject_Z p / inject_Z q))%Q)
  /\ ((inject_Z p / inject_Z q < inject_Z m / 2)%Q ->
      (fl (inject_Z p / inject_Z q) < inject_Z m / 2)%Q).
Proof.
  intros Hp Hq.
  assert (HQ : (0 < inject_Z q)%Q) by (rewrite <- (Zlt_Qlt 0); lia).
  set (x := (inject_Z p / inject_Z q)%Q).
  assert (Hxq : (x * inject_Z q == inject_Z p)%Q) by (unfold x; field; lra).
  destruct (Z.lt_trichotomy p 0) as [Hneg|[->|Hpos]].
  - assert (HP : (inject_Z p < 0)%Q) by (by rewrite <- (Zlt_Qlt _ 0)).
    assert (Hx : (x < 0)%Q).
    { destruct (Qlt_le_dec x 0) as [|Hge]; [done|].
      assert (0 <= x * inject_Z q)%Q by (apply Qmult_le_0_compat; lra).
      lra. }
    destruct (fl_sign x) as [[H0 _]|[[H0 _]|[_ ->]]]; [lra..|].
    assert (Hy : (- x == inject_Z (- p) / inject_Z q)%Q).
    { rewrite inject_Z_opp. unfold x. field. lra. }
    pose proof (fl_pos_comp _ _ Hy) as Hfy.
    assert (Hm : (inject_Z (- m) / 2 == - (inject_Z m / 2))%Q).
    { rewrite inject_Z_opp. field. }
    split; intros H.
    + pose proof (quotient_pos_le_half (- p) q ltac:(lia) Hq (- m)) as Hle.
      lapply Hle; [intros Hle'|]; lra.
    + pose proof (quotient_pos_gt_half (- p) q ltac:(lia) Hq (- m)) as Hgt.
      lapply Hgt; [intros Hgt'|]; lra.
  - assert (Hx : (x == 0)%Q) by (unfold x; unfold Qdiv; ring).
    rewrite (fl_comp _ _ Hx). change (fl 0) with 0%Q. split; lra.
  - assert (HP : (0 < inject_Z p)%Q) by (by rewrite <- (Zlt_Qlt 0)).
    assert (Hx : (0 < x)%Q) by (apply Qlt_shift_div_l; [done|lra]).
    destruct (fl_sign x) as [[H0 _]|[[_ ->]|[H0 _]]]; [lra| |lra].
    split; intros H.
    + by apply (quotient_pos_ge_half p q ltac:(lia) Hq m).
    + by apply (quotient_pos_lt_half p q ltac:(lia) Hq m).
Qed.

(** so [Math.round] and [Math.floor] of the double quotient are those of
    the exact quotient *)
Lemma round_div_double (p q : Z) :
  - 2 ^ 51 <= p <= 2 ^ 51 -> 0 < q < 2 ^ 53 ->
  Math_round (fl (inject_Z p / inject_Z q)) = round_div p q.
Proof.
  intros Hp Hq. unfold round_div.
  pose proof (Z.mul_div_le (2 * p + q) (2 * q) ltac:(lia)) as Hlo.
  pose proof (Z.mul_succ_div_gt (2 * p + q) (2 * q) ltac:(lia)) as Hhi.
  set (N := (2 * p + q) `div` (2 * q)) in *.
  assert (HQ : (0 < inject_Z q)%Q) by (rewrite <- (Zlt_Qlt 0); lia).
  assert (Hxq : (inject_Z p / inject_Z q * inject_Z q == inject_Z p)%Q)
    by (field; lra).
  assert (H1 : (inject_Z (2 * N - 1) / 2 <= inject_Z p / inject_Z q)%Q).
  { apply Qle_shift_div_l; [done|].
    assert (Hz : (2 * N - 1) * q <= 2 * p) by lia.
    rewrite Zle_Qle, !inject_Z_mult in Hz.
    change (inject_Z 2) with 2%Q in Hz.
    assert (Hd : (inject_Z (2 * N - 1) / 2 * inject_Z q * 2
                  == inject_Z (2 * N - 1) * inject_Z q)%Q) by field.
    lra. }
  assert (H2 : (inject_Z p / inject_Z q < inject_Z (2 * N + 1) / 2)%Q).
  { apply Qlt_shift_div_r; [done|].
    assert (Hz : 2 * p < (2 * N + 1) * q) by lia.
    rewrite Zlt_Qlt, !inject_Z_mult in Hz.
    change (inject_Z 2) with 2%Q in Hz.
    assert (Hd : (inject_Z (2 * N + 1) / 2 * inject_Z q * 2
                  == inject_Z (2 * N + 1) * inject_Z q)%Q) by field.
    lra. }
  apply (proj1 (fl_quotient_half p q (2 * N - 1) Hp Hq)) in H1.
  apply (proj2 (fl_quotient_half p q (2 * N + 1) Hp Hq)) in H2.
  assert (Ha : (inject_Z (2 * N - 1) / 2 == inject_Z N - (1 # 2))%Q).
  { replace (2 * N - 1) with (2 * N + -1) by lia.
    rewrite inject_Z_plus, inject_Z_mult. field. }
  assert (Hb : (inject_Z (2 * N + 1) / 2 == inject_Z (N + 1) - (1 # 2))%Q).
  { rewrite !inject_Z_plus, inject_Z_mult. field. }
  rewrite Ha in H1. rewrite Hb in H2.
  pose proof (Math_round_ge_half _ _ H1).
  pose proof (Math_round_lt_half _ _ H2). lia.
Qed.

Lemma floor_div_double (p q : Z) :
  - 2 ^ 51 <= p <= 2 ^ 51 -> 0 < q < 2 ^ 53 ->
  Qfloor (fl (inject_Z p / inject_Z q)) = p `div` q.
Proof.
  intros Hp Hq.
  pose proof (Z.mul_div_le p q ltac:(lia)) as Hlo.
  pose proof (Z.mul_succ_div_gt p q ltac:(lia)) as Hhi.
  set (N := p `div` q) in *.
  assert (HQ : (0 < inject_Z q)%Q) by (rewrite <- (Zlt_Qlt 0); lia).
  assert (H1 : (inject_Z (2 * N) / 2 <= inject_Z p / inject_Z q)%Q).
  { apply Qle_shift_div_l; [done|].
    assert (Hz : N * q <= p) by lia.
    rewrite Zle_Qle, !inject_Z_mult in Hz.
    assert (Hd : (inject_Z (2 * N) / 2 * inject_Z q
                  == inject_Z N * inject_Z q)%Q)
      by (rewrite inject_Z_mult; field).
    lra. }
  assert (H2 : (inject_Z p / inject_Z q < inject_Z (2 * (N + 1)) / 2)%Q).
  { apply Qlt_shift_div_r; [done|].
    assert (Hz : p < (N + 1) * q) by lia.
    rewrite Zlt_Qlt, !inject_Z_mult in Hz.
    assert (Hd : (inject_Z (2 * (N + 1)) / 2 * inject_Z q
                  == inject_Z (N + 1) * inject_Z q)%Q)
      by (rewrite inject_Z_mult; field).
    lra. }
  apply (proj1 (fl_quotient_half p q (2 * N) Hp Hq)) in H1.
  apply (proj2 (fl_quotient_half p q (2 * (N + 1)) Hp Hq)) in H2.
  assert (Ha : (inject_Z (2 * N) / 2 == inject_Z N)%Q)
    by (rewrite inject_Z_mult; field).
  assert (Hb : (inject_Z (2 * (N + 1)) / 2 == inject_Z (N + 1))%Q)
    by (rewrite inject_Z_mult; field).
  rewrite Ha in H1. rewrite Hb in H2.
  apply Qfloor_resp_le in H1. rewrite Qfloor_Z in H1.
  pose proof (Qfloor_le (fl (inject_Z p / inject_Z q))) as Hf.
  assert (Qfloor (fl (inject_Z p / inject_Z q)) < N + 1); [|lia].
  rewrite Zlt_Qlt. lra.
Qed.

(** rounding commutes with the change of sign *)
Lemma fl_opp (x : Q) : (fl (- x) == - fl x)%Q.
Proof.
  destruct (fl_sign x) as [[Hx ->]|[[Hx ->]|[Hx ->]]];
    destruct (fl_sign (- x)) as [[Hy ->]|[[Hy ->]|[Hy ->]]];
    try lra.
  - assert (Hxx : (- - x == x)%Q) by ring.
    rewrite (fl_pos_comp _ _ Hxx). reflexivity.
Qed.

(** [Math.ceil] of the double quotient is that of the exact quotient *)
Lemma ceil_div_double (p q : Z) :
  - 2 ^ 51 <= p <= 2 ^ 51 -> 0 < q < 2 ^ 53 ->
  Qceiling (fl (inject_Z p / inject_Z q)) = (p + q - 1) `div` q.
Proof.
  intros Hp Hq. unfold Qceiling.
  assert (HQ : (0 < inject_Z q)%Q) by (rewrite <- (Zlt_Qlt 0); lia).
  assert (Hx : (- (inject_Z p / inject_Z q)
                == inject_Z (- p) / inject_Z q)%Q).
  { rewrite inject_Z_opp. field. lra. }
  rewrite <- (Qfloor_comp _ _ (fl_opp _)), (Qfloor_comp _ _ (fl_comp _ _ Hx)).
  rewrite (floor_div_double (- p) q) by lia.
  pose proof (Z.mul_div_le (- p) q ltac:(lia)).
  pose proof (Z.mul_succ_div_gt (- p) q ltac:(lia)).
  pose proof (Z.mul_div_le (p + q - 1) q ltac:(lia)).
  pose proof (Z.mul_succ_div_gt (p + q - 1) q ltac:(lia)).
  nia.
Qed.

(** ** Reading the state after an assignment *)

Lemma getSpacedRepData_update q q' u s :
  getSpacedRepData (updateSpacedRepData q u s) q'
  = if decide (q = q') then spread (getSpacedRepData s q) u
    else getSpacedRepData s q'.
Proof.
  unfold getSpacedRepData, updateSpacedRepData; simpl.
  rewrite lookup_insert. destruct (decide (q = q')); reflexivity.
Qed.

(** ** The level update (smart.js) *)

(** C2: for a record whose level is in [0,5], one answer moves the level
    to [clamp (level + delta) 0 5], where [delta] is +2 for a correct and
    confident answer, +1 for a correct answer marked not sure and -2 for
    an incorrect answer whatever its flags; the new level is in [0,5], and
    a correct and confident answer at level 5 leaves the level at 5. *)
Theorem updateSpacedRepLevel_level (s : AppState) (q : Z)
    (is_correct not_sure : bool) (now : Z) :
  0 <= level (getSpacedRepData s q) <= 5 ->
  let l := level (getSpacedRepData s q) in
  let l' := level (getSpacedRepData
                     (updateSpacedRepLevel q is_correct not_sure now s) q) in
  l' = clamp (l + spec_delta is_correct not_sure) 0 5
  /\ (is_correct = false -> l' = clamp (l - 2) 0 5)
  /\ 0 <= l' <= 5
  /\ (l = 5 -> is_correct = true -> not_sure = false -> l' = 5).
Proof.
  intros Hl l l'. subst l l'.
  unfold updateSpacedRepLevel.
  rewrite getSpacedRepData_update, decide_True by reflexivity.
  cbn [spread level u_level default from_option]. unfold Datatypes.id.
  unfold clamp, spec_delta, CORRECT_NOT_SURE, CORRECT_SURE, WRONG, MAX_LEVEL.
  destruct is_correct, not_sure; repeat split; intros; try discriminate; lia.
Qed.

Lemma updateSpacedRepLevel_level_witness :
  level (getSpacedRepData
           (updateSpacedRepLevel 7 true false 1000 initial) 7) = 2.
Proof.
  refine (proj1 (updateSpacedRepLevel_level initial 7 true false 1000 _)).
  vm_compute. split; discriminate.
Defined.

(** ** Starting a round (quiz.js) *)

(** C6: [startRound] on an empty sequence returns [false] and leaves the
    state as it was; on a sequence [q :: rest] it returns [true], sets the
    round type, puts the index back to 0, empties the draft states and the
    answer orders, restarts the clock of the question, and the current
    question is [q]. *)
Theorem startRound_spec (type : RoundType) (now : Z) (s : AppState) :
  startRound type [] now s = (false, s)
  /\ forall (q : Z) (rest : list Z),
       let r := startRound type (q :: rest) now s in
       r.1 = true
       /\ currentRoundType (round r.2) = type
       /\ stack (round r.2) = q :: rest
       /\ currentIndex (round r.2) = 0%nat
       /\ questionState (round r.2) = ∅
       /\ answerOrder (round r.2) = ∅
       /\ questionStartTime (timing r.2) = Some now
       /\ getCurrentQuestionId r.2 = Some q
       /\ progress r.2 = progress s
       /\ baseState (round r.2) = baseState (round s)
       /\ baseStack (round r.2) = baseStack (round s).
Proof.
  split; [reflexivity|].
  intros q rest r. subst r. cbn. repeat split.
Qed.

(** ** The detailed exam history (state.js) *)

Lemma slice_last_length {A} (n : nat) (l : list A) :
  length (slice_last n l) = Nat.min n (length l).
Proof. unfold slice_last. rewrite length_drop. lia. Qed.

(** C9: after [addExamHistory] the history holds at most 50 records; a
    history of fewer than 50 records gets the new one at its end; a history
    of 50 records becomes the 49 newest of them, in their order, followed
    by the new record. *)
Theorem addExamHistory_bounded (now : Z) (r : ExamResult) (s : AppState) :
  let h := examHistory (progress s) in
  let h' := examHistory (progress (addExamHistory now r s)) in
  let new := {| id := exam_ now; examResult := r |} in
  (length h' <= 50)%nat
  /\ ((length h < 50)%nat -> h' = h ++ [new])
  /\ (length h = 50%nat ->
      length h' = 50%nat
      /\ exists oldest rest, h = oldest :: rest /\ h' = rest ++ [new]).
Proof.
  intros h h' new. subst h'. unfold addExamHistory.
  fold h. fold new.
  destruct (decide (50 < length (h ++ [new]))%nat) as [Hlong|Hshort];
    cbn [progress with_progress examHistory set_examHistory].
  - rewrite length_app in Hlong. cbn in Hlong.
    split; [rewrite slice_last_length; lia|].
    split; [lia|].
    intros H50. split; [rewrite slice_last_length, length_app; cbn [length]; lia|].
    destruct h as [|oldest rest]; [discriminate|].
    exists oldest, rest. split; [reflexivity|].
    unfold slice_last. rewrite length_app. cbn [length] in *.
    replace (S (length rest) + 1 - 50)%nat with 1%nat by lia.
    reflexivity.
  - rewrite length_app in Hshort. cbn [length] in Hshort.
    split; [rewrite length_app; cbn [length]; lia|]. split; [reflexivity|]. lia.
Qed.

Lemma addExamHistory_bounded_witness :
  length (examHistory (progress (addExamHistory 2 sample_result full_history)))
  = 50%nat.
Proof.
  refine (proj1 (proj2 (proj2
            (addExamHistory_bounded 2 sample_result full_history)) _)).
  reflexivity.
Defined.

(** ** Drafts and checks (quiz.js) *)

Lemma truthy_str_Some (a : string) :
  a ≠ EmptyString -> truthy_str (Some a) = true.
Proof. intros H. unfold truthy_str. apply bool_decide_eq_true_2, H. Qed.

Lemma truthy_Some (z : Z) : z ≠ 0 -> truthy (Some z) = true.
Proof. intros H. unfold truthy. apply bool_decide_eq_true_2, H. Qed.

Lemma getQuestionState_update q q' u s :
  getQuestionState (updateQuestionState q u s) q'
  = if decide (q = q') then Some u else getQuestionState s q'.
Proof.
  unfold getQuestionState, updateQuestionState; simpl.
  rewrite lookup_insert. destruct (decide (q = q')); reflexivity.
Qed.

Lemma getQuestionState_incrementWrongCount q q' s :
  getQuestionState (incrementWrongCount q s) q' = getQuestionState s q'.
Proof. reflexivity. Qed.

(** the time elapsed on a question whose clock was started at a time
    other than 0 is the whole number of seconds nearest to the time that
    passed since, a half rounded up *)
Lemma getQuestionElapsed_nearest (now t0 : Z) (s : AppState) :
  getQuestionStartTime s = Some t0 -> t0 ≠ 0 ->
  -500 <= now - t0 - 1000 * getQuestionElapsed now s < 500.
Proof.
  intros Hs Ht. unfold getQuestionElapsed. rewrite Hs, (truthy_Some t0 Ht).
  unfold round_div. change (2 * 1000) with 2000.
  pose proof (Z.mul_div_le (2 * (now - t0) + 1000) 2000 ltac:(lia)).
  pose proof (Z.mul_succ_div_gt (2 * (now - t0) + 1000) 2000 ltac:(lia)).
  lia.
Qed.

Lemma getQuestionElapsed_unset (now : Z) (s : AppState) :
  getQuestionStartTime s = None \/ getQuestionStartTime s = Some 0 ->
  getQuestionElapsed now s = 0.
Proof. intros [H|H]; unfold getQuestionElapsed; by rewrite H. Qed.

(** C7, as the code has it: [checkCurrentQuestion] returns [false] and
    changes nothing when no answer is selected, and also when there is no
    current question to check: none at the index, one that is not loaded,
    or one whose id is 0, which the code takes for none.  With the answer
    [a] selected on a loaded current question [q] whose id is not 0 it
    returns [true]; the stored status is [Correct] exactly when [a] is one
    of the correct letters of [q] and [Wrong] otherwise; the stored time
    is the whole number of seconds nearest to the time since the clock of
    the question was started (0 when it was not started, or at the time
    0); the wrong count of the question grows by one exactly when the
    answer is incorrect, and no other wrong count changes. *)
Theorem checkCurrentQuestion_spec (selected : option string) (now : Z)
    (s : AppState) :
  (truthy_str selected = false ->
   checkCurrentQuestion selected now s = (false, s))
  /\ (getCurrentQuestion s = None ->
      checkCurrentQuestion selected now s = (false, s))
  /\ (getCurrentQuestionId s = Some 0 -> getCurrentQuestion s = None)
  /\ forall (a : string) (qid : Z) (q : QuestionData),
       selected = Some a -> a ≠ EmptyString ->
       getCurrentQuestionId s = Some qid -> qid ≠ 0 ->
       getQuestion s qid = Some q ->
       let r := checkCurrentQuestion selected now s in
       r.1 = true
       /\ (exists st, getQuestionState r.2 qid = Some st
             /\ selectedAnswer st = Some a
             /\ (status st = Correct <-> a ∈ correct q)
             /\ (status st = Wrong <-> a ∉ correct q)
             /\ (forall t0,
                   getQuestionStartTime s = Some t0 -> t0 ≠ 0 ->
                   -500 <= now - t0 - 1000 * time st < 500)
             /\ (getQuestionStartTime s = None
                 \/ getQuestionStartTime s = Some 0 -> time st = 0)
             /\ dontKnow st = dontKnow_of (getQuestionState s qid)
             /\ notSure st = notSure_of (getQuestionState s qid))
       /\ (a ∈ correct q ->
           wrongCounts (progress r.2) = wrongCounts (progress s))
       /\ (a ∉ correct q ->
           wrongCounts (progress r.2) !! qid
           = Some (default 0 (wrongCounts (progress s) !! qid) + 1)
           /\ forall q', q' ≠ qid ->
                wrongCounts (progress r.2) !! q'
                = wrongCounts (progress s) !! q').
Proof.
  split_and!.
  - intros Hsel. unfold checkCurrentQuestion. rewrite Hsel. reflexivity.
  - intros Hnone. unfold checkCurrentQuestion. rewrite Hnone.
    destruct (negb (truthy_str selected)); [done|].
    by destruct (getCurrentQuestionId s).
  - intros Hid. unfold getCurrentQuestion. by rewrite Hid.
  - intros a qid q -> Ha Hid Hqid Hq r. subst r.
    unfold checkCurrentQuestion, getCurrentQuestion.
    unfold getQuestion in Hq.
    rewrite (truthy_str_Some a Ha), Hid, (truthy_Some qid Hqid), Hq.
    cbn [negb fst snd].
    destruct (bool_decide_reflect (a ∈ correct q)) as [Hin|Hout].
    + split; [reflexivity|]. split.
      * eexists. rewrite getQuestionState_update, decide_True by reflexivity.
        split; [reflexivity|]. cbn [selectedAnswer status time dontKnow notSure].
        split_and!; try done.
        -- intros t0. apply getQuestionElapsed_nearest.
        -- apply getQuestionElapsed_unset.
      * split; [reflexivity|]. intros; contradiction.
    + split; [reflexivity|]. split.
      * eexists. rewrite getQuestionState_incrementWrongCount.
        rewrite getQuestionState_update, decide_True by reflexivity.
        split; [reflexivity|]. cbn [selectedAnswer status time dontKnow notSure].
        split_and!; try done.
        -- intros t0. apply getQuestionElapsed_nearest.
        -- apply getQuestionElapsed_unset.
      * split; [intros; contradiction|]. intros _.
        unfold incrementWrongCount.
        cbn [progress with_progress wrongCounts set_wrongCounts
             updateQuestionState with_round].
        split; [apply lookup_insert_eq|].
        intros q' Hne. apply lookup_insert_ne. congruence.
Qed.

Lemma checkCurrentQuestion_spec_witness :
  checkCurrentQuestion None 5000 sample_state = (false, sample_state)
  /\ (checkCurrentQuestion (Some "B"%string) 5000 sample_state).1 = true.
Proof.
  split.
  - apply (proj1 (checkCurrentQuestion_spec None 5000 sample_state)).
    reflexivity.
  - refine (proj1 (proj2 (proj2 (proj2
                     (checkCurrentQuestion_spec (Some "B"%string) 5000
                        sample_state)))
                     "B"%string 1 sample_question _ _ _ _ _));
      [reflexivity | discriminate | reflexivity | discriminate | reflexivity].
Defined.

(** C7 as stated fails on the code: with the letter A selected on the
    loaded question 0, whose correct letter is A, nothing is recorded and
    [false] is returned, for the id 0 is falsy. *)
Lemma checkCurrentQuestion_counterexample :
  getCurrentQuestionId zero_round = Some 0
  /\ getQuestion zero_round 0 = Some zero_question
  /\ "A"%string ∈ correct zero_question
  /\ checkCurrentQuestion (Some "A"%string) 5000 zero_round
     = (false, zero_round)
  /\ getQuestionState zero_round 0 = None.
Proof.
  split_and!; try reflexivity. apply list_elem_of_here.
Qed.

(** C10: [updateDraftState] never changes the status (nor the time) that is
    stored for a question; called without a selected answer it keeps the
    selection that is stored; the flags of the current question take the
    values passed, unless the round is in learning mode and the question
    is already answered, when nothing is written at all; the state of every
    other question is left as it is. *)
Theorem updateDraftState_frame (selected : option string) (dk ns : bool)
    (s : AppState) (q : Z) (e : QuestionState) :
  getQuestionState s q = Some e ->
  exists e',
    getQuestionState (updateDraftState selected dk ns s) q = Some e'
    /\ status e' = status e
    /\ time e' = time e
    /\ (truthy_str selected = false ->
        truthy_str (selectedAnswer e) = true ->
        selectedAnswer e' = selectedAnswer e)
    /\ (e' = e \/ getCurrentQuestionId s = Some q)
    /\ (getCurrentQuestionId s = Some q -> q ≠ 0 ->
        isLearningMode s = false \/ status e = Unanswered ->
        dontKnow e' = dk /\ notSure e' = ns)
    /\ (getCurrentQuestionId s = Some q ->
        isLearningMode s = true -> status e ≠ Unanswered -> e' = e).
Proof.
  intros He. unfold updateDraftState.
  destruct (getCurrentQuestionId s) as [qid|] eqn:Hid.
  2:{ exists e. split_and!; try done. by left. }
  destruct (truthy (Some qid)) eqn:Hqid; cbn [negb].
  2:{ exists e. split_and!; try done; [by left|].
      intros [= ->] Hq. apply truthy_Some in Hq. congruence. }
  destruct (decide (qid = q)) as [->|Hne].
  - rewrite He. cbn [status_of time_of].
    destruct (isLearningMode s) eqn:Hlearn; cbn [andb].
    + destruct (bool_decide_reflect (status e ≠ Unanswered)) as [Hans|Hun].
      * exists e. split_and!; try done; [by left|].
        intros _ _ [|]; congruence.
      * eexists. rewrite getQuestionState_update, decide_True by reflexivity.
        split; [reflexivity|]. cbn. split_and!; try done; [|by right].
        intros Hsel Hstored. unfold draft_answer. by rewrite Hsel, Hstored.
    + eexists. rewrite getQuestionState_update, decide_True by reflexivity.
      split; [reflexivity|]. cbn. split_and!; try done; [|by right].
      intros Hsel Hstored. unfold draft_answer. by rewrite Hsel, Hstored.
  - exists e. split.
    { destruct (_ && _); [done|].
      rewrite getQuestionState_update, decide_False by done. done. }
    split_and!; try done; try (intros [= ?]; congruence). by left.
Qed.

Lemma updateDraftState_frame_witness :
  exists e',
    getQuestionState (updateDraftState None true false drafted_state) 1
    = Some e'
    /\ status e' = Unanswered
    /\ selectedAnswer e' = Some "A"%string.
Proof.
  destruct (updateDraftState_frame None true false drafted_state 1
              {| selectedAnswer := Some "A"%string; status := Unanswered;
                 dontKnow := false; notSure := false; time := 0 |}
              eq_refl) as (e' & Hget & Hstatus & _ & Hsel & _).
  exists e'. split; [exact Hget|]. split; [exact Hstatus|].
  apply Hsel; reflexivity.
Defined.

(** ** Review sets (quiz.js) *)

Lemma filter_snoc_bool (f : Z -> bool) (l : list Z) (x : Z) :
  filter (fun q => f q = true) (l ++ [x])
  = filter (fun q => f q = true) l ++ (if f x then [x] else []).
Proof.
  rewrite filter_app. f_equal.
  rewrite filter_cons, filter_nil.
  destruct (f x); [rewrite decide_True by done|rewrite decide_False by done];
    reflexivity.
Qed.

Lemma computeStats_step_lists (qs : gmap Z QuestionState) (acc : ExamStats)
    (x : Z) :
  wrong (computeStats_step qs acc x)
  = wrong acc ++ (if is_wrong qs x then [x] else [])
  /\ ns (computeStats_step qs acc x)
     = ns acc ++ (if is_notSure qs x then [x] else [])
  /\ dk (computeStats_step qs acc x)
     = dk acc ++ (if is_dontKnow qs x then [x] else []).
Proof.
  unfold computeStats_step, is_wrong, is_notSure, is_dontKnow.
  destruct (qs !! x) as [st|]; [|rewrite !app_nil_r; done].
  destruct (status st), (notSure st), (dontKnow st);
    cbn; rewrite ?app_nil_r; done.
Qed.

Lemma computeStats_lists (qs : gmap Z QuestionState) (ids : list Z) :
  wrong (computeStats qs ids) = filter (fun q => is_wrong qs q = true) ids
  /\ ns (computeStats qs ids) = filter (fun q => is_notSure qs q = true) ids
  /\ dk (computeStats qs ids) = filter (fun q => is_dontKnow qs q = true) ids.
Proof.
  unfold computeStats.
  induction ids as [|x ids IH] using rev_ind; [done|].
  rewrite foldl_app. cbn [foldl].
  rewrite !filter_snoc_bool.
  destruct IH as (IHw & IHn & IHd).
  destruct (computeStats_step_lists qs
              (foldl (computeStats_step qs)
                 {| stats_correct := 0; wrong := []; dk := []; ns := [];
                    correctButNotSure := []; totalTime := 0 |} ids) x)
    as (Hw & Hn & Hd).
  rewrite Hw, Hn, Hd, IHw, IHn, IHd. done.
Qed.

Lemma new_Set_fold (acc l : list Z) :
  NoDup acc ->
  NoDup (foldl set_add acc l)
  /\ forall q, q ∈ foldl set_add acc l <-> q ∈ acc \/ q ∈ l.
Proof.
  revert acc. induction l as [|x l IH]; intros acc Hnd; cbn [foldl].
  - split; [done|]. intros q. rewrite elem_of_nil. tauto.
  - unfold set_add at 2 4. destruct (decide (x ∈ acc)) as [Hin|Hout].
    + destruct (IH acc Hnd) as [H1 H2]. split; [done|].
      intros q. rewrite H2, elem_of_cons.
      split; [tauto|]. intros [?|[->|?]]; tauto.
    + assert (Hnd' : NoDup (acc ++ [x])).
      { apply NoDup_app. split_and!; [done| |apply NoDup_singleton].
        intros y Hy ->%list_elem_of_singleton. done. }
      destruct (IH _ Hnd') as [H1 H2]. split; [done|].
      intros q. rewrite H2, elem_of_app, list_elem_of_singleton, elem_of_cons.
      tauto.
Qed.

Lemma new_Set_spec (l : list Z) :
  NoDup (new_Set l) /\ forall q, q ∈ new_Set l <-> q ∈ l.
Proof.
  destruct (new_Set_fold [] l (NoDup_nil_2)) as [H1 H2].
  split; [done|]. intros q. rewrite H2, elem_of_nil. tauto.
Qed.

(** C8: [getReviewQuestions] returns the empty list when the base state or
    the base stack is missing.  Otherwise [REVIEW_WRONG] gives the questions
    of the base stack whose status is wrong, [REVIEW_NOT_SURE] the answered
    ones flagged not sure, [REVIEW_DONT_KNOW] the answered ones flagged
    "don't know", each in the order of the stack, and [REVIEW_ALL] their
    union without repetition.  In the example the union is 5, 7, 9 and the
    wrong ones are 5, 7. *)
Theorem getReviewQuestions_spec :
  (forall bk t, getReviewQuestions None bk t = [])
  /\ (forall bs t, getReviewQuestions bs None t = [])
  /\ (forall (bs : gmap Z QuestionState) (bk : list Z),
        getReviewQuestions (Some bs) (Some bk) REVIEW_WRONG
        = filter (fun q => is_wrong bs q = true) bk
        /\ getReviewQuestions (Some bs) (Some bk) REVIEW_NOT_SURE
           = filter (fun q => is_notSure bs q = true) bk
        /\ getReviewQuestions (Some bs) (Some bk) REVIEW_DONT_KNOW
           = filter (fun q => is_dontKnow bs q = true) bk
        /\ NoDup (getReviewQuestions (Some bs) (Some bk) REVIEW_ALL)
        /\ forall q,
             q ∈ getReviewQuestions (Some bs) (Some bk) REVIEW_ALL
             <-> q ∈ bk /\ (is_wrong bs q = true
                            \/ is_notSure bs q = true
                            \/ is_dontKnow bs q = true))
  /\ getReviewQuestions (Some example_base) (Some [5; 7; 9]) REVIEW_ALL
     = [5; 7; 9]
  /\ getReviewQuestions (Some example_base) (Some [5; 7; 9]) REVIEW_WRONG
     = [5; 7].
Proof.
  split; [done|]. split; [by intros [bs|] t|].
  split; [|split; vm_compute; reflexivity].
  intros bs bk. cbn [getReviewQuestions].
  destruct (computeStats_lists bs bk) as (Hw & Hn & Hd).
  rewrite Hw, Hn, Hd. split_and!; try done.
  - apply new_Set_spec.
  - intros q. rewrite (proj2 (new_Set_spec _) q).
    rewrite !elem_of_app, !list_elem_of_filter. tauto.
Qed.

(** ** The mastery buckets (smart.js) *)

Lemma count_in_cons f sr x l :
  count_in f sr (x :: l) = Z.b2z (f (sr !! x)) + count_in f sr l.
Proof.
  unfold count_in. rewrite filter_cons.
  destruct (f (sr !! x)); [rewrite decide_True by done|
                           rewrite decide_False by done]; cbn [length Z.b2z]; lia.
Qed.

Lemma spec_categories_exclusive (o : option SpacedRepData) :
  (forall d, o = Some d -> valid_record d) ->
  Z.b2z (spec_mastered o) + Z.b2z (spec_learning o)
  + Z.b2z (spec_struggling o) + Z.b2z (spec_notStarted o) = 1.
Proof.
  intros Hv. destruct o as [d|]; [|reflexivity].
  destruct (Hv d eq_refl) as [Hl Hs].
  unfold spec_mastered, spec_learning, spec_struggling, spec_notStarted.
  repeat case_bool_decide; cbn; lia.
Qed.

Lemma count_step_spec (sr : gmap Z SpacedRepData) (c : Counters) (x : Z) :
  (forall d, sr !! x = Some d -> valid_record d) ->
  c_mastered (count_step sr c x)
  = c_mastered c + Z.b2z (spec_mastered (sr !! x))
  /\ c_learning (count_step sr c x)
     = c_learning c + Z.b2z (spec_learning (sr !! x))
  /\ c_struggling (count_step sr c x)
     = c_struggling c + Z.b2z (spec_struggling (sr !! x))
  /\ c_notStarted (count_step sr c x)
     = c_notStarted c + Z.b2z (spec_notStarted (sr !! x)).
Proof.
  intros Hv. unfold count_step.
  destruct (sr !! x) as [d|]; [|cbn; lia].
  destruct (Hv d eq_refl) as [Hl Hs].
  unfold spec_mastered, spec_learning, spec_struggling, spec_notStarted.
  repeat case_decide; repeat case_bool_decide; cbn; lia.
Qed.

Lemma count_fold_spec (sr : gmap Z SpacedRepData) (l : list Z) :
  (forall q d, q ∈ l -> sr !! q = Some d -> valid_record d) ->
  forall c : Counters,
    c_mastered (foldl (count_step sr) c l)
    = c_mastered c + count_in spec_mastered sr l
    /\ c_learning (foldl (count_step sr) c l)
       = c_learning c + count_in spec_learning sr l
    /\ c_struggling (foldl (count_step sr) c l)
       = c_struggling c + count_in spec_struggling sr l
    /\ c_notStarted (foldl (count_step sr) c l)
       = c_notStarted c + count_in spec_notStarted sr l.
Proof.
  induction l as [|x l IH]; intros Hv c; cbn [foldl].
  - unfold count_in; cbn. lia.
  - destruct (IH (fun q d Hq => Hv q d (list_elem_of_further _ _ _ Hq))
                (count_step sr c x)) as (Hm & Hl & Hs & Hn).
    destruct (count_step_spec sr c x (fun d => Hv x d (list_elem_of_here _ _)))
      as (Hm' & Hl' & Hs' & Hn').
    rewrite Hm, Hl, Hs, Hn, Hm', Hl', Hs', Hn', !count_in_cons. lia.
Qed.

Lemma count_in_total (sr : gmap Z SpacedRepData) (l : list Z) :
  (forall q d, q ∈ l -> sr !! q = Some d -> valid_record d) ->
  count_in spec_mastered sr l + count_in spec_learning sr l
  + count_in spec_struggling sr l + count_in spec_notStarted sr l
  = Z.of_nat (length l).
Proof.
  induction l as [|x l IH]; intros Hv; [reflexivity|].
  rewrite !count_in_cons. cbn [length].
  pose proof (spec_categories_exclusive (sr !! x)
                (fun d => Hv x d (list_elem_of_here _ _))).
  pose proof (IH (fun q d Hq => Hv q d (list_elem_of_further _ _ _ Hq))).
  lia.
Qed.

(** C4: over records of the data model, the counters of [getSmartStats] are
    the sizes of the four categories of the specification (mastered: level
    at least 4 and seen; learning: level 1 to 3 and seen; struggling: level 0
    and seen; not started: no record, or never seen); every question is in
    exactly one category, and the four counters add up to the number of
    questions. *)
Theorem getSmartStats_partition (s : AppState) :
  (forall q d, q ∈ allQuestionIds (bank s) ->
               spacedRepetition (progress s) !! q = Some d ->
               valid_record d) ->
  let st := getSmartStats s in
  let sr := spacedRepetition (progress s) in
  let universe := allQuestionIds (bank s) in
  mastered st = count_in spec_mastered sr universe
  /\ learning st = count_in spec_learning sr universe
  /\ struggling st = count_in spec_struggling sr universe
  /\ notStarted st = count_in spec_notStarted sr universe
  /\ total st = Z.of_nat (length universe)
  /\ mastered st + learning st + struggling st + notStarted st = total st
  /\ forall q, q ∈ universe ->
       Z.b2z (spec_mastered (sr !! q)) + Z.b2z (spec_learning (sr !! q))
       + Z.b2z (spec_struggling (sr !! q)) + Z.b2z (spec_notStarted (sr !! q))
       = 1.
Proof.
  intros Hv st sr universe. subst st.
  unfold getSmartStats, getAllSpacedRepData.
  fold sr. fold universe.
  cbn [mastered learning struggling notStarted total].
  destruct (count_fold_spec sr universe Hv
              {| c_mastered := 0; c_learning := 0; c_struggling := 0;
                 c_notStarted := 0 |}) as (Hm & Hl & Hs & Hn).
  cbn [c_mastered c_learning c_struggling c_notStarted] in *.
  pose proof (count_in_total sr universe Hv) as Htot.
  rewrite Hm, Hl, Hs, Hn.
  split_and!; try lia.
  intros q Hq. apply spec_categories_exclusive. intros d. apply Hv, Hq.
Qed.

Lemma getSmartStats_partition_witness :
  mastered (getSmartStats sample_progress)
  + learning (getSmartStats sample_progress)
  + struggling (getSmartStats sample_progress)
  + notStarted (getSmartStats sample_progress) = 4.
Proof.
  refine (proj1 (proj2 (proj2 (proj2 (proj2 (proj2
            (getSmartStats_partition sample_progress _))))))).
  intros q d Hq Hd.
  repeat (apply elem_of_cons in Hq as [->|Hq]);
    [..|by apply elem_of_nil in Hq];
    vm_compute in Hd; try discriminate;
    injection Hd as <-; unfold valid_record; cbn; lia.
Defined.

(** ** The merge of a cloud snapshot (storage.js, state.js) *)

(** C1, as the code has it: a snapshot is ignored while a save is in
    flight, when it has no timestamp, or when its timestamp is 0 or not
    greater than the last one applied; the state is then unchanged.
    Otherwise the last-applied timestamp becomes that of the snapshot and
    every key that the snapshot holds replaces the local value ([new Set]
    of the array for the two sets), except that an empty [exams] array is
    ignored like a missing one; the keys that are missing keep the local
    value, and nothing outside the store changes. *)
Theorem onCloudDataChange_merge (s : AppState) (snapshot : option CloudData) :
  let T := lastCloudTimestamp (sync s) in
  let s' := onCloudDataChange snapshot s in
  (isSaving (sync s) = true -> s' = s)
  /\ (snapshot = None -> s' = s)
  /\ (forall data, snapshot = Some data ->
        d_timestamp data = None
        \/ (exists t, d_timestamp data = Some t /\ (t <= T \/ t = 0)) ->
        s' = s)
  /\ (forall data t,
        snapshot = Some data -> isSaving (sync s) = false ->
        d_timestamp data = Some t -> T < t -> t ≠ 0 ->
        lastCloudTimestamp (sync s') = t
        /\ completedLearning (progress s')
           = from_option new_Set (completedLearning (progress s))
               (d_completedLearning data)
        /\ completedExam (progress s')
           = from_option new_Set (completedExam (progress s))
               (d_completedExam data)
        /\ history (progress s')
           = default (history (progress s)) (d_history data)
        /\ wrongCounts (progress s')
           = default (wrongCounts (progress s)) (d_wrongCounts data)
        /\ exams (bank s')
           = match d_exams data with
             | Some (e :: es) => e :: es
             | _ => exams (bank s)
             end
        /\ questionMeta (progress s')
           = default (questionMeta (progress s)) (d_questionMeta data)
        /\ spacedRepetition (progress s')
           = default (spacedRepetition (progress s)) (d_spacedRepetition data)
        /\ examHistory (progress s')
           = default (examHistory (progress s)) (d_examHistory data)
        /\ round s' = round s /\ timing s' = timing s
        /\ questions (bank s') = questions (bank s)
        /\ allQuestionIds (bank s') = allQuestionIds (bank s)
        /\ syncId (sync s') = syncId (sync s)
        /\ isOnline (sync s') = isOnline (sync s)
        /\ isSaving (sync s') = false).
Proof.
  intros T s'. subst s'. unfold onCloudDataChange.
  split_and!.
  - intros ->. reflexivity.
  - intros ->. by destruct (isSaving (sync s)).
  - intros data -> Hts. destruct (isSaving (sync s)); [done|].
    destruct Hts as [-> | (t & -> & Ht)]; [done|].
    unfold truthy, getLastCloudTimestamp. cbn [default from_option].
    unfold Datatypes.id. fold T.
    destruct Ht as [Hle | ->].
    + rewrite (bool_decide_eq_false_2 (T < t)) by lia.
      by rewrite andb_false_r.
    + done.
  - intros data t -> Hsaving Hts Hlt Hnz. rewrite Hsaving, Hts.
    rewrite (truthy_Some t Hnz). unfold getLastCloudTimestamp.
    cbn [default from_option]. unfold Datatypes.id. fold T.
    rewrite (bool_decide_eq_true_2 (T < t)) by done. cbn [andb].
    destruct data as [ts cl ce h w ex qm srd eh]. cbn in Hts. subst ts.
    destruct s as [b r tm p y]. cbn in Hsaving.
    destruct cl, ce, h, w, ex as [[|]|], qm, srd, eh; cbn; by split_and!.
Qed.

Lemma onCloudDataChange_merge_witness :
  onCloudDataChange (Some newer_snapshot) (setSaving true local_state)
  = setSaving true local_state
  /\ onCloudDataChange None local_state = local_state
  /\ onCloudDataChange (Some (getAllData 10 local_state)) local_state
     = local_state
  /\ history (progress (onCloudDataChange (Some newer_snapshot) local_state))
     = [sample_entry].
Proof.
  split_and!.
  - exact (proj1 (onCloudDataChange_merge (setSaving true local_state)
                    (Some newer_snapshot)) eq_refl).
  - exact (proj1 (proj2 (onCloudDataChange_merge local_state None)) eq_refl).
  - apply (proj1 (proj2 (proj2
             (onCloudDataChange_merge local_state
                (Some (getAllData 10 local_state)))))
             (getAllData 10 local_state) eq_refl).
    right. exists 10. split; [reflexivity|]. left. cbn. lia.
  - refine (proj1 (proj2 (proj2 (proj2
              (proj2 (proj2 (proj2
                 (onCloudDataChange_merge local_state (Some newer_snapshot))))
                 newer_snapshot 20 eq_refl eq_refl eq_refl _ _))))).
    + cbn. lia.
    + discriminate.
Defined.

(** C1 as stated fails on the code: a snapshot that is newer than the last
    one applied and holds the key [exams] with an empty array does not
    replace the local exams; and no snapshot, however new, is applied while
    a save is in flight. *)
Lemma onCloudDataChange_counterexample :
  lastCloudTimestamp (sync local_state) = 10
  /\ d_timestamp newer_snapshot = Some 20
  /\ d_exams newer_snapshot = Some []
  /\ exams (bank (onCloudDataChange (Some newer_snapshot) local_state))
     = [[1; 2]; [3]]
  /\ lastCloudTimestamp (sync (setSaving true local_state)) = 10
  /\ d_history newer_snapshot = Some [sample_entry]
  /\ history (progress (onCloudDataChange (Some newer_snapshot)
                          (setSaving true local_state))) = [].
Proof. repeat split. Qed.

(** ** The end of a session (main.js, smart.js) *)

(** [updateSpacedRepLevel] counts the question as seen once more and stamps
    it with the time of the call; the position of the question is not among
    the keys it writes. *)
Lemma updateSpacedRepLevel_seen (s : AppState) (q : Z)
    (is_correct not_sure : bool) (now : Z) :
  let d := getSpacedRepData s q in
  let d' := getSpacedRepData
              (updateSpacedRepLevel q is_correct not_sure now s) q in
  seenCount d' = seenCount d + 1
  /\ lastSeen d' = now
  /\ lastSeenPosition d' = lastSeenPosition d.
Proof.
  cbn zeta. unfold updateSpacedRepLevel.
  rewrite getSpacedRepData_update, decide_True by reflexivity.
  repeat split.
Qed.

Lemma update_levels_lastSeenPosition (now : Z) (s : AppState) (x q : Z) :
  lastSeenPosition (getSpacedRepData (Main.update_levels now s x) q)
  = lastSeenPosition (getSpacedRepData s q).
Proof.
  unfold Main.update_levels.
  destruct (getQuestionState s x) as [qState|]; [|reflexivity].
  destruct (bool_decide (status qState ≠ Unanswered)); [|reflexivity].
  unfold updateSpacedRepLevel. rewrite getSpacedRepData_update.
  destruct (decide (x = q)) as [->|]; reflexivity.
Qed.

Lemma getSpacedRepData_addExamHistory (now : Z) (r : ExamResult)
    (s : AppState) (q : Z) :
  getSpacedRepData (addExamHistory now r s) q = getSpacedRepData s q.
Proof. unfold addExamHistory. by destruct (decide _). Qed.

Lemma getSpacedRepData_finishExam type qs stk mode idx now s q :
  getSpacedRepData (Quiz.finishExam type qs stk mode idx now s) q
  = getSpacedRepData s q.
Proof.
  unfold Quiz.finishExam. destruct (decide (type = BASE)); [|reflexivity].
  destruct idx; [|reflexivity].
  unfold markExamCompleted. cbn [round saveBaseState with_round].
  destruct (selectedExamIndex _); [|reflexivity].
  by destruct (isExamMode _).
Qed.

(** stopping the timers drops the id of the interval, unless there is
    none or it is falsy, and changes nothing else *)
Lemma stopAllTimers_frame (s : AppState) :
  exists ti,
    stopAllTimers s = with_timing (set_timerInterval ti) s
    /\ ti = if truthy (getTimerInterval s) then None
            else getTimerInterval s.
Proof.
  unfold stopAllTimers, stopExamTimer.
  destruct (getTimerInterval s) as [i|] eqn:Hi.
  - destruct (truthy (Some i)); [by eexists|].
    exists (Some i). split; [|done]. unfold getTimerInterval in Hi.
    destruct s as [b r [] p y]. cbn in *. by rewrite Hi.
  - exists None. split; [|done]. unfold getTimerInterval in Hi.
    destruct s as [b r [] p y]. cbn in *. by rewrite Hi.
Qed.

(** [finishExam] begins by stopping the timers; the round, the progress,
    the bank and the sync state are read from the state it was given *)
Ltac unfold_finishExam s :=
  let ti := fresh "ti" in
  let Hti := fresh "Hti" in
  unfold Main.finishExam;
  destruct (stopAllTimers_frame s) as (ti & -> & Hti);
  cbn [round with_timing].

(** the same, for a statement that reads the given state through its
    round, its progress, its bank and its sync state only: the state with
    the timers stopped takes its place *)
Ltac finishExam_stopped s :=
  let ti := fresh "ti" in
  let s0 := fresh "s0" in
  unfold Main.finishExam;
  destruct (stopAllTimers_frame s) as (ti & -> & _);
  set (s0 := with_timing (set_timerInterval ti) s);
  change (round s) with (round s0) in *;
  change (progress s) with (progress s0) in *;
  change (bank s) with (bank s0) in *;
  change (sync s) with (sync s0) in *;
  change (getSpacedRepData s) with (getSpacedRepData s0) in *;
  clearbody s0; clear ti; clear s; rename s0 into s.

(** whatever the round, [finishExam] leaves the [lastSeenPosition] of
    every question as it found it *)
Lemma finishExam_keeps_lastSeenPosition (now : Z) (s : AppState) (q : Z) :
  lastSeenPosition (getSpacedRepData (Main.finishExam now s) q)
  = lastSeenPosition (getSpacedRepData s q).
Proof.
  unfold_finishExam s. rewrite getSpacedRepData_finishExam.
  assert (Hloop : forall l s1,
            lastSeenPosition
              (getSpacedRepData (foldl (Main.update_levels now) s1 l) q)
            = lastSeenPosition (getSpacedRepData s1 q)).
  { induction l as [|x l IH]; intros s1; cbn [foldl]; [reflexivity|].
    by rewrite IH, update_levels_lastSeenPosition. }
  destruct (decide (currentRoundType (round _) = BASE));
    rewrite ?getSpacedRepData_addExamHistory;
    destruct (_ || _); by rewrite ?Hloop.
Qed.

(** C3 on the code: at the end of the session question 7, at position 1 of
    the stack, is counted as seen once and stamped with the current time,
    but its [lastSeenPosition] is still missing: [finishExam] never calls
    [markQuestionSeen], the only function that writes it. *)
Theorem finishExam_lastSeenPosition :
  stack (round smart_session) !! 1%nat = Some 7
  /\ spacedRepetition (progress (Main.finishExam 9000 smart_session)) !! 7
     = Some {| level := 0; lastSeen := 9000; seenCount := 1;
               lastSeenPosition := None |}
  /\ spacedRepetition
       (progress (markQuestionSeen 7 1 (Main.finishExam 9000 smart_session)))
     !! 7
     = Some {| level := 0; lastSeen := 9000; seenCount := 1;
               lastSeenPosition := Some 1 |}.
Proof. repeat split. Qed.

(** ** The priority of a question (smart.js) *)

Section Scoring.

Context (s : AppState) (rnd : nat -> Q).

Lemma calculatePriority_never_seen (q pos : Z) (n : nat) :
  seenCount (getSpacedRepData s q) = 0 ->
  (calculatePriority q pos s rnd n).1 = fl (-1000 + fl (rnd n * 100)).
Proof.
  intros H0. unfold calculatePriority. rewrite decide_True by done.
  reflexivity.
Qed.

Lemma calculatePriority_seen (q pos : Z) (n : nat) :
  seenCount (getSpacedRepData s q) ≠ 0 ->
  (calculatePriority q pos s rnd n).1
  = inject_Z (seen_priority (getSpacedRepData s q) pos).
Proof.
  intros H0. unfold calculatePriority. rewrite decide_False by done.
  reflexivity.
Qed.

Lemma jitter_bounds (n : nat) :
  valid_source rnd ->
  (-1000 <= fl (-1000 + fl (rnd n * 100)) <= -900)%Q.
Proof.
  intros Hv. destruct (Hv n) as [H0 H1].
  assert (Hlo : (0 <= fl (rnd n * 100))%Q).
  { apply (fl_ge_int _ 0); [|lia]. change (inject_Z 0) with 0%Q. lra. }
  assert (Hhi : (fl (rnd n * 100) <= 100)%Q).
  { apply (fl_le_int _ 100); [|lia]. change (inject_Z 100) with 100%Q. lra. }
  split.
  - apply (fl_ge_int _ (-1000)); [|lia].
    change (inject_Z (-1000)) with (-1000)%Q. lra.
  - apply (fl_le_int _ (-900)); [|lia].
    change (inject_Z (-900)) with (-900)%Q. lra.
Qed.

(** what [score_all] puts in the list *)
Lemma score_all_elem (qids : list Z) (n : nat) (x : Scored) :
  x ∈ (score_all qids s rnd n).1 ->
  qid x ∈ qids
  /\ data x = getSpacedRepData s (qid x)
  /\ exists k, priority x = (calculatePriority (qid x) 0 s rnd k).1.
Proof.
  revert n. induction qids as [|q qids IH]; intros n; cbn [score_all].
  - cbn. by rewrite elem_of_nil.
  - unfold bind at 1.
    destruct (calculatePriority q 0 s rnd n) as [p n1] eqn:Hp.
    unfold bind at 1.
    destruct (score_all qids s rnd n1) as [others n2] eqn:Ho.
    cbn [ret fst]. rewrite elem_of_cons. intros [->|Hx].
    + cbn [qid data priority]. split_and!; [by left|done|].
      exists n. by rewrite Hp.
    + specialize (IH n1). rewrite Ho in IH.
      destruct (IH Hx) as (H1 & H2 & H3). split_and!; [by right|done|done].
Qed.

End Scoring.

(** a seen question of level 0..5 whose last position is less than 800
    past the current one scores above -900 *)
Lemma seen_priority_bound (d : SpacedRepData) (pos : Z) :
  0 <= level d <= 5 ->
  -800 < pos - default 0 (lastSeenPosition d) ->
  -900 < seen_priority d pos.
Proof.
  intros Hl Hp. unfold seen_priority, interval_of, INTERVALS.
  set (lsp := default 0 (lastSeenPosition d)) in *.
  repeat case_decide; cbn [default from_option]; unfold Datatypes.id; lia.
Qed.

(** *** The sorted list of scored questions *)

Lemma insert_sorted_elem (a x : Scored) (l : list Scored) :
  x ∈ insert_sorted a l <-> x = a \/ x ∈ l.
Proof.
  induction l as [|b l IH]; cbn [insert_sorted].
  - rewrite list_elem_of_singleton, elem_of_nil. tauto.
  - destruct (Qle_bool (priority a) (priority b)).
    + rewrite elem_of_cons. tauto.
    + rewrite !elem_of_cons, IH. tauto.
Qed.

Lemma sort_by_priority_elem (x : Scored) (l : list Scored) :
  x ∈ sort_by_priority l <-> x ∈ l.
Proof.
  unfold sort_by_priority. induction l as [|a l IH]; cbn [foldr]; [done|].
  rewrite insert_sorted_elem, elem_of_cons, IH. tauto.
Qed.

Lemma insert_sorted_sorted (a : Scored) (l : list Scored) :
  StronglySorted by_priority l ->
  StronglySorted by_priority (insert_sorted a l).
Proof.
  induction 1 as [|b l Hs IH Hall]; cbn [insert_sorted].
  - repeat constructor.
  - destruct (Qle_bool (priority a) (priority b)) eqn:Hab.
    + apply Qle_bool_iff in Hab.
      constructor; [by constructor|].
      constructor; [exact Hab|].
      eapply Forall_impl; [exact Hall|].
      intros c Hbc. unfold by_priority in *. by eapply Qle_trans.
    + assert (Hba : (priority b <= priority a)%Q).
      { apply Qlt_le_weak, Qnot_le_lt. intros Hle.
        apply Qle_bool_iff in Hle. congruence. }
      constructor; [exact IH|].
      apply Forall_forall. intros c Hc.
      apply insert_sorted_elem in Hc as [->|Hc]; [exact Hba|].
      by eapply Forall_forall in Hall.
Qed.

Lemma sort_by_priority_sorted (l : list Scored) :
  StronglySorted by_priority (sort_by_priority l).
Proof.
  unfold sort_by_priority. induction l as [|a l IH]; cbn [foldr].
  - constructor.
  - by apply insert_sorted_sorted.
Qed.

Lemma StronglySorted_lookup_lt (l : list Scored) (i j : nat) (a b : Scored) :
  StronglySorted by_priority l ->
  l !! i = Some a -> l !! j = Some b -> (i < j)%nat -> by_priority a b.
Proof.
  intros Hs. revert i j. induction Hs as [|c l Hs IH Hall]; intros i j Hi Hj Hlt.
  - by rewrite lookup_nil in Hi.
  - destruct j as [|j]; [lia|]. cbn in Hj.
    destruct i as [|i]; cbn in Hi.
    + injection Hi as ->. eapply Forall_forall in Hall; [exact Hall|].
      by eapply list_elem_of_lookup_2.
    + eapply IH; [exact Hi|exact Hj|lia].
Qed.

(** *** The queue of a session *)

Lemma swap_perm {A} (l : list A) (i j : nat) : swap l i j ≡ₚ l.
Proof.
  unfold swap. destruct (l !! i) eqn:Hi; [|done].
  destruct (l !! j) eqn:Hj; [|done].
  by apply Permutation_insert_swap.
Qed.

Lemma shuffle_from_spec {A} (i : nat) (l : list A) (rnd : nat -> Q)
    (n : nat) :
  (shuffle_from i l rnd n).1 ≡ₚ l
  /\ (shuffle_from i l rnd n).2 = (n + i)%nat.
Proof.
  revert l n. induction i as [|i IH]; intros l n; cbn [shuffle_from].
  - cbn. split; [done|lia].
  - unfold bind, Math_random.
    destruct (IH (swap l (S i)
                    (Z.to_nat (Qfloor (rnd n * inject_Z (Z.of_nat (S i) + 1)))))
                (S n)) as [Hp Hn].
    split; [by rewrite Hp, swap_perm|rewrite Hn; lia].
Qed.

Lemma shuffle_perm {A} (l : list A) (rnd : nat -> Q) (n : nat) :
  (shuffle l rnd n).1 ≡ₚ l.
Proof. apply shuffle_from_spec. Qed.

Lemma score_all_spec (qids : list Z) (s : AppState) (rnd : nat -> Q)
    (n : nat) :
  qid <$> (score_all qids s rnd n).1 = qids
  /\ Forall (fun x => data x = getSpacedRepData s (qid x))
       (score_all qids s rnd n).1.
Proof.
  revert n. induction qids as [|q l IH]; intros n; cbn [score_all].
  - by split.
  - unfold bind. destruct (calculatePriority q 0 s rnd n) as [p n1].
    specialize (IH n1). destruct (score_all l s rnd n1) as [others n2].
    cbn [fst] in *. destruct IH as [IH1 IH2]. unfold ret. cbn [fst fmap list_fmap qid].
    split; [by rewrite IH1|]. by constructor.
Qed.

Lemma insert_sorted_perm (a : Scored) (l : list Scored) :
  insert_sorted a l ≡ₚ a :: l.
Proof.
  induction l as [|b l IH]; cbn [insert_sorted]; [done|].
  destruct (Qle_bool _ _); [done|].
  rewrite IH. apply Permutation_swap.
Qed.

Lemma sort_by_priority_perm (l : list Scored) : sort_by_priority l ≡ₚ l.
Proof.
  unfold sort_by_priority. induction l as [|a l IH]; cbn [foldr]; [done|].
  by rewrite insert_sorted_perm, IH.
Qed.

Lemma tiers_perm (l : list Scored) :
  filter (fun x => is_urgent x = true) l
  ++ filter (fun x => is_moderate x = true) l
  ++ filter (fun x => is_review x = true) l ≡ₚ l.
Proof.
  induction l as [|x l IH]; [done|].
  rewrite !filter_cons. unfold is_moderate, is_review in *.
  destruct (is_urgent x); cbn [negb andb].
  - repeat case_decide; try done.
    cbn [app]. apply perm_skip. exact IH.
  - destruct (bool_decide (level (data x) <= 3)); cbn [negb];
      repeat case_decide; try done.
    + cbn [app]. rewrite <- Permutation_middle. apply perm_skip. exact IH.
    + rewrite app_assoc, <- Permutation_middle, <- app_assoc.
      apply perm_skip. exact IH.
Qed.

Lemma shuffleWithPriority_spec (l : list Scored) (rnd : nat -> Q) (n : nat) :
  exists u m r,
    (shuffleWithPriority l rnd n).1 = u ++ m ++ r
    /\ u ≡ₚ qid <$> filter (fun x => is_urgent x = true) l
    /\ m ≡ₚ qid <$> filter (fun x => is_moderate x = true) l
    /\ r ≡ₚ qid <$> filter (fun x => is_review x = true) l.
Proof.
  unfold shuffleWithPriority, bind.
  pose proof (shuffle_perm
                (qid <$> filter (fun x => is_urgent x = true) l) rnd n) as Hu.
  destruct (shuffle (qid <$> filter (fun x => is_urgent x = true) l) rnd n)
    as [u n1].
  pose proof (shuffle_perm
                (qid <$> filter (fun x => is_moderate x = true) l) rnd n1)
    as Hm.
  destruct (shuffle (qid <$> filter (fun x => is_moderate x = true) l) rnd n1)
    as [m n2].
  pose proof (shuffle_perm
                (qid <$> filter (fun x => is_review x = true) l) rnd n2)
    as Hr.
  destruct (shuffle (qid <$> filter (fun x => is_review x = true) l) rnd n2)
    as [r n3].
  by exists u, m, r.
Qed.

Lemma tier_of_filter (s : AppState) (l : list Scored) :
  Forall (fun x => data x = getSpacedRepData s (qid x)) l ->
  Forall (fun q => tier_of (getSpacedRepData s q) = 0%nat)
    (qid <$> filter (fun x => is_urgent x = true) l)
  /\ Forall (fun q => tier_of (getSpacedRepData s q) = 1%nat)
       (qid <$> filter (fun x => is_moderate x = true) l)
  /\ Forall (fun q => tier_of (getSpacedRepData s q) = 2%nat)
       (qid <$> filter (fun x => is_review x = true) l).
Proof.
  intros Hl. rewrite !Forall_fmap.
  split_and!; apply Forall_forall; intros x [Hx Hin]%list_elem_of_filter;
    rewrite Forall_forall in Hl; specialize (Hl x Hin);
    cbn [compose]; rewrite <- Hl; unfold tier_of;
    unfold is_moderate, is_review, is_urgent in Hx.
  - by rewrite Hx.
  - apply andb_true_iff in Hx as [Hx1 Hx2].
    apply negb_true_iff in Hx1. by rewrite Hx1, Hx2.
  - apply andb_true_iff in Hx as [Hx1 Hx2].
    apply negb_true_iff in Hx1. apply negb_true_iff in Hx2.
    by rewrite Hx1, Hx2.
Qed.

(** the queue is made of the three tiers of the questions selected, each
    shuffled *)
Lemma generateSmartQueue_selected (sessionSize : nat) (s : AppState)
    (rnd : nat -> Q) (n : nat) :
  let scored := (score_all (allQuestionIds (bank s)) s rnd n).1 in
  let selected :=
    take (Nat.min sessionSize (length (allQuestionIds (bank s))))
      (sort_by_priority scored) in
  exists u m r,
    (generateSmartQueue sessionSize s rnd n).1 = u ++ m ++ r
    /\ u ≡ₚ qid <$> filter (fun x => is_urgent x = true) selected
    /\ m ≡ₚ qid <$> filter (fun x => is_moderate x = true) selected
    /\ r ≡ₚ qid <$> filter (fun x => is_review x = true) selected.
Proof.
  cbn zeta. unfold generateSmartQueue.
  destruct (allQuestionIds (bank s)) as [|q0 l0] eqn:Hall.
  { exists [], [], []. rewrite Nat.min_0_r. by cbn. }
  unfold bind.
  destruct (score_all (q0 :: l0) s rnd n) as [scored n1]. cbn [fst].
  apply shuffleWithPriority_spec.
Qed.

(** C5, as the code has it: the priority of a never-seen question is -1000
    plus 100 times the number drawn, each rounded to a double, hence
    between -1000 and -900; it is strictly lower than the priority of every
    seen question whose level is in [0,5] and whose last position is less
    than 800 past the current one.  So new questions surface first where
    the queue keeps the order of the priorities: such a seen question is
    selected for the session only when every never-seen question of the
    bank is, and every seen question of level 2 or more stands after every
    never-seen question of the queue.  Inside the urgent tier, which the
    never-seen questions share with the seen ones of level 0 and 1, the
    order is that of the shuffle. *)
Theorem never_seen_priority (sessionSize : nat) (s : AppState)
    (rnd : nat -> Q) (n : nat) (q1 q2 : Z) :
  valid_source rnd ->
  seenCount (getSpacedRepData s q1) = 0 ->
  0 < seenCount (getSpacedRepData s q2) ->
  0 <= level (getSpacedRepData s q2) <= 5 ->
  let lsp := default 0 (lastSeenPosition (getSpacedRepData s q2)) in
  let queue := (generateSmartQueue sessionSize s rnd n).1 in
  (forall pos m,
     (calculatePriority q1 pos s rnd m).1 = fl (-1000 + fl (rnd m * 100))
     /\ (-1000 <= (calculatePriority q1 pos s rnd m).1 <= -900)%Q)
  /\ (forall pos1 pos2 m1 m2,
        -800 < pos2 - lsp ->
        ((calculatePriority q1 pos1 s rnd m1).1
         < (calculatePriority q2 pos2 s rnd m2).1)%Q)
  /\ (lsp < 800 ->
      q1 ∈ allQuestionIds (bank s) -> q2 ∈ queue -> q1 ∈ queue)
  /\ (2 <= level (getSpacedRepData s q2) ->
      forall i j,
        queue !! i = Some q1 -> queue !! j = Some q2 -> (i < j)%nat).
Proof.
  intros Hrnd H1 H2 Hl. cbn zeta.
  assert (Hnew : forall pos m,
            (calculatePriority q1 pos s rnd m).1
            = fl (-1000 + fl (rnd m * 100))
            /\ (-1000 <= (calculatePriority q1 pos s rnd m).1 <= -900)%Q).
  { intros pos m. rewrite calculatePriority_never_seen by done.
    split; [reflexivity|]. by apply jitter_bounds. }
  assert (Hpair : forall pos1 pos2 m1 m2,
            -800 < pos2
                   - default 0 (lastSeenPosition (getSpacedRepData s q2)) ->
            ((calculatePriority q1 pos1 s rnd m1).1
             < (calculatePriority q2 pos2 s rnd m2).1)%Q).
  { intros pos1 pos2 m1 m2 Hp.
    destruct (Hnew pos1 m1) as (_ & _ & Hle).
    rewrite (calculatePriority_seen s rnd q2) by lia.
    eapply Qle_lt_trans; [exact Hle|].
    change (-900)%Q with (inject_Z (-900)). rewrite <- Zlt_Qlt.
    by apply seen_priority_bound. }
  destruct (generateSmartQueue_selected sessionSize s rnd n)
    as (u & m & r & Hqueue & Hu & Hm & Hr).
  destruct (score_all_spec (allQuestionIds (bank s)) s rnd n)
    as [Hqids Hdata].
  set (scored := (score_all (allQuestionIds (bank s)) s rnd n).1) in *.
  set (k := Nat.min sessionSize (length (allQuestionIds (bank s)))) in *.
  split; [exact Hnew|]. split; [exact Hpair|]. split.
  - intros Hlsp Hq1 Hq2.
    assert (Hperm : (generateSmartQueue sessionSize s rnd n).1
                    ≡ₚ qid <$> take k (sort_by_priority scored)).
    { rewrite Hqueue, Hu, Hm, Hr, <- !fmap_app. by rewrite tiers_perm. }
    rewrite Hperm in Hq2. rewrite Hperm.
    apply list_elem_of_fmap in Hq2 as (y & Hy2 & Hy).
    apply list_elem_of_lookup in Hy as [j Hj].
    apply lookup_take_Some in Hj as [Hj Hjk].
    rewrite <- Hqids in Hq1.
    apply list_elem_of_fmap in Hq1 as (x & Hx1 & Hx).
    assert (Hxs : x ∈ sort_by_priority scored)
      by by apply sort_by_priority_elem.
    apply list_elem_of_lookup in Hxs as [i Hi].
    assert (Hlt : (priority x < priority y)%Q).
    { assert (Hiny : y ∈ scored)
        by (eapply sort_by_priority_elem, list_elem_of_lookup_2; exact Hj).
      apply score_all_elem in Hx as (_ & _ & kx & ->).
      apply score_all_elem in Hiny as (_ & _ & ky & ->).
      rewrite <- Hx1, <- Hy2. apply Hpair. lia. }
    assert (Hij : (i < j)%nat).
    { destruct (decide (i < j)%nat) as [|Hge]; [done|]. exfalso.
      destruct (decide (i = j)) as [->|Hne].
      - rewrite Hi in Hj. injection Hj as ->. by apply Qlt_irrefl in Hlt.
      - assert (Hba : by_priority y x).
        { eapply (StronglySorted_lookup_lt _ j i);
            [apply sort_by_priority_sorted|done|done|lia]. }
        by eapply Qlt_not_le in Hlt. }
    apply list_elem_of_fmap. exists x. split; [done|].
    apply list_elem_of_lookup. exists i. apply lookup_take_Some.
    split; [done|lia].
  - intros Hl2 i j Hi Hj.
    assert (Hsel : Forall (fun x => data x = getSpacedRepData s (qid x))
                     (take k (sort_by_priority scored))).
    { apply Forall_take. by rewrite sort_by_priority_perm. }
    destruct (tier_of_filter s _ Hsel) as (Tu & Tm & Tr).
    rewrite <- Hu in Tu. rewrite <- Hm in Tm. rewrite <- Hr in Tr.
    assert (T1 : tier_of (getSpacedRepData s q1) = 0%nat).
    { unfold tier_of. by rewrite bool_decide_eq_true_2. }
    assert (T2 : tier_of (getSpacedRepData s q2) <> 0%nat).
    { unfold tier_of. rewrite !bool_decide_eq_false_2 by lia.
      cbn. by destruct (bool_decide _). }
    rewrite Hqueue in Hi, Hj.
    destruct (decide (i < length u)%nat) as [Hiu|Hiu].
    + destruct (decide (j < length u)%nat) as [Hju|Hju]; [|lia].
      rewrite lookup_app_l in Hj by done.
      apply list_elem_of_lookup_2 in Hj.
      by eapply Forall_forall in Tu.
    + rewrite lookup_app_r in Hi by lia.
      apply list_elem_of_lookup_2, elem_of_app in Hi as [Hi|Hi].
      * eapply Forall_forall in Tm; [|exact Hi]. congruence.
      * eapply Forall_forall in Tr; [|exact Hi]. congruence.
Qed.

Lemma zero_source_valid : valid_source zero_source.
Proof. intros n. split; [apply Qle_refl|reflexivity]. Qed.

Lemma never_seen_priority_witness :
  Qlt (calculatePriority 1 0 two_questions zero_source 0%nat).1
      (calculatePriority 2 0 two_questions zero_source 1%nat).1
  /\ 1 ∈ (generateSmartQueue 30 two_questions zero_source 0%nat).1
  /\ (forall i j,
        (generateSmartQueue 30 far_position zero_source 0%nat).1 !! i
        = Some 1 ->
        (generateSmartQueue 30 far_position zero_source 0%nat).1 !! j
        = Some 2 ->
        (i < j)%nat).
Proof.
  assert (H1 : seenCount (getSpacedRepData two_questions 1) = 0)
    by (vm_compute; reflexivity).
  assert (H2 : 0 < seenCount (getSpacedRepData two_questions 2))
    by (vm_compute; reflexivity).
  assert (H3 : 0 <= level (getSpacedRepData two_questions 2) <= 5)
    by (vm_compute; split; discriminate).
  assert (F1 : seenCount (getSpacedRepData far_position 1) = 0)
    by (vm_compute; reflexivity).
  assert (F2 : 0 < seenCount (getSpacedRepData far_position 2))
    by (vm_compute; reflexivity).
  assert (F3 : 0 <= level (getSpacedRepData far_position 2) <= 5)
    by (vm_compute; split; discriminate).
  assert (F4 : 2 <= level (getSpacedRepData far_position 2))
    by (vm_compute; discriminate).
  destruct (never_seen_priority 30 two_questions zero_source 0%nat 1 2
              zero_source_valid H1 H2 H3) as (_ & Hpair & Hsel & _).
  destruct (never_seen_priority 30 far_position zero_source 0%nat 1 2
              zero_source_valid F1 F2 F3) as (_ & _ & _ & Hord).
  split_and!.
  - apply Hpair. vm_compute. reflexivity.
  - apply Hsel.
    + vm_compute. reflexivity.
    + apply (bool_decide_unpack _). vm_compute. exact I.
    + apply (bool_decide_unpack _). vm_compute. exact I.
  - exact (Hord F4).
Defined.

(** C5 as stated fails on the code: with the questions 1 (never seen) and 2
    (seen, level 0) both in the urgent tier, the draws 0, 0 give the queue
    2, 1: the seen question comes first.  And a seen question whose last
    position is far past the current one scores below a never-seen one. *)
Lemma generateSmartQueue_counterexample :
  seenCount (getSpacedRepData two_questions 1) = 0
  /\ 0 < seenCount (getSpacedRepData two_questions 2)
  /\ (generateSmartQueue 30 two_questions zero_source 0%nat).1 = [2; 1]
  /\ seenCount (getSpacedRepData far_position 1) = 0
  /\ 0 < seenCount (getSpacedRepData far_position 2)
  /\ Qlt (calculatePriority 2 0 far_position zero_source 0%nat).1
         (calculatePriority 1 0 far_position zero_source 0%nat).1.
Proof. repeat split. Qed.

(** * Further properties of the code *)

(** ** Navigation (state.js) *)

(** X1: a round started on a non-empty sequence has its index inside the
    stack, and [nextQuestion] and [prevQuestion] keep it there, so the
    current question id stays defined. *)
Theorem navigation_in_range (s : AppState) :
  (forall type q rest now,
     index_in_range (startRound type (q :: rest) now s).2)
  /\ (index_in_range s ->
      index_in_range (nextQuestion s).2
      /\ index_in_range (prevQuestion s).2
      /\ is_Some (getCurrentQuestionId (nextQuestion s).2)
      /\ is_Some (getCurrentQuestionId (prevQuestion s).2)).
Proof.
  split.
  - intros type q rest now. unfold index_in_range. cbn. lia.
  - destruct s as [b r t p y]. destruct r as [stk i qs ao bk bs m ty ix].
    unfold index_in_range, nextQuestion, prevQuestion, getCurrentQuestionId.
    cbn [round with_round currentIndex stack set_currentIndex].
    intros Hr.
    destruct (decide (Z.of_nat i < Z.of_nat (length stk) - 1)) as [Hn|Hn];
      destruct (decide (0 < i)%nat) as [Hp|Hp];
      cbn [snd round with_round currentIndex stack set_currentIndex];
      split_and!; try apply lookup_lt_is_Some_2; lia.
Qed.

Lemma navigation_in_range_witness :
  index_in_range (nextQuestion smart_session).2.
Proof.
  refine (proj1 (proj2 (navigation_in_range smart_session) _)).
  vm_compute. lia.
Defined.

(** X2: [nextQuestion] moves exactly when the current question is not the
    last one and otherwise leaves the state as it is; a move forward
    followed by [prevQuestion] gives the first state back, and so does a
    move back followed by [nextQuestion] when the index is inside the
    stack. *)
Theorem nextQuestion_prevQuestion (s : AppState) :
  (nextQuestion s).1 = negb (isLastQuestion s)
  /\ ((nextQuestion s).1 = false -> (nextQuestion s).2 = s)
  /\ ((nextQuestion s).1 = true ->
      prevQuestion (nextQuestion s).2 = (true, s))
  /\ ((prevQuestion s).1 = true -> index_in_range s ->
      nextQuestion (prevQuestion s).2 = (true, s)).
Proof.
  destruct s as [b r t p y]. destruct r as [stk i qs ao bk bs m ty ix].
  unfold nextQuestion, prevQuestion, isLastQuestion, index_in_range.
  cbn [round with_round currentIndex stack set_currentIndex fst snd].
  split_and!.
  - destruct (decide (_ < _)); [rewrite bool_decide_eq_false_2 by lia|
                                 rewrite bool_decide_eq_true_2 by lia]; done.
  - by destruct (decide (_ < _)).
  - destruct (decide (_ < _)); [|done]. intros _.
    cbn [round with_round currentIndex stack set_currentIndex fst snd].
    rewrite decide_True by lia. reflexivity.
  - destruct (decide (0 < i)%nat) as [Hp|]; [|done]. intros _ Hr.
    cbn [round with_round currentIndex stack set_currentIndex fst snd] in *.
    rewrite decide_True by lia.
    cbn [round with_round currentIndex stack set_currentIndex].
    replace (S (Nat.pred i)) with i by lia. reflexivity.
Qed.

Lemma nextQuestion_prevQuestion_witness :
  prevQuestion (nextQuestion smart_session).2 = (true, smart_session)
  /\ (nextQuestion (nextQuestion smart_session).2).2
     = (nextQuestion smart_session).2
  /\ nextQuestion (prevQuestion (nextQuestion smart_session).2).2
     = (true, (nextQuestion smart_session).2).
Proof.
  split_and!.
  - exact (proj1 (proj2 (proj2 (nextQuestion_prevQuestion smart_session)))
             eq_refl).
  - exact (proj1 (proj2 (nextQuestion_prevQuestion
                           (nextQuestion smart_session).2)) eq_refl).
  - refine (proj2 (proj2 (proj2 (nextQuestion_prevQuestion
                                   (nextQuestion smart_session).2)))
              eq_refl _).
    vm_compute. lia.
Defined.

(** ** The question bank (state.js) *)

Lemma load_lookup_mono (arr : list QuestionData) (m : gmap Z QuestionData)
    (q : Z) :
  is_Some (m !! q) ->
  is_Some (foldl (fun m d => <[number d := d]> m) m arr !! q).
Proof.
  revert m. induction arr as [|x arr IH]; intros m Hm; cbn [foldl]; [done|].
  apply IH. rewrite lookup_insert. by destruct (decide (number x = q)).
Qed.

Lemma load_lookup_other (arr : list QuestionData) (m : gmap Z QuestionData)
    (q : Z) :
  q ∉ number <$> arr ->
  foldl (fun m d => <[number d := d]> m) m arr !! q = m !! q.
Proof.
  revert m. induction arr as [|x arr IH]; intros m Hq; cbn [foldl]; [done|].
  rewrite fmap_cons, not_elem_of_cons in Hq. destruct Hq as [Hne Hq].
  rewrite IH by done. by rewrite lookup_insert_ne.
Qed.

Lemma load_lookup_Some (arr : list QuestionData) (m : gmap Z QuestionData)
    (q : Z) (d : QuestionData) :
  foldl (fun m d => <[number d := d]> m) m arr !! q = Some d ->
  (number d = q /\ d ∈ arr) \/ m !! q = Some d.
Proof.
  revert m. induction arr as [|x arr IH]; intros m Hd; cbn [foldl] in Hd.
  - by right.
  - destruct (IH _ Hd) as [[Hn Hin]|Hm].
    + left. split; [done|]. by right.
    + rewrite lookup_insert in Hm.
      destruct (decide (number x = q)) as [<-|]; [|by right].
      injection Hm as <-. left. split; [done|]. by left.
Qed.

(** X3: after [loadQuestions] the ids are the numbers of the array, in its
    order; an id is listed exactly when a question is stored under it; a
    stored question carries the id it is stored under and comes from the
    array; of several questions with one number the last one is stored;
    the exams, the round and the progress are not touched. *)
Theorem loadQuestions_bank (arr : list QuestionData) (s : AppState) :
  let s' := loadQuestions arr s in
  allQuestionIds (bank s') = number <$> arr
  /\ (forall q, q ∈ allQuestionIds (bank s') <-> is_Some (getQuestion s' q))
  /\ (forall q d, getQuestion s' q = Some d -> number d = q /\ d ∈ arr)
  /\ (forall l1 d l2,
        arr = l1 ++ d :: l2 -> number d ∉ number <$> l2 ->
        getQuestion s' (number d) = Some d)
  /\ exams (bank s') = exams (bank s)
  /\ round s' = round s /\ progress s' = progress s.
Proof.
  cbn zeta. unfold loadQuestions, getQuestion.
  cbn [bank with_bank questions allQuestionIds exams round progress].
  split_and!; try reflexivity.
  - intros q. split.
    + intros (d & -> & Hd)%list_elem_of_fmap.
      apply list_elem_of_split in Hd as (l1 & l2 & ->).
      rewrite foldl_app. cbn [foldl]. apply load_lookup_mono.
      rewrite lookup_insert_eq. by eexists.
    + intros [d Hd]. apply load_lookup_Some in Hd as [[<- Hin]|Hd].
      * by apply list_elem_of_fmap_2.
      * by rewrite lookup_empty in Hd.
  - intros q d Hd. apply load_lookup_Some in Hd as [?|Hd]; [done|].
    by rewrite lookup_empty in Hd.
  - intros l1 d l2 -> Hlast. rewrite foldl_app. cbn [foldl].
    rewrite load_lookup_other by done. apply lookup_insert_eq.
Qed.

Lemma loadQuestions_bank_witness :
  getQuestion (loadQuestions [sample_question] initial) 1
  = Some sample_question.
Proof.
  refine (proj1 (proj2 (proj2 (proj2
            (loadQuestions_bank [sample_question] initial))))
            [] sample_question [] eq_refl _).
  cbn. apply not_elem_of_nil.
Defined.

(** ** Flags and notes (state.js) *)

Lemma getQuestionMeta_insert (q q' : Z) (m : QuestionMeta) (s : AppState) :
  getQuestionMeta
    (with_progress
       (set_questionMeta (<[q := m]> (questionMeta (progress s)))) s) q'
  = if decide (q = q') then m else getQuestionMeta s q'.
Proof.
  unfold getQuestionMeta. cbn.
  rewrite lookup_insert. by destruct (decide (q = q')).
Qed.

Lemma getQuestionMeta_toggle (q q' : Z) (s : AppState) :
  getQuestionMeta (toggleQuestionFlag q s).2 q'
  = if decide (q = q')
    then {| flagged := negb (flagged (getQuestionMeta s q));
            note := note (getQuestionMeta s q) |}
    else getQuestionMeta s q'.
Proof. unfold toggleQuestionFlag. cbn [snd]. apply getQuestionMeta_insert. Qed.

(** X4: [toggleQuestionFlag] returns the negated flag and stores it,
    keeping the note and the metadata of every other question; toggling
    twice gives every question its first metadata back, and so does
    pressing the flag button twice ([handleFlag]); [setQuestionNote]
    stores the note and keeps the flag. *)
Theorem toggleQuestionFlag_involutive (q : Z) (s : AppState) :
  let s1 := (toggleQuestionFlag q s).2 in
  (toggleQuestionFlag q s).1 = negb (flagged (getQuestionMeta s q))
  /\ (forall q',
        getQuestionMeta s1 q'
        = if decide (q = q')
          then {| flagged := negb (flagged (getQuestionMeta s q));
                  note := note (getQuestionMeta s q) |}
          else getQuestionMeta s q')
  /\ (forall q',
        getQuestionMeta (toggleQuestionFlag q s1).2 q' = getQuestionMeta s q')
  /\ (forall text q',
        getQuestionMeta (setQuestionNote q text s) q'
        = if decide (q = q')
          then {| flagged := flagged (getQuestionMeta s q); note := text |}
          else getQuestionMeta s q')
  /\ (forall q',
        getQuestionMeta (Main.handleFlag (Main.handleFlag s)) q'
        = getQuestionMeta s q').
Proof.
  cbn zeta. split_and!; [reflexivity|..].
  - intros q'. apply getQuestionMeta_toggle.
  - intros q'. rewrite !getQuestionMeta_toggle.
    destruct (decide (q = q')) as [<-|Hne]; [|done].
    rewrite decide_True by done.
    cbn [flagged note]. rewrite negb_involutive.
    by destruct (getQuestionMeta s q).
  - intros text q'. unfold setQuestionNote. apply getQuestionMeta_insert.
  - intros q'. unfold Main.handleFlag.
    destruct (getCurrentQuestionId s) as [qid|] eqn:Hid; [|by rewrite Hid].
    destruct (truthy (Some qid)) eqn:Ht; [|by rewrite Hid, Ht].
    change (getCurrentQuestionId (toggleQuestionFlag qid s).2)
      with (getCurrentQuestionId s).
    rewrite Hid, Ht, !getQuestionMeta_toggle.
    destruct (decide (qid = q')) as [<-|Hne]; [|done].
    rewrite decide_True by done.
    cbn [flagged note]. rewrite negb_involutive.
    by destruct (getQuestionMeta s qid).
Qed.

(** ** The keys of an object (utils) *)

Section Object_entries.

Context {A : Type}.

Lemma Object_entries_perm (obj : gmap Z A) :
  Object_entries obj ≡ₚ map_to_list obj.
Proof. apply merge_sort_Permutation. Qed.

Lemma Object_entries_elem (obj : gmap Z A) (k : Z) (v : A) :
  (k, v) ∈ Object_entries obj <-> obj !! k = Some v.
Proof. by rewrite Object_entries_perm, elem_of_map_to_list. Qed.

Lemma Object_entries_NoDup (obj : gmap Z A) : NoDup (Object_entries obj).*1.
Proof.
  rewrite Object_entries_perm. apply NoDup_fst_map_to_list.
Qed.

Lemma Object_entries_empty : Object_entries (∅ : gmap Z A) = [].
Proof. unfold Object_entries. by rewrite map_to_list_empty. Qed.

Lemma Object_keys_elem (obj : gmap Z A) (k : Z) :
  k ∈ Object_keys obj <-> is_Some (obj !! k).
Proof.
  unfold Object_keys. rewrite list_elem_of_fmap. split.
  - intros ([k' v] & -> & Hin). apply Object_entries_elem in Hin. by eexists.
  - intros [v Hv]. exists (k, v). split; [done|].
    by apply Object_entries_elem.
Qed.

End Object_entries.

(** X5: [getFlaggedQuestionIds] lists, without repetition, exactly the
    questions whose flag is set; toggling the flag of a question moves it
    in or out of the list; after [resetAllData] the list is empty. *)
Theorem getFlaggedQuestionIds_spec (s : AppState) :
  NoDup (getFlaggedQuestionIds s)
  /\ (forall q, q ∈ getFlaggedQuestionIds s
                <-> flagged (getQuestionMeta s q) = true)
  /\ (forall q, q ∈ getFlaggedQuestionIds (toggleQuestionFlag q s).2
                <-> q ∉ getFlaggedQuestionIds s)
  /\ getFlaggedQuestionIds (resetAllData s) = [].
Proof.
  assert (Hmem : forall s0 q, q ∈ getFlaggedQuestionIds s0
                              <-> flagged (getQuestionMeta s0 q) = true).
  { intros s0 q. unfold getFlaggedQuestionIds, getQuestionMeta.
    rewrite list_elem_of_fmap. split.
    - intros ([k m] & -> & Hin). apply list_elem_of_filter in Hin as [Hf Hin].
      apply Object_entries_elem in Hin. cbn [fst snd] in *. by rewrite Hin.
    - destruct (questionMeta (progress s0) !! q) as [m|] eqn:Hm; [|done].
      cbn. intros Hf. exists (q, m). split; [done|].
      apply list_elem_of_filter. split; [done|].
      by apply Object_entries_elem. }
  split_and!.
  - unfold getFlaggedQuestionIds.
    eapply sublist_NoDup; [apply (Object_entries_NoDup
                                    (questionMeta (progress s)))|].
    apply fmap_sublist, sublist_filter.
  - apply Hmem.
  - intros q. rewrite !Hmem.
    rewrite getQuestionMeta_toggle, decide_True by done. cbn [flagged].
    destruct (flagged (getQuestionMeta s q)); cbn; split; congruence.
  - unfold getFlaggedQuestionIds, resetAllData. cbn.
    by rewrite Object_entries_empty.
Qed.

(** X6: [getAllWeakQuestionIds] lists, without repetition, exactly the
    questions that have a wrong count; [incrementWrongCount] adds its
    question to them and gives it a count one above the old one (1 when it
    had none); after [clearStats] there is none. *)
Theorem getAllWeakQuestionIds_spec (s : AppState) :
  NoDup (Stats.getAllWeakQuestionIds s)
  /\ (forall q, q ∈ Stats.getAllWeakQuestionIds s
                <-> is_Some (wrongCounts (progress s) !! q))
  /\ (forall q q',
        q' ∈ Stats.getAllWeakQuestionIds (incrementWrongCount q s)
        <-> q' = q \/ q' ∈ Stats.getAllWeakQuestionIds s)
  /\ (forall q,
        wrongCounts (progress (incrementWrongCount q s)) !! q
        = Some (default 0 (wrongCounts (progress s) !! q) + 1))
  /\ Stats.getAllWeakQuestionIds (clearStats s) = [].
Proof.
  unfold Stats.getAllWeakQuestionIds. split_and!.
  - apply Object_entries_NoDup.
  - intros q. apply Object_keys_elem.
  - intros q q'. rewrite !Object_keys_elem. unfold incrementWrongCount.
    cbn [progress with_progress wrongCounts set_wrongCounts].
    rewrite lookup_insert. destruct (decide (q = q')) as [->|Hne].
    + split; [by left|by eexists].
    + split; [by right|]. by intros [->|?].
  - intros q. unfold incrementWrongCount. cbn. apply lookup_insert_eq.
  - unfold clearStats, Object_keys. cbn. by rewrite Object_entries_empty.
Qed.

(** ** Shuffling and percentages (utils.js) *)




Lemma round_div_bounds (p q lo hi : Z) :
  0 < q -> lo * q <= p <= hi * q -> lo <= round_div p q <= hi.
Proof.
  intros Hq [Hlo Hhi]. unfold round_div. split.
  - apply Z.div_le_lower_bound; lia.
  - apply Z.lt_succ_r, Z.div_lt_upper_bound; lia.
Qed.

(** X8: [calcPercent] of a part between 0 and the total is between 0 and
    100; it is 0 for the total 0, whatever the part, and 100 when the part
    is the whole of a positive total; with a positive total it grows with
    the part.  The quotient and the product are each rounded to a double
    before [Math.round] is taken: 23 of 40 gives 57, although 57.5 is
    rounded to 58. *)
Theorem calcPercent_bounds (part total : Z) :
  calcPercent part 0 = 0
  /\ (0 < total -> calcPercent total total = 100)
  /\ (0 <= part <= total -> 0 <= calcPercent part total <= 100)
  /\ (0 < total ->
      forall part', part <= part' ->
                    calcPercent part total <= calcPercent part' total)
  /\ calcPercent 23 40 = 57
  /\ Math_round ((23 # 40) * 100) = 58.
Proof.
  split_and!.
  - reflexivity.
  - intros Ht. unfold calcPercent. rewrite decide_False by lia.
    assert (Hq : (inject_Z total / inject_Z total == 1)%Q).
    { rewrite Zlt_Qlt in Ht. change (inject_Z 0) with 0%Q in Ht.
      field. lra. }
    assert (Hhi : Math_round (fl (fl (inject_Z total / inject_Z total) * 100))
                  <= 100) by (apply percent_bounds; lra).
    assert (Hlo : Math_round (fl (fl 1 * 100))
                  <= Math_round
                       (fl (fl (inject_Z total / inject_Z total) * 100)))
      by (apply percent_mono; lra).
    assert (Hv : Math_round (fl (fl 1 * 100)) = 100)
      by (vm_compute; reflexivity).
    lia.
  - apply calcPercent_range.
  - intros Ht part' Hp. unfold calcPercent. rewrite !decide_False by lia.
    apply percent_mono.
    rewrite Zlt_Qlt in Ht. change (inject_Z 0) with 0%Q in Ht.
    rewrite Zle_Qle in Hp.
    apply Qle_shift_div_l; [done|].
    assert (H : (inject_Z part / inject_Z total * inject_Z total
                 == inject_Z part)%Q) by (field; lra).
    lra.
  - vm_compute. reflexivity.
  - vm_compute. reflexivity.
Qed.

Lemma calcPercent_bounds_witness : 0 <= calcPercent 2 3 <= 100.
Proof.
  refine (proj1 (proj2 (proj2 (calcPercent_bounds 2 3))) _). lia.
Defined.

(** X9: with a positive total below [2 ^ 32], as the length of an array
    is, [isPassed] holds exactly when the correct answers are at least
    71.5 percent of the total (143 * total <= 200 * correct): the
    percentage, computed in doubles, is rounded before it is compared
    with 72.  With the total 0 it never holds. *)
Theorem isPassed_threshold (n_correct total : Z) :
  isPassed n_correct 0 = false
  /\ (0 < total < 2 ^ 32 ->
      (isPassed n_correct total = true <-> 143 * total <= 200 * n_correct)).
Proof.
  unfold isPassed, calcPercent, PASS_THRESHOLD. split.
  - reflexivity.
  - intros Ht. rewrite decide_False by lia.
    rewrite bool_decide_eq_true. by apply percent_threshold.
Qed.

Lemma isPassed_threshold_witness :
  isPassed 2 3 = false /\ isPassed 143 200 = true.
Proof.
  split.
  - apply not_true_is_false. intros H.
    apply (proj2 (isPassed_threshold 2 3)) in H; lia.
  - apply (proj2 (isPassed_threshold 143 200)); lia.
Defined.

(** ** Exam sets, answer orders and statistics (quiz.js) *)

Lemma concat_slices {A} (l : list A) (k n : nat) :
  concat ((fun i => slice (i * k) ((i + 1) * k) l) <$> seq 0 n)
  = take (n * k) l.
Proof.
  induction n as [|n IH]; [done|].
  rewrite seq_S, fmap_app, concat_app, IH. cbn [fmap list_fmap concat].
  rewrite app_nil_r. unfold slice.
  replace ((0 + n + 1) * k - (0 + n) * k)%nat with k by lia.
  replace ((0 + n) * k)%nat with (n * k)%nat by lia.
  rewrite take_take_drop. f_equal. lia.
Qed.

Lemma exam_size_covers (n : nat) : (n <= 5 * exam_size n)%nat.
Proof.
  unfold exam_size, TOTAL_EXAMS.
  pose proof (Z.mul_succ_div_gt (Z.of_nat n + 5 - 1) 5 ltac:(lia)).
  pose proof (Z.div_pos (Z.of_nat n + 5 - 1) 5 ltac:(lia) ltac:(lia)).
  lia.
Qed.

(** X10: [generateExams] returns 5 groups whose concatenation is a
    permutation of the ids, each of at most ceil(n / 5) ids; so the groups
    of ids that are distinct are disjoint and cover them. *)
Theorem generateExams_partition (ids : list Z) (rnd : nat -> Q) (n : nat) :
  let groups := (generateExams ids rnd n).1 in
  length groups = 5%nat
  /\ concat groups ≡ₚ ids
  /\ Forall (fun g => (length g <= exam_size (length ids))%nat) groups
  /\ (NoDup ids -> NoDup (concat groups)).
Proof.
  cbn zeta. unfold generateExams, bind.
  destruct (shuffle ids rnd n) as [shuffled n'] eqn:Hs.
  pose proof (shuffle_perm ids rnd n) as Hp.
  rewrite Hs in Hp. cbn [fst] in Hp. cbn [ret fst].
  assert (Hlen : length shuffled = length ids) by by rewrite Hp.
  assert (Hcat : concat ((fun i => slice (i * exam_size (length shuffled))
                                     ((i + 1) * exam_size (length shuffled))
                                     shuffled)
                           <$> seq 0 (Z.to_nat TOTAL_EXAMS)) ≡ₚ ids).
  { rewrite concat_slices, take_ge; [done|].
    pose proof (exam_size_covers (length shuffled)).
    change (Z.to_nat TOTAL_EXAMS) with 5%nat. lia. }
  split_and!.
  - by rewrite length_fmap, length_seq.
  - exact Hcat.
  - apply Forall_fmap, Forall_forall. intros i _. cbn.
    unfold slice. rewrite length_take, Hlen. lia.
  - intros Hnd. by rewrite Hcat.
Qed.

Lemma generateExams_partition_witness :
  NoDup (concat (generateExams [1; 2; 3; 4; 5; 6; 7] zero_source 0%nat).1).
Proof.
  refine (proj2 (proj2 (proj2
            (generateExams_partition [1; 2; 3; 4; 5; 6; 7] zero_source 0%nat)))
            _).
  apply (bool_decide_unpack _). vm_compute. exact I.
Defined.

Lemma same_but_answerOrder_refl (s : AppState) : same_but_answerOrder s s.
Proof.
  exists (answerOrder (round s)). by destruct s as [b [] t p y].
Qed.

Lemma ensureAnswerOrder_frame (q : Z) (s : AppState) (rnd : nat -> Q)
    (n : nat) :
  same_but_answerOrder s (ensureAnswerOrder q s rnd n).1.
Proof.
  unfold ensureAnswerOrder.
  destruct (getAnswerOrder s q); [apply same_but_answerOrder_refl|].
  destruct (getQuestion s q); [|apply same_but_answerOrder_refl].
  unfold bind. destruct (shuffle _ rnd n) as [shuffled n']. cbn [ret fst].
  by eexists.
Qed.

(** X11: [ensureAnswerOrder] changes the answer orders at most; for a
    question that is loaded it leaves an order that is either the one
    stored before or, when there was none, a permutation of the answers of
    the question; the order of every other question is kept; a second call
    draws no number and changes nothing. *)
Theorem ensureAnswerOrder_stable (q : Z) (s : AppState) (rnd : nat -> Q)
    (n : nat) :
  let s1 := (ensureAnswerOrder q s rnd n).1 in
  same_but_answerOrder s s1
  /\ (forall rnd' n', ensureAnswerOrder q s1 rnd' n' = (s1, n'))
  /\ (forall q', getAnswerOrder s1 q'
                 = if decide (q = q') then getAnswerOrder s1 q
                   else getAnswerOrder s q')
  /\ (forall qd, getQuestion s q = Some qd ->
        exists order,
          getAnswerOrder s1 q = Some order
          /\ (getAnswerOrder s q = Some order
              \/ (getAnswerOrder s q = None /\ order ≡ₚ answers qd)))
  /\ (getQuestion s q = None -> s1 = s).
Proof.
  cbn zeta. split; [apply ensureAnswerOrder_frame|].
  unfold ensureAnswerOrder.
  destruct (getAnswerOrder s q) as [order|] eqn:Ho.
  { cbn [ret fst]. split_and!.
    - intros rnd' n'. rewrite Ho. reflexivity.
    - intros q'. by destruct (decide (q = q')) as [<-|].
    - intros qd _. exists order. split; [done|by left].
    - done. }
  destruct (getQuestion s q) as [qd|] eqn:Hq.
  2:{ cbn [ret fst]. split_and!.
      - intros rnd' n'. rewrite Ho, Hq. reflexivity.
      - intros q'. by destruct (decide (q = q')) as [<-|].
      - done.
      - done. }
  unfold bind. destruct (shuffle (answers qd) rnd n) as [shuffled n'] eqn:Hs.
  cbn [ret fst].
  assert (Hget : forall q', getAnswerOrder (setAnswerOrder q shuffled s) q'
                            = if decide (q = q') then Some shuffled
                              else getAnswerOrder s q').
  { intros q'. unfold getAnswerOrder, setAnswerOrder. cbn.
    rewrite lookup_insert. by destruct (decide (q = q')). }
  split_and!.
  - intros rnd' n0. rewrite Hget, decide_True by done. reflexivity.
  - intros q'. rewrite !Hget.
    destruct (decide (q = q')) as [<-|]; [|done].
    by rewrite decide_True.
  - intros qd' [= <-]. exists shuffled. rewrite Hget, decide_True by done.
    split; [done|]. right. split; [done|].
    pose proof (shuffle_perm (answers qd) rnd n) as Hp.
    by rewrite Hs in Hp.
  - done.
Qed.

Lemma ensureAnswerOrder_stable_witness :
  exists order,
    getAnswerOrder (ensureAnswerOrder 1 sample_state zero_source 0%nat).1 1
    = Some order
    /\ order ≡ₚ answers sample_question.
Proof.
  destruct (proj1 (proj2 (proj2 (proj2
              (ensureAnswerOrder_stable 1 sample_state zero_source 0%nat))))
              sample_question eq_refl)
    as (order & Hget & [Hold | [_ Hperm]]).
  - exists order. split; [exact Hget|]. discriminate Hold.
  - exists order. split; [exact Hget|exact Hperm].
Defined.

Lemma filter_snoc_length (f : Z -> bool) (l : list Z) (x : Z) :
  Z.of_nat (length (filter (fun q => f q = true) (l ++ [x])))
  = Z.of_nat (length (filter (fun q => f q = true) l)) + Z.b2z (f x).
Proof.
  rewrite filter_snoc_bool, length_app. destruct (f x); cbn; lia.
Qed.

Lemma foldr_add_snoc (l : list Z) (z : Z) :
  foldr Z.add 0 (l ++ [z]) = foldr Z.add 0 l + z.
Proof. induction l as [|y l IH]; cbn; [lia|]. rewrite IH. lia. Qed.

Lemma computeStats_step_counts (qs : gmap Z QuestionState) (acc : ExamStats)
    (x : Z) :
  stats_correct (computeStats_step qs acc x)
  = stats_correct acc + Z.b2z (is_correct qs x)
  /\ totalTime (computeStats_step qs acc x)
     = totalTime acc + answered_time qs x
  /\ correctButNotSure (computeStats_step qs acc x)
     = correctButNotSure acc
       ++ (if is_correct qs x && is_notSure qs x then [x] else [])
  /\ Z.b2z (is_correct qs x) + Z.b2z (is_wrong qs x)
     = Z.b2z (is_answered qs x).
Proof.
  unfold computeStats_step, is_correct, is_notSure, is_wrong, is_answered,
    answered_time.
  destruct (qs !! x) as [st|];
    [|cbn; rewrite app_nil_r; split_and!; (done || lia)].
  destruct (status st), (notSure st), (dontKnow st);
    repeat case_bool_decide; try done;
    cbn; rewrite ?app_nil_r; split_and!; (done || lia).
Qed.

Lemma computeStats_invariant (qs : gmap Z QuestionState) (ids : list Z) :
  stats_correct (computeStats qs ids)
  = Z.of_nat (length (filter (fun q => is_correct qs q = true) ids))
  /\ Z.of_nat (length (filter (fun q => is_correct qs q = true) ids))
     + Z.of_nat (length (filter (fun q => is_wrong qs q = true) ids))
     = Z.of_nat (length (filter (fun q => is_answered qs q = true) ids))
  /\ totalTime (computeStats qs ids)
     = foldr Z.add 0 (answered_time qs <$> ids)
  /\ correctButNotSure (computeStats qs ids)
     = filter (fun q => is_correct qs q && is_notSure qs q = true) ids.
Proof.
  unfold computeStats.
  induction ids as [|x ids IH] using rev_ind; [done|].
  rewrite foldl_app. cbn [foldl].
  destruct IH as (IHc & IHa & IHt & IHb).
  destruct (computeStats_step_counts qs
              (foldl (computeStats_step qs)
                 {| stats_correct := 0; wrong := []; dk := []; ns := [];
                    correctButNotSure := []; totalTime := 0 |} ids) x)
    as (Hc & Ht & Hb & Hx).
  rewrite Hc, Ht, Hb, IHc, IHt, IHb, !filter_snoc_length.
  split_and!; [done|lia| |].
  - rewrite fmap_app. cbn [fmap list_fmap]. by rewrite foldr_add_snoc.
  - by rewrite (filter_snoc_bool (fun q => is_correct qs q && is_notSure qs q)).
Qed.

Lemma computeStats_correct_bounds (qs : gmap Z QuestionState) (ids : list Z) :
  0 <= stats_correct (computeStats qs ids) <= Z.of_nat (length ids).
Proof.
  rewrite (proj1 (computeStats_invariant qs ids)).
  pose proof (length_filter (fun q => is_correct qs q = true) ids). lia.
Qed.

(** X12: in the result of [computeStats] the count of correct answers is
    the number of ids answered correctly; together with the wrong ids it
    accounts for every answered id, so it is at most the number of ids; the
    total time is the sum of the times of the answered ids; the ids that
    are correct but not sure are the not-sure ids answered correctly, and
    none of them is among the wrong ones. *)
Theorem computeStats_counts (qs : gmap Z QuestionState) (ids : list Z) :
  let st := computeStats qs ids in
  stats_correct st
  = Z.of_nat (length (filter (fun q => is_correct qs q = true) ids))
  /\ stats_correct st + Z.of_nat (length (wrong st))
     = Z.of_nat (length (filter (fun q => is_answered qs q = true) ids))
  /\ 0 <= stats_correct st <= Z.of_nat (length ids)
  /\ totalTime st = foldr Z.add 0 (answered_time qs <$> ids)
  /\ correctButNotSure st
     = filter (fun q => is_correct qs q && is_notSure qs q = true) ids
  /\ (forall q, q ∈ correctButNotSure st -> q ∈ ns st /\ q ∉ wrong st).
Proof.
  cbn zeta.
  destruct (computeStats_lists qs ids) as (Hw & Hn & _).
  destruct (computeStats_invariant qs ids) as (Hc & Ha & Ht & Hb).
  pose proof (computeStats_correct_bounds qs ids) as Hle.
  split_and!; [done|by rewrite Hc, Hw|lia|lia|done|done|].
  intros q. rewrite Hb, Hn, Hw, !list_elem_of_filter.
  intros [Hq Hin]. apply andb_true_iff in Hq as [Hc' Hn'].
  split; [done|]. intros [Hw' _].
  unfold is_correct, is_wrong in *. destruct (qs !! q); [|done].
  apply bool_decide_eq_true in Hc', Hw'. congruence.
Qed.

Lemma computeStats_counts_witness :
  5 ∈ ns (computeStats example_unsure [5; 7])
  /\ 5 ∉ wrong (computeStats example_unsure [5; 7]).
Proof.
  refine (proj2 (proj2 (proj2 (proj2 (proj2
            (computeStats_counts example_unsure [5; 7]))))) 5 _).
  vm_compute. constructor.
Defined.

(** ** The clocks (timer.js) *)

(** X13: after [resetQuestionTimer] at a time [t0] other than 0, the time
    elapsed on the question is the number of seconds nearest to [now - t0]
    (within half a second, halves rounded up), hence 0 at [t0] itself; a
    clock restarted at the time 0 reads 0 for ever, as a clock that was
    never started does. *)
Theorem getQuestionElapsed_bounds (now t0 : Z) (s : AppState) :
  getQuestionElapsed now (resetQuestionTimer 0 s) = 0
  /\ (t0 ≠ 0 ->
      let e := getQuestionElapsed now (resetQuestionTimer t0 s) in
      -500 <= now - t0 - 1000 * e < 500)
  /\ (t0 ≠ 0 -> getQuestionElapsed t0 (resetQuestionTimer t0 s) = 0).
Proof.
  unfold getQuestionElapsed, resetQuestionTimer, getQuestionStartTime.
  cbn [timing setQuestionStartTime with_timing questionStartTime
       set_questionStartTime].
  split_and!; [reflexivity| |].
  - intros Ht. rewrite (truthy_Some t0 Ht). cbn zeta. unfold round_div.
    change (2 * 1000) with 2000.
    pose proof (Z.mul_div_le (2 * (now - t0) + 1000) 2000 ltac:(lia)).
    pose proof (Z.mul_succ_div_gt (2 * (now - t0) + 1000) 2000 ltac:(lia)).
    lia.
  - intros Ht. rewrite (truthy_Some t0 Ht). unfold round_div.
    replace (2 * (t0 - t0) + 1000) with 1000 by lia. reflexivity.
Qed.

Lemma getQuestionElapsed_bounds_witness :
  getQuestionElapsed 1000 (resetQuestionTimer 1000 initial) = 0.
Proof.
  refine (proj2 (proj2 (getQuestionElapsed_bounds 1000 1000 initial)) _).
  discriminate.
Defined.

Lemma getExamStartTime_startExamTimer (now interval : Z) (s : AppState) :
  getExamStartTime (startExamTimer now interval s) = Some now.
Proof.
  unfold startExamTimer. cbv zeta.
  by destruct (isLearningMode (setExamStartTime (Some now) (stopExamTimer s))).
Qed.

(** X14: for an exam started at a time [t0] other than 0, the tick of the
    exam clock leaves the state alone while less than 105 minutes have
    passed and calls the callback at every tick from then on; without a
    callback, or before the exam clock was started, it does nothing. *)
Theorem updateExamTimer_expiry (callback : AppState -> AppState)
    (now t0 interval : Z) (s : AppState) :
  updateExamTimer None now s = s
  /\ (getExamStartTime s = None -> updateExamTimer (Some callback) now s = s)
  /\ (t0 ≠ 0 -> now - t0 < 105 * 60 * 1000 ->
      updateExamTimer (Some callback) now (startExamTimer t0 interval s)
      = startExamTimer t0 interval s)
  /\ (t0 ≠ 0 -> 105 * 60 * 1000 <= now - t0 ->
      updateExamTimer (Some callback) now (startExamTimer t0 interval s)
      = callback (startExamTimer t0 interval s)).
Proof.
  assert (Hrem : forall t, remaining now t = 0 <-> 6300000 <= now - t).
  { intros t. unfold remaining, TIME_LIMIT_SECONDS, TIME_LIMIT_MINUTES.
    pose proof (Z.mul_div_le (now - t) 1000 ltac:(lia)).
    pose proof (Z.mul_succ_div_gt (now - t) 1000 ltac:(lia)).
    lia. }
  unfold updateExamTimer. split_and!.
  - destruct (getExamStartTime s) as [t|]; [|done].
    destruct (truthy (Some t)); [|done]. by destruct (decide _).
  - by intros ->.
  - intros Ht Hlt. rewrite getExamStartTime_startExamTimer.
    rewrite (truthy_Some t0 Ht), decide_False; [done|].
    rewrite Hrem. lia.
  - intros Ht Hge. rewrite getExamStartTime_startExamTimer.
    rewrite (truthy_Some t0 Ht), decide_True; [done|].
    rewrite Hrem. lia.
Qed.

Lemma updateExamTimer_expiry_witness :
  updateExamTimer (Some (Main.finishExam 6301000)) 6301000
    (startExamTimer 1000 7 smart_session)
  = Main.finishExam 6301000 (startExamTimer 1000 7 smart_session)
  /\ updateExamTimer (Some (Main.finishExam 2000)) 2000
       (startExamTimer 1000 7 smart_session)
     = startExamTimer 1000 7 smart_session
  /\ updateExamTimer (Some (Main.finishExam 2000)) 2000 initial = initial.
Proof.
  split_and!.
  - refine (proj2 (proj2 (proj2
              (updateExamTimer_expiry (Main.finishExam 6301000) 6301000 1000
                 7 smart_session))) _ _); [discriminate|lia].
  - refine (proj1 (proj2 (proj2
              (updateExamTimer_expiry (Main.finishExam 2000) 2000 1000
                 7 smart_session))) _ _); [discriminate|lia].
  - exact (proj1 (proj2
             (updateExamTimer_expiry (Main.finishExam 2000) 2000 0 7
                initial))
             eq_refl).
Defined.

(** ** History statistics (stats.js, state.js) *)

Lemma sum_of_bounds (f : HistoryEntry -> Z) (h : list HistoryEntry)
    (lo hi : Z) :
  (forall e, e ∈ h -> lo <= f e <= hi) ->
  lo * Z.of_nat (length h) <= Stats.sum_of f h <= hi * Z.of_nat (length h).
Proof.
  unfold Stats.sum_of. intros Hb.
  induction h as [|e h IH] using rev_ind; [cbn; lia|].
  rewrite foldl_app, length_app. cbn [foldl length].
  pose proof (Hb e ltac:(apply elem_of_app; right; by left)).
  pose proof (IH (fun e' He' => Hb e' ltac:(apply elem_of_app; by left))).
  lia.
Qed.

(** X15: [calculateOverallStats] counts the entries of the history; on an
    empty history every figure is 0; the pass rate is between 0 and 100;
    when every percentage of a non-empty history is between two bounds, so
    is the average score. *)
Theorem calculateOverallStats_bounds (s : AppState) (lo hi : Z) :
  let st := Stats.calculateOverallStats s in
  Stats.totalExams st = Z.of_nat (length (history (progress s)))
  /\ 0 <= Stats.passRate st <= 100
  /\ (history (progress s) = [] ->
      Stats.avgScore st = 0 /\ Stats.avgTime st = 0 /\ Stats.passRate st = 0)
  /\ (history (progress s) ≠ [] ->
      (forall e, e ∈ history (progress s) -> lo <= he_pct e <= hi) ->
      lo <= Stats.avgScore st <= hi).
Proof.
  cbn zeta. unfold Stats.calculateOverallStats.
  destruct (history (progress s)) as [|e h] eqn:Hh.
  { cbn. split_and!; (done || lia). }
  rewrite decide_False by (cbn [length]; lia).
  cbn [Stats.totalExams Stats.avgScore Stats.avgTime Stats.passRate].
  assert (Hrate : 0 <= calcPercent
            (Z.of_nat (length (filter (fun e0 => PASS_THRESHOLD <= he_pct e0)
                                 (e :: h))))
            (Z.of_nat (length (e :: h))) <= 100).
  { apply calcPercent_range.
    pose proof (length_filter (fun e0 => PASS_THRESHOLD <= he_pct e0) (e :: h)).
    lia. }
  split; [done|]. split; [exact Hrate|]. split; [done|].
  intros _ Hb. apply round_div_bounds; [cbn [length]; lia|].
  by apply sum_of_bounds.
Qed.

Lemma calculateOverallStats_bounds_witness :
  50 <= Stats.avgScore (Stats.calculateOverallStats two_entries) <= 100
  /\ Stats.avgScore (Stats.calculateOverallStats initial) = 0.
Proof.
  split.
  - refine (proj2 (proj2 (proj2
              (calculateOverallStats_bounds two_entries 50 100))) _ _).
    + discriminate.
    + intros e He.
      repeat (apply elem_of_cons in He as [->|He]);
        [..|by apply elem_of_nil in He]; cbn; lia.
  - exact (proj1 (proj1 (proj2 (proj2
             (calculateOverallStats_bounds initial 0 0))) eq_refl)).
Defined.

(** X16: [getRecentHistory n] for a positive [n] returns the last [n]
    entries of the history (all of them when there are fewer), in their
    order; for [n = 0] it returns the whole history, not the empty list. *)
Theorem getRecentHistory_spec (n : nat) (s : AppState) :
  Stats.getRecentHistory 0 s = history (progress s)
  /\ (n ≠ 0%nat ->
      length (Stats.getRecentHistory n s)
      = Nat.min n (length (history (progress s)))
      /\ exists older,
           history (progress s) = older ++ Stats.getRecentHistory n s).
Proof.
  unfold Stats.getRecentHistory. split; [reflexivity|].
  intros Hn. rewrite decide_False by done. split.
  - apply slice_last_length.
  - exists (take (length (history (progress s)) - n) (history (progress s))).
    unfold slice_last. by rewrite take_drop.
Qed.

Lemma getRecentHistory_spec_witness :
  length (Stats.getRecentHistory 1 two_entries) = 1%nat.
Proof.
  refine (proj1 (proj2 (getRecentHistory_spec 1 two_entries) _)).
  discriminate.
Defined.

(** ** Looking up a detailed record (state.js) *)

Lemma slice_last_elem_last {A} (n : nat) (l : list A) (x : A) :
  (0 < n)%nat -> x ∈ slice_last n (l ++ [x]).
Proof.
  intros Hn. unfold slice_last. rewrite length_app. cbn [length].
  rewrite drop_app_le by lia. apply elem_of_app. right. by left.
Qed.

(** X17: right after [addExamHistory] at the time [now], [getExamById]
    finds under the id of that time a record of the history that carries
    this id; it is the record just added when no older record carries the
    same id (two exams finished within one millisecond share their id, and
    the older one is found). *)
Theorem getExamById_after_add (now : Z) (r : ExamResult) (s : AppState) :
  let s' := addExamHistory now r s in
  (exists e, getExamById s' (exam_ now) = Some e
             /\ id e = exam_ now /\ e ∈ examHistory (progress s'))
  /\ ((forall e, e ∈ examHistory (progress s) -> id e ≠ exam_ now) ->
      getExamById s' (exam_ now)
      = Some {| id := exam_ now; examResult := r |}).
Proof.
  cbn zeta.
  set (new := {| id := exam_ now; examResult := r |}).
  set (f := fun e : ExamHistoryRecord =>
              match id e with exam_ a => bool_decide (a = now) end).
  assert (Hf : forall e, f e = true <-> id e = exam_ now).
  { intros e. unfold f. destruct (id e) as [a].
    rewrite bool_decide_eq_true. split; congruence. }
  assert (Hin : new ∈ examHistory (progress (addExamHistory now r s))).
  { unfold addExamHistory. fold new. destruct (decide _);
      cbn [progress with_progress examHistory set_examHistory].
    - apply slice_last_elem_last. lia.
    - apply elem_of_app. right. by left. }
  assert (Hsub : forall e, e ∈ examHistory (progress (addExamHistory now r s))
                           -> e = new \/ e ∈ examHistory (progress s)).
  { intros e. unfold addExamHistory. fold new. destruct (decide _);
      cbn [progress with_progress examHistory set_examHistory].
    - unfold slice_last. intros He. apply subseteq_drop in He.
      apply elem_of_app in He as [He|He%list_elem_of_singleton]; auto.
    - intros He. apply elem_of_app in He as [He|He%list_elem_of_singleton];
        auto. }
  unfold getExamById. fold f.
  destruct (List.find f (examHistory (progress (addExamHistory now r s))))
    as [e|] eqn:Hfind.
  - apply List.find_some in Hfind as [He Hfe].
    apply list_elem_of_In in He. split.
    + exists e. split; [done|]. split; [by apply Hf|done].
    + intros Hold. f_equal. destruct (Hsub e He) as [->|Hprev]; [done|].
      exfalso. apply (Hold e Hprev). by apply Hf.
  - exfalso.
    pose proof (List.find_none _ _ Hfind new
                  (proj1 (list_elem_of_In _ _) Hin)) as Hnew.
    assert (f new = true) by by apply Hf. congruence.
Qed.

Lemma getExamById_after_add_witness :
  getExamById (addExamHistory 2 sample_result initial) (exam_ 2)
  = Some {| id := exam_ 2; examResult := sample_result |}.
Proof.
  refine (proj2 (getExamById_after_add 2 sample_result initial) _).
  intros e He. by apply elem_of_nil in He.
Defined.

(** ** Completed exams (state.js) *)

Lemma set_add_elem (l : list Z) (x y : Z) :
  y ∈ set_add l x <-> y = x \/ y ∈ l.
Proof.
  unfold set_add. destruct (decide (x ∈ l)) as [Hin|Hout].
  - split; [by right|]. by intros [->|?].
  - rewrite elem_of_app, list_elem_of_singleton. tauto.
Qed.

Lemma set_add_idem (l : list Z) (x : Z) :
  set_add (set_add l x) x = set_add l x.
Proof.
  unfold set_add at 1. rewrite decide_True; [done|].
  apply set_add_elem. by left.
Qed.

Lemma set_add_NoDup (l : list Z) (x : Z) : NoDup l -> NoDup (set_add l x).
Proof.
  intros Hnd. unfold set_add. destruct (decide (x ∈ l)); [done|].
  apply NoDup_app. split_and!; [done| |apply NoDup_singleton].
  by intros y Hy ->%list_elem_of_singleton.
Qed.

(** X18: [markExamCompleted] does nothing when no exam is selected;
    otherwise it puts the selected index into the set of the current mode
    (the exam set in exam mode, the learning set in every other mode) and
    leaves the other set alone; marking twice is marking once, and a set
    without repetition stays so. *)
Theorem markExamCompleted_set (s : AppState) :
  markExamCompleted (markExamCompleted s) = markExamCompleted s
  /\ (selectedExamIndex (round s) = None -> markExamCompleted s = s)
  /\ (forall idx, selectedExamIndex (round s) = Some idx ->
        idx ∈ getCompletedExams (markExamCompleted s))
  /\ (if isExamMode s
      then completedLearning (progress (markExamCompleted s))
           = completedLearning (progress s)
      else completedExam (progress (markExamCompleted s))
           = completedExam (progress s))
  /\ (NoDup (getCompletedExams s) ->
      NoDup (getCompletedExams (markExamCompleted s))).
Proof.
  unfold markExamCompleted, getCompletedExams.
  destruct (selectedExamIndex (round s)) as [idx|] eqn:Hsel.
  2:{ rewrite Hsel. split_and!; try done. by destruct (isExamMode s). }
  destruct (isExamMode s) eqn:Hmode.
  - assert (Hm : isExamMode
              (with_progress
                 (set_completedExam (set_add (completedExam (progress s)) idx))
                 s) = true) by exact Hmode.
    cbn [round with_progress]. rewrite Hsel, Hm.
    cbn [progress with_progress completedExam completedLearning
         set_completedExam].
    split_and!; try done.
    + rewrite set_add_idem. by destruct s as [b r t [] y].
    + intros i [= <-]. apply set_add_elem. by left.
    + apply set_add_NoDup.
  - assert (Hm : isExamMode
              (with_progress
                 (set_completedLearning
                    (set_add (completedLearning (progress s)) idx)) s)
              = false) by exact Hmode.
    cbn [round with_progress]. rewrite Hsel, Hm.
    cbn [progress with_progress completedExam completedLearning
         set_completedLearning].
    split_and!; try done.
    + rewrite set_add_idem. by destruct s as [b r t [] y].
    + intros i [= <-]. apply set_add_elem. by left.
    + apply set_add_NoDup.
Qed.

Lemma markExamCompleted_set_witness :
  0 ∈ getCompletedExams
        (markExamCompleted (setSelectedExamIndex (Some 0) initial))
  /\ markExamCompleted initial = initial
  /\ NoDup (getCompletedExams
              (markExamCompleted (setSelectedExamIndex (Some 0) initial))).
Proof.
  split_and!.
  - exact (proj1 (proj2 (proj2
             (markExamCompleted_set (setSelectedExamIndex (Some 0) initial))))
             0 eq_refl).
  - exact (proj1 (proj2 (markExamCompleted_set initial)) eq_refl).
  - refine (proj2 (proj2 (proj2 (proj2
              (markExamCompleted_set (setSelectedExamIndex (Some 0) initial)))))
              _).
    apply NoDup_nil_2.
Defined.

(** ** Saving and merging (storage.js, state.js) *)

Lemma new_Set_fold_NoDup (acc l : list Z) :
  NoDup (acc ++ l) -> foldl set_add acc l = acc ++ l.
Proof.
  revert acc. induction l as [|x l IH]; intros acc Hnd; cbn [foldl].
  - by rewrite app_nil_r.
  - unfold set_add at 2. rewrite decide_False.
    + rewrite IH; rewrite <- app_assoc; done.
    + apply NoDup_app in Hnd as (_ & Hdisj & _).
      intros Hin. apply (Hdisj x Hin). by left.
Qed.

Lemma new_Set_NoDup (l : list Z) : NoDup l -> new_Set l = l.
Proof. intros Hnd. unfold new_Set. by rewrite new_Set_fold_NoDup. Qed.

(** X19: the document that [getAllData] builds from a state, applied with
    [applyData] to any other state, gives that state the whole progress of
    the first (its two sets being without repetition) and its exams (or,
    when the first has no exams, keeps its own), stamps it with the time of
    the document and changes nothing else. *)
Theorem applyData_getAllData (now : Z) (s1 s2 : AppState) :
  NoDup (completedLearning (progress s1)) ->
  NoDup (completedExam (progress s1)) ->
  let s' := applyData (Some (getAllData now s1)) s2 in
  progress s' = progress s1
  /\ exams (bank s')
     = match exams (bank s1) with
       | [] => exams (bank s2)
       | e :: es => e :: es
       end
  /\ lastCloudTimestamp (sync s') = now
  /\ round s' = round s2 /\ timing s' = timing s2
  /\ questions (bank s') = questions (bank s2)
  /\ allQuestionIds (bank s') = allQuestionIds (bank s2)
  /\ isSaving (sync s') = isSaving (sync s2)
  /\ syncId (sync s') = syncId (sync s2).
Proof.
  intros Hl He. cbn zeta. unfold applyData, getAllData.
  cbn [d_completedLearning d_completedExam d_history d_wrongCounts d_exams
       d_questionMeta d_spacedRepetition d_examHistory d_timestamp assign_if].
  rewrite (new_Set_NoDup _ Hl), (new_Set_NoDup _ He).
  destruct s1 as [b1 r1 t1 [cl ce h w qm sr eh] y1].
  destruct b1 as [qs1 ids1 [|e es]]; cbn; by split_and!.
Qed.

Lemma applyData_getAllData_witness :
  progress (applyData (Some (getAllData 40 two_entries)) local_state)
  = progress two_entries.
Proof.
  refine (proj1 (applyData_getAllData 40 two_entries local_state _ _));
    apply NoDup_nil_2.
Defined.

(** X20: [saveToCloud] does not start when there is no connection or when
    a save is already in flight; once started, every snapshot that arrives
    before the write returns is ignored; when the write has gone through,
    the document just written, coming back from the cloud, is ignored as
    well, whatever happened to the state in between; neither half of the
    save touches the progress or the question bank. *)
Theorem saveToCloud_echo (now : Z) (s : AppState) :
  (forall connected,
     connected = false \/ isSaving (sync s) = true ->
     saveToCloud_begin connected now s = (None, s))
  /\ (isSaving (sync s) = false ->
      saveToCloud_begin true now s
      = (Some (getAllData now s), setSaving true s)
      /\ forall snapshot,
           onCloudDataChange snapshot (saveToCloud_begin true now s).2
           = (saveToCloud_begin true now s).2)
  /\ (forall s',
        onCloudDataChange (Some (getAllData now s))
          (saveToCloud_end true (getAllData now s) s')
        = saveToCloud_end true (getAllData now s) s')
  /\ (forall connected ok data s',
        progress (saveToCloud_begin connected now s).2 = progress s
        /\ bank (saveToCloud_begin connected now s).2 = bank s
        /\ progress (saveToCloud_end ok data s') = progress s'
        /\ bank (saveToCloud_end ok data s') = bank s'
        /\ isSaving (sync (saveToCloud_end ok data s')) = false).
Proof.
  split_and!.
  - intros connected [-> | Hsav]; unfold saveToCloud_begin; [done|].
    rewrite Hsav. by rewrite orb_true_r.
  - intros Hsav. unfold saveToCloud_begin. rewrite Hsav. cbn [negb orb].
    split; [done|]. intros snapshot. reflexivity.
  - intros s'. unfold onCloudDataChange, saveToCloud_end, getAllData.
    cbn [d_timestamp default from_option sync setSaving with_sync isSaving
         set_isSaving setLastCloudTimestamp lastCloudTimestamp
         set_lastCloudTimestamp getLastCloudTimestamp].
    unfold Datatypes.id.
    rewrite (bool_decide_eq_false_2 (now < now)) by lia.
    by rewrite andb_false_r.
  - intros connected ok data s'. unfold saveToCloud_begin, saveToCloud_end.
    destruct (negb connected || isSaving (sync s)), ok; by split_and!.
Qed.

Lemma saveToCloud_echo_witness :
  saveToCloud_begin false 40 local_state = (None, local_state)
  /\ onCloudDataChange (Some newer_snapshot)
       (saveToCloud_begin true 40 local_state).2
     = (saveToCloud_begin true 40 local_state).2.
Proof.
  split.
  - apply (proj1 (saveToCloud_echo 40 local_state) false). by left.
  - exact (proj2 (proj1 (proj2 (saveToCloud_echo 40 local_state)) eq_refl)
             (Some newer_snapshot)).
Defined.

(** ** The end of a round (main.js, quiz.js) *)

Lemma same_but_spacedRepetition_refl (s : AppState) :
  same_but_spacedRepetition s s.
Proof.
  exists (spacedRepetition (progress s)). by destruct s as [b r t [] y].
Qed.

Lemma same_but_spacedRepetition_trans (s1 s2 s3 : AppState) :
  same_but_spacedRepetition s1 s2 -> same_but_spacedRepetition s2 s3 ->
  same_but_spacedRepetition s1 s3.
Proof. intros [sr ->] [sr' ->]. by exists sr'. Qed.

Lemma update_levels_frame (now : Z) (s : AppState) (x : Z) :
  same_but_spacedRepetition s (Main.update_levels now s x).
Proof.
  unfold Main.update_levels.
  destruct (getQuestionState s x) as [st|];
    [|apply same_but_spacedRepetition_refl].
  destruct (bool_decide _); [|apply same_but_spacedRepetition_refl].
  by eexists.
Qed.

Lemma update_levels_loop_frame (now : Z) (l : list Z) (s : AppState) :
  same_but_spacedRepetition s (foldl (Main.update_levels now) s l).
Proof.
  revert s. induction l as [|x l IH]; intros s; cbn [foldl].
  - apply same_but_spacedRepetition_refl.
  - eapply same_but_spacedRepetition_trans; [apply update_levels_frame|].
    apply IH.
Qed.

Lemma update_levels_get (now : Z) (s : AppState) (x q : Z) :
  getSpacedRepData (Main.update_levels now s x) q
  = if decide (x = q)
    then session_record now (questionState (round s)) q (getSpacedRepData s q)
    else getSpacedRepData s q.
Proof.
  unfold Main.update_levels, session_record, getQuestionState.
  destruct (decide (x = q)) as [->|Hne].
  - destruct (questionState (round s) !! q) as [st|]; [|done].
    destruct (bool_decide (status st ≠ Unanswered)); [|done].
    unfold updateSpacedRepLevel.
    rewrite getSpacedRepData_update, decide_True by done.
    unfold spread, clamp, spec_delta, CORRECT_NOT_SURE, CORRECT_SURE, WRONG,
      MAX_LEVEL.
    cbn [u_level u_lastSeen u_seenCount u_lastSeenPosition default
         from_option]. unfold Datatypes.id.
    by destruct (bool_decide (status st = Correct)), (notSure st).
  - destruct (questionState (round s) !! x) as [st|]; [|done].
    destruct (bool_decide (status st ≠ Unanswered)); [|done].
    unfold updateSpacedRepLevel.
    by rewrite getSpacedRepData_update, decide_False.
Qed.

Lemma update_levels_loop_get (now : Z) (l : list Z) (s : AppState) (q : Z) :
  NoDup l ->
  getSpacedRepData (foldl (Main.update_levels now) s l) q
  = if decide (q ∈ l)
    then session_record now (questionState (round s)) q (getSpacedRepData s q)
    else getSpacedRepData s q.
Proof.
  revert s. induction l as [|x l IH]; intros s Hnd; cbn [foldl].
  - rewrite decide_False; [done|apply not_elem_of_nil].
  - apply NoDup_cons in Hnd as [Hx Hnd]. rewrite (IH _ Hnd).
    destruct (update_levels_frame now s x) as [sr Hsr].
    assert (Hqs : questionState (round (Main.update_levels now s x))
                  = questionState (round s)) by by rewrite Hsr.
    rewrite Hqs, update_levels_get.
    destruct (decide (x = q)) as [->|Hne].
    + rewrite (decide_False (P := q ∈ l)) by done.
      rewrite decide_True; [done|by left].
    + destruct (decide (q ∈ l)) as [Hin|Hout].
      * rewrite decide_True; [done|by right].
      * rewrite decide_False; [done|].
        rewrite not_elem_of_cons. split; [congruence|done].
Qed.

Lemma spacedRepetition_addExamHistory (now : Z) (r : ExamResult)
    (s : AppState) :
  spacedRepetition (progress (addExamHistory now r s))
  = spacedRepetition (progress s).
Proof. unfold addExamHistory. by destruct (decide _). Qed.

Lemma spacedRepetition_finishExam type qs stk mode idx now s :
  spacedRepetition (progress (Quiz.finishExam type qs stk mode idx now s))
  = spacedRepetition (progress s).
Proof.
  unfold Quiz.finishExam. destruct (decide (type = BASE)); [|reflexivity].
  destruct idx; [|reflexivity].
  unfold markExamCompleted. cbn [round saveBaseState with_round].
  destruct (selectedExamIndex _); [|reflexivity].
  by destruct (isExamMode _).
Qed.

(** X21: at the end of a round, in exam mode (or with no mode) no
    spaced-repetition record changes; in smart or learning mode, on a stack
    without repetition, every answered question of the stack is counted as
    seen once more, stamped with the time and moved to the clamped level,
    with its last position kept, and every other record is left as it
    was. *)
Theorem finishExam_spacedRepetition (now : Z) (s : AppState) (q : Z) :
  (currentMode (round s) = Some EXAM \/ currentMode (round s) = None ->
   spacedRepetition (progress (Main.finishExam now s))
   = spacedRepetition (progress s))
  /\ (currentMode (round s) = Some SMART
      \/ currentMode (round s) = Some LEARNING ->
      NoDup (stack (round s)) ->
      getSpacedRepData (Main.finishExam now s) q
      = if decide (q ∈ stack (round s))
        then session_record now (questionState (round s)) q
               (getSpacedRepData s q)
        else getSpacedRepData s q).
Proof.
  split.
  - intros Hmode. unfold_finishExam s.
    rewrite spacedRepetition_finishExam.
    assert (Hno : bool_decide (currentMode (round s) = Some SMART)
                  || bool_decide (currentMode (round s) = Some LEARNING)
                  = false).
    { destruct Hmode as [-> | ->]; reflexivity. }
    rewrite Hno.
    destruct (decide (currentRoundType (round s) = BASE));
      by rewrite ?spacedRepetition_addExamHistory.
  - intros Hmode Hnd. unfold_finishExam s.
    rewrite getSpacedRepData_finishExam.
    assert (Hyes : bool_decide (currentMode (round s) = Some SMART)
                   || bool_decide (currentMode (round s) = Some LEARNING)
                   = true).
    { destruct Hmode as [-> | ->]; reflexivity. }
    rewrite Hyes.
    destruct (decide (currentRoundType (round s) = BASE));
      rewrite ?getSpacedRepData_addExamHistory;
      by apply (update_levels_loop_get now (stack (round s))
                  (with_timing _ s) q).
Qed.

Lemma finishExam_spacedRepetition_witness :
  getSpacedRepData (Main.finishExam 9000 smart_session) 3
  = {| level := 2; lastSeen := 9000; seenCount := 1;
       lastSeenPosition := None |}
  /\ spacedRepetition
       (progress (Main.finishExam 9000 (setMode (Some EXAM) smart_session)))
     = ∅.
Proof.
  split.
  - refine (eq_trans
              (proj2 (finishExam_spacedRepetition 9000 smart_session 3) _ _)
              eq_refl).
    + by left.
    + apply (bool_decide_unpack _). vm_compute. exact I.
  - refine (proj1 (finishExam_spacedRepetition 9000
                     (setMode (Some EXAM) smart_session) 0) _).
    by left.
Defined.

Lemma update_levels_valid (now : Z) (s : AppState) (x : Z) :
  valid_store s -> valid_store (Main.update_levels now s x).
Proof.
  intros Hv. unfold Main.update_levels.
  destruct (getQuestionState s x) as [st|]; [|done].
  destruct (bool_decide (status st ≠ Unanswered)); [|done].
  intros q d. unfold updateSpacedRepLevel, updateSpacedRepData.
  cbn [progress with_progress spacedRepetition set_spacedRepetition].
  rewrite lookup_insert. destruct (decide (x = q)) as [->|Hne]; [|apply Hv].
  intros [= <-]. unfold valid_record, spread.
  cbn [level seenCount u_level u_seenCount default from_option].
  unfold Datatypes.id, MAX_LEVEL.
  assert (0 <= seenCount (getSpacedRepData s q)).
  { unfold getSpacedRepData.
    destruct (spacedRepetition (progress s) !! q) as [d0|] eqn:Hd; cbn;
      [apply (Hv q d0 Hd)|lia]. }
  lia.
Qed.

(** X22: when every stored record has its level in [0,5] and a seen count
    that is not negative, the same holds after [finishExam], in every mode
    and for every stack. *)
Theorem finishExam_valid_store (now : Z) (s : AppState) :
  valid_store s -> valid_store (Main.finishExam now s).
Proof.
  intros Hv. unfold valid_store. unfold_finishExam s.
  rewrite spacedRepetition_finishExam.
  assert (Hloop : forall l s1, valid_store s1 ->
            valid_store (foldl (Main.update_levels now) s1 l)).
  { induction l as [|x l IH]; intros s1 H1; cbn [foldl]; [done|].
    by apply IH, update_levels_valid. }
  destruct (decide (currentRoundType (round s) = BASE));
    rewrite ?spacedRepetition_addExamHistory;
    destruct (_ || _); try apply Hv;
    by apply (Hloop _ (with_timing _ s)).
Qed.

Lemma finishExam_valid_store_witness :
  valid_store (Main.finishExam 9000 smart_session).
Proof.
  apply finishExam_valid_store.
  intros q d Hd.
  change (spacedRepetition (progress smart_session))
    with (∅ : gmap Z SpacedRepData) in Hd.
  by rewrite lookup_empty in Hd.
Defined.

Lemma finishExam_loop_frame (now : Z) (s : AppState) :
  same_but_spacedRepetition s
    (if bool_decide (currentMode (round s) = Some SMART)
        || bool_decide (currentMode (round s) = Some LEARNING)
     then foldl (Main.update_levels now) s (stack (round s))
     else s).
Proof.
  destruct (_ || _); [apply update_levels_loop_frame|
                      apply same_but_spacedRepetition_refl].
Qed.

(** X23: the end of a round whose type is not [BASE] stops the timers, as
    the end of every round does: the id of the interval of the exam clock
    is dropped (a missing id and the id 0 are left as they are) and the
    two start times are kept.  Apart from that and from the
    spaced-repetition records it changes nothing: it writes no history
    entry and no detailed record, marks no exam as completed and leaves
    the base snapshot, the round, the bank and the sync state as they
    were. *)
Theorem finishExam_review_round (now : Z) (s : AppState) :
  currentRoundType (round s) ≠ BASE ->
  let s' := Main.finishExam now s in
  same_but_spacedRepetition (stopAllTimers s) s'
  /\ history (progress s') = history (progress s)
  /\ examHistory (progress s') = examHistory (progress s)
  /\ completedLearning (progress s') = completedLearning (progress s)
  /\ completedExam (progress s') = completedExam (progress s)
  /\ wrongCounts (progress s') = wrongCounts (progress s)
  /\ questionMeta (progress s') = questionMeta (progress s)
  /\ round s' = round s /\ bank s' = bank s /\ sync s' = sync s
  /\ examStartTime (timing s') = examStartTime (timing s)
  /\ questionStartTime (timing s') = questionStartTime (timing s)
  /\ timerInterval (timing s')
     = (if truthy (timerInterval (timing s)) then None
        else timerInterval (timing s)).
Proof.
  intros Htype. cbn zeta. unfold Main.finishExam.
  destruct (stopAllTimers_frame s) as (ti & -> & Hti).
  cbn [round with_timing].
  rewrite decide_False by done.
  unfold Quiz.finishExam. rewrite decide_False by done.
  destruct (finishExam_loop_frame now (with_timing (set_timerInterval ti) s))
    as [sr Hsr].
  cbn [round with_timing] in Hsr. rewrite Hsr.
  split; [by exists sr|].
  unfold getTimerInterval in Hti. rewrite <- Hti. by split_and!.
Qed.

Lemma finishExam_review_round_witness :
  history (progress (Main.finishExam 9000
                       (setRoundType REVIEW_WRONG smart_session)))
  = [].
Proof.
  refine (proj1 (proj2 (finishExam_review_round 9000
                          (setRoundType REVIEW_WRONG smart_session) _))).
  discriminate.
Defined.

Lemma markExamCompleted_frame (s : AppState) :
  round (markExamCompleted s) = round s
  /\ history (progress (markExamCompleted s)) = history (progress s)
  /\ examHistory (progress (markExamCompleted s)) = examHistory (progress s).
Proof.
  unfold markExamCompleted. destruct (selectedExamIndex _); [|done].
  by destruct (isExamMode _).
Qed.

Lemma addExamHistory_frame (now : Z) (r : ExamResult) (s : AppState) :
  round (addExamHistory now r s) = round s
  /\ history (progress (addExamHistory now r s)) = history (progress s)
  /\ (length (examHistory (progress (addExamHistory now r s))) <= 50)%nat
  /\ exists older,
       examHistory (progress (addExamHistory now r s))
       = older ++ [{| id := exam_ now; examResult := r |}].
Proof.
  unfold addExamHistory. destruct (decide _) as [Hlong|Hshort];
    cbn [round progress with_progress examHistory history set_examHistory];
    split_and!; try done.
  - rewrite slice_last_length. lia.
  - unfold slice_last. rewrite length_app in *. cbn [length] in *.
    rewrite drop_app_le by lia. by eexists.
  - lia.
  - by eexists.
Qed.

(** X24: the end of a [BASE] round appends one entry to the history: its
    total is the length of the stack, its count of correct answers that of
    [computeStats] (between 0 and the total), its percentage
    [calcPercent] of the two (between 0 and 100); the newest detailed
    record carries the same figures and a [passed] flag equal to
    [isPassed]; there are at most 50 detailed records; the base snapshot
    is the state and the stack of the round, which are themselves left as
    they were. *)
Theorem finishExam_base_round (now : Z) (s : AppState) :
  currentRoundType (round s) = BASE ->
  let s' := Main.finishExam now s in
  let n_correct :=
    stats_correct (computeStats (questionState (round s)) (stack (round s))) in
  let total := Z.of_nat (length (stack (round s))) in
  (exists e,
     history (progress s') = history (progress s) ++ [e]
     /\ he_total e = total /\ he_correct e = n_correct
     /\ he_pct e = calcPercent n_correct total
     /\ he_mode e = currentMode (round s)
     /\ 0 <= he_correct e <= he_total e /\ 0 <= he_pct e <= 100)
  /\ (exists older r,
        examHistory (progress s') = older ++ [r]
        /\ id r = exam_ now
        /\ er_total (ex_results (examResult r)) = total
        /\ er_correct (ex_results (examResult r)) = n_correct
        /\ er_pct (ex_results (examResult r)) = calcPercent n_correct total
        /\ er_passed (ex_results (examResult r)) = isPassed n_correct total
        /\ length (ex_questions (examResult r)) = length (stack (round s)))
  /\ (length (examHistory (progress s')) <= 50)%nat
  /\ baseState (round s') = Some (questionState (round s))
  /\ baseStack (round s') = Some (stack (round s))
  /\ questionState (round s') = questionState (round s)
  /\ stack (round s') = stack (round s)
  /\ currentIndex (round s') = currentIndex (round s).
Proof.
  intros Htype. cbn zeta.
  pose proof (computeStats_correct_bounds (questionState (round s))
                (stack (round s))) as Hc.
  assert (Hpct : 0 <= calcPercent
            (stats_correct (computeStats (questionState (round s))
                              (stack (round s))))
            (Z.of_nat (length (stack (round s)))) <= 100).
  { by apply calcPercent_range. }
  unfold Main.finishExam.
  destruct (stopAllTimers_frame s) as (ti & -> & _).
  cbn [round with_timing]. rewrite decide_True by done.
  destruct (finishExam_loop_frame now (with_timing (set_timerInterval ti) s))
    as [sr Hsr].
  cbn [round with_timing] in Hsr. rewrite Hsr. clear Hsr.
  set (n_correct := stats_correct _) in *.
  set (total := Z.of_nat _) in *.
  set (r := {| ex_date := now |}).
  assert (Hpassed : er_passed (ex_results r) = isPassed n_correct total).
  { subst r. cbn [ex_results er_passed]. unfold isPassed, calcPercent.
    unfold PASS_THRESHOLD.
    destruct (decide (total = 0)); [|done].
    by rewrite bool_decide_eq_false_2 by lia. }
  assert (Hrpct : er_pct (ex_results r) = calcPercent n_correct total).
  { subst r. cbn [ex_results er_pct]. unfold calcPercent. done. }
  assert (Hq : length (ex_questions r) = length (stack (round s))).
  { subst r. cbn [ex_questions]. apply length_fmap. }
  assert (Hrt : er_total (ex_results r) = total) by done.
  assert (Hrc : er_correct (ex_results r) = n_correct) by done.
  destruct (addExamHistory_frame now r
              (with_progress (set_spacedRepetition sr)
                 (with_timing (set_timerInterval ti) s)))
    as (Hround & Hhist & Hmax & older & Holder).
  clearbody r.
  set (s1 := addExamHistory now r _) in *.
  cbn [round with_progress with_timing progress history
       set_spacedRepetition] in Hround, Hhist.
  unfold Quiz.finishExam. rewrite decide_True by done.
  set (s2 := match selectedExamIndex (round s) with
             | Some _ => markExamCompleted (saveBaseState s1)
             | None => saveBaseState s1
             end).
  assert (Hs2 : round s2 = round (saveBaseState s1)
                /\ history (progress s2) = history (progress s1)
                /\ examHistory (progress s2) = examHistory (progress s1)).
  { subst s2. destruct (selectedExamIndex (round s)); [|done].
    destruct (markExamCompleted_frame (saveBaseState s1)) as (A & B & C).
    split_and!; [exact A|exact B|exact C]. }
  destruct Hs2 as (Hr2 & Hh2 & He2).
  cbn [round progress addHistoryEntry with_progress history examHistory
       set_history].
  rewrite Hr2, Hh2, He2, Hhist.
  cbn [round saveBaseState with_round baseState baseStack questionState
       stack currentIndex set_baseState set_baseStack].
  rewrite Hround. subst n_correct total.
  split_and!; try done.
  - eexists. split; [reflexivity|].
    cbn [he_total he_correct he_pct he_mode]. split_and!; (done || lia).
  - exists older, {| id := exam_ now; examResult := r |}.
    by split_and!.
Qed.

Lemma finishExam_base_round_witness :
  length (history (progress (Main.finishExam 9000 smart_session))) = 1%nat
  /\ baseStack (round (Main.finishExam 9000 smart_session)) = Some [3; 7].
Proof.
  pose proof (finishExam_base_round 9000 smart_session eq_refl)
    as ((e & Hh & _) & _ & _ & _ & Hb & _).
  split; [by rewrite Hh|exact Hb].
Defined.

(** ** Pressing Next (quiz.js, main.js, ui.js) *)

Lemma renderQuestion_frame (s : AppState) (rnd : nat -> Q) (n : nat) :
  same_but_answerOrder s (Ui.renderQuestion s rnd n).1.
Proof.
  unfold Ui.renderQuestion.
  destruct (getCurrentQuestionId s); [|apply same_but_answerOrder_refl].
  destruct (getCurrentQuestion s); [|apply same_but_answerOrder_refl].
  apply ensureAnswerOrder_frame.
Qed.

Ltac frame_by_projection :=
  match goal with
  | |- exists qs wc, ?X = _ =>
      exists (questionState (round X)), (wrongCounts (progress X));
      reflexivity
  end.

(** what [checkCurrentQuestion] may change: the question states and the
    wrong counts *)
Lemma checkCurrentQuestion_frame (selected : option string) (now : Z)
    (s : AppState) :
  exists qs wc,
    (checkCurrentQuestion selected now s).2
    = with_progress (set_wrongCounts wc) (with_round (set_questionState qs) s).
Proof.
  destruct s as [b r t p y]. destruct r, p.
  unfold checkCurrentQuestion.
  destruct (negb (truthy_str selected)); [frame_by_projection|].
  destruct (getCurrentQuestionId _) as [qid|]; [|frame_by_projection].
  destruct (getCurrentQuestion _) as [q|]; [|frame_by_projection].
  destruct (negb (truthy (Some qid))); [frame_by_projection|].
  destruct (match selected with Some a => bool_decide (a ∈ correct q)
                              | None => false end); frame_by_projection.
Qed.

Lemma finishExam_frame (now : Z) (s : AppState) :
  questionState (round (Main.finishExam now s)) = questionState (round s)
  /\ stack (round (Main.finishExam now s)) = stack (round s)
  /\ currentIndex (round (Main.finishExam now s)) = currentIndex (round s)
  /\ currentMode (round (Main.finishExam now s)) = currentMode (round s)
  /\ wrongCounts (progress (Main.finishExam now s)) = wrongCounts (progress s)
  /\ bank (Main.finishExam now s) = bank s.
Proof.
  finishExam_stopped s.
  destruct (finishExam_loop_frame now s) as [sr ->].
  unfold Quiz.finishExam.
  destruct (decide (currentRoundType (round s) = BASE));
    [|split_and!; reflexivity].
  set (r := {| ex_date := now |}). clearbody r.
  destruct (addExamHistory_frame now r
              (with_progress (set_spacedRepetition sr) s)) as (Hr & _).
  assert (Hw : wrongCounts (progress (addExamHistory now r
                  (with_progress (set_spacedRepetition sr) s)))
               = wrongCounts (progress s)
               /\ bank (addExamHistory now r
                          (with_progress (set_spacedRepetition sr) s))
                  = bank s).
  { unfold addExamHistory. by destruct (decide _). }
  destruct Hw as [Hw Hb].
  set (s1 := addExamHistory now r _) in *.
  cbn [round with_progress] in Hr.
  assert (Hm : forall x, round (markExamCompleted x) = round x
                         /\ wrongCounts (progress (markExamCompleted x))
                            = wrongCounts (progress x)
                         /\ bank (markExamCompleted x) = bank x).
  { intros x. unfold markExamCompleted.
    destruct (selectedExamIndex _); [|done]. by destruct (isExamMode _). }
  destruct (selectedExamIndex (round s));
    [destruct (Hm (saveBaseState s1)) as (H1 & H2 & H3)|];
    cbn [round progress bank addHistoryEntry with_progress wrongCounts
         set_history];
    rewrite ?H1, ?H2, ?H3;
    cbn [round progress bank saveBaseState with_round questionState stack
         currentIndex currentMode set_baseState set_baseStack];
    rewrite Hr, Hw, Hb; by split_and!.
Qed.

Lemma isLastQuestion_iff (s : AppState) :
  isLastQuestion s = false
  <-> (S (currentIndex (round s)) < length (stack (round s)))%nat.
Proof.
  unfold isLastQuestion. rewrite bool_decide_eq_false. lia.
Qed.

(** one press in exam style: check, then move or finish *)
Lemma handleNext_exam_step (a : string) (now : Z) (s : AppState)
    (rnd : nat -> Q) (n : nat) :
  a ≠ EmptyString -> isLearningMode s = false ->
  let checked := (checkCurrentQuestion (Some a) now s).2 in
  stack (round checked) = stack (round s)
  /\ currentIndex (round checked) = currentIndex (round s)
  /\ currentMode (round checked) = currentMode (round s)
  /\ (isLastQuestion s = true ->
      Main.handleNext (Some a) now s rnd n
      = ((false, Main.finishExam now checked), n))
  /\ (isLastQuestion s = false ->
      exists s' n',
        Main.handleNext (Some a) now s rnd n = ((true, s'), n')
        /\ stack (round s') = stack (round s)
        /\ currentIndex (round s') = S (currentIndex (round s))
        /\ currentMode (round s') = currentMode (round s)
        /\ questionState (round s') = questionState (round checked)
        /\ progress s' = progress checked).
Proof.
  intros Ha Hmode. cbn zeta.
  destruct (checkCurrentQuestion_frame (Some a) now s) as (qs & wc & Hck).
  assert (Hlast : isLastQuestion (checkCurrentQuestion (Some a) now s).2
                  = isLastQuestion s) by by rewrite Hck.
  unfold Main.handleNext, Quiz.handleNext.
  rewrite (truthy_str_Some a Ha), Hmode, Hlast. cbn [negb].
  split_and!; try by rewrite Hck.
  - intros ->. reflexivity.
  - intros Hnot. rewrite Hnot. cbn [negb]. unfold bind.
    pose proof (renderQuestion_frame
                  (resetQuestionTimer now
                     (nextQuestion (checkCurrentQuestion (Some a) now s).2).2)
                  rnd n) as [ao Hao].
    destruct (Ui.renderQuestion _ rnd n) as [s' n'] eqn:Hr.
    cbn [fst] in Hao. exists s', n'. split; [reflexivity|].
    apply isLastQuestion_iff in Hnot.
    rewrite Hao, Hck. unfold nextQuestion.
    cbn [round with_round with_progress currentIndex stack set_questionState].
    rewrite decide_True by lia. by split_and!.
Qed.

Lemma press_next_cons (a : string) (now : Z) (rest : list (string * Z))
    (s : AppState) (rnd : nat -> Q) (n : nat) :
  (press_next ((a, now) :: rest) s rnd n).1
  = let r := Main.handleNext (Some a) now s rnd n in
    let rs := press_next rest r.1.2 rnd r.2 in
    (r.1.1 :: rs.1.1, rs.1.2).
Proof.
  cbn [press_next]. unfold bind, ret.
  destruct (Main.handleNext (Some a) now s rnd n) as [r n1].
  cbn [fst snd]. destruct (press_next rest r.2 rnd n1) as [rs n2].
  reflexivity.
Qed.

(** X25: in exam style, pressing Next with an answer once for each
    question from the current one to the end of the stack returns [true]
    every time but the last, when it returns [false] and the round is
    finished by [finishExam]; the stack is still the same and the index is
    on its last question. *)
Theorem exam_walk (presses : list (string * Z)) (s : AppState)
    (rnd : nat -> Q) (n : nat) :
  isLearningMode s = false ->
  Forall (fun p => p.1 ≠ EmptyString) presses ->
  (length presses + currentIndex (round s) = length (stack (round s)))%nat ->
  presses ≠ [] ->
  let r := (press_next presses s rnd n).1 in
  r.1 = replicate (length presses - 1) true ++ [false]
  /\ stack (round r.2) = stack (round s)
  /\ currentIndex (round r.2) = (length (stack (round s)) - 1)%nat
  /\ exists now s_last, r.2 = Main.finishExam now s_last.
Proof.
  revert s n. induction presses as [|[a now] rest IH];
    intros s n Hmode Hall Hlen Hne; [done|].
  apply Forall_cons in Hall as [Ha Hall]. cbn [fst] in Ha.
  destruct (handleNext_exam_step a now s rnd n Ha Hmode)
    as (Hstk & Hidx & Hmd & Hfin & Hstep).
  cbn zeta. rewrite press_next_cons.
  destruct rest as [|p2 rest].
  - assert (Hlast : isLastQuestion s = true).
    { apply not_false_iff_true. rewrite isLastQuestion_iff.
      cbn [length] in Hlen. lia. }
    rewrite (Hfin Hlast). cbn [press_next ret fst snd length].
    destruct (finishExam_frame now (checkCurrentQuestion (Some a) now s).2)
      as (_ & Hs & Hi & _).
    split_and!; [done|by rewrite Hs|rewrite Hi, Hidx;
                                     cbn [length] in Hlen; lia|by eexists _, _].
  - assert (Hnot : isLastQuestion s = false).
    { rewrite isLastQuestion_iff. cbn [length] in Hlen. lia. }
    destruct (Hstep Hnot) as (s' & n' & Hr & Hs' & Hi' & Hm' & _).
    rewrite Hr. cbn [fst snd].
    assert (Hmode' : isLearningMode s' = false).
    { unfold isLearningMode in *. by rewrite Hm'. }
    assert (Hlen' : (length (p2 :: rest) + currentIndex (round s')
                     = length (stack (round s')))%nat).
    { rewrite Hs', Hi'. cbn [length] in *. lia. }
    destruct (IH s' n' Hmode' Hall Hlen' ltac:(done))
      as (Hres & Hstk' & Hidx' & Hend).
    destruct (press_next (p2 :: rest) s' rnd n') as [rs n2].
    cbn [fst snd] in *. rewrite Hres.
    split_and!; [|congruence|congruence|done].
    cbn [length]. replace (S (S (length rest)) - 1)%nat
      with (S (S (length rest) - 1)) by lia. reflexivity.
Qed.

Lemma exam_walk_witness :
  (press_next [("A"%string, 2000); ("A"%string, 3000)] two_loaded
     zero_source 0%nat).1.1 = [true; false].
Proof.
  refine (proj1 (exam_walk [("A"%string, 2000); ("A"%string, 3000)]
                   two_loaded zero_source 0%nat _ _ _ _)).
  - reflexivity.
  - repeat constructor; discriminate.
  - reflexivity.
  - discriminate.
Defined.




(** ** Review rounds (main.js) *)

Lemma startExamTimer_frame (now interval : Z) (s : AppState) :
  exists t, startExamTimer now interval s = with_timing (fun _ => t) s.
Proof.
  destruct (stopAllTimers_frame s) as (ti & Hs & _).
  unfold stopAllTimers in Hs. unfold startExamTimer. rewrite Hs. cbv zeta.
  destruct (isLearningMode _); destruct s as [b r t p y]; by eexists.
Qed.

Lemma round_started (roundType : RoundType) (x : Z) (l : list Z)
    (now interval : Z) (s : AppState) (rnd : nat -> Q) (n : nat) :
  let s1 := (Main.show_round now interval
               (Quiz.startRound roundType (x :: l) now s).2 rnd n).1 in
  currentRoundType (round s1) = roundType
  /\ stack (round s1) = x :: l
  /\ currentIndex (round s1) = 0%nat
  /\ questionState (round s1) = ∅
  /\ baseState (round s1) = baseState (round s)
  /\ baseStack (round s1) = baseStack (round s)
  /\ currentMode (round s1) = currentMode (round s)
  /\ progress s1 = progress s
  /\ bank s1 = bank s.
Proof.
  cbn zeta. unfold Main.show_round.
  destruct (startExamTimer_frame now interval
              (Quiz.startRound roundType (x :: l) now s).2) as [t ->].
  destruct (renderQuestion_frame
              (resetQuestionTimer now
                 (with_timing (fun _ => t)
                    (Quiz.startRound roundType (x :: l) now s).2)) rnd n)
    as [ao ->].
  by split_and!.
Qed.

Lemma finishExam_review_frame (now : Z) (s : AppState) :
  currentRoundType (round s) <> BASE ->
  round (Main.finishExam now s) = round s.
Proof.
  intros Hrt. finishExam_stopped s.
  destruct (finishExam_loop_frame now s) as [sr ->].
  rewrite decide_False by done. unfold Quiz.finishExam.
  by rewrite decide_False.
Qed.

Lemma finishExam_review_history (now : Z) (s : AppState) :
  currentRoundType (round s) <> BASE ->
  history (progress (Main.finishExam now s)) = history (progress s)
  /\ examHistory (progress (Main.finishExam now s))
     = examHistory (progress s).
Proof.
  intros Hrt. finishExam_stopped s.
  destruct (finishExam_loop_frame now s) as [sr ->].
  rewrite decide_False by done. unfold Quiz.finishExam.
  by rewrite decide_False.
Qed.

(** X27: a review starts only when there is something to review: with an
    empty selection [startReview] and [reviewWeakPoints] leave the state as
    it is; otherwise the round has the review type (never [BASE]), the
    selected questions as its stack, index 0 and no question state, and
    [reviewWeakPoints] falls back to learning mode when no mode is set.
    Answering in such a round and finishing it leave the base snapshot and
    both histories alone, so [backToBaseResults] shows the base round
    again: its stack and its question states. *)
Theorem review_round_trip (reviewType : RoundType) (now interval : Z)
    (s : AppState) (rnd : nat -> Q) (n : nat) (bs : gmap Z QuestionState)
    (bk : list Z) :
  baseState (round s) = Some bs ->
  baseStack (round s) = Some bk ->
  let questions := Quiz.getReviewQuestions (Some bs) (Some bk) reviewType in
  let weak := Stats.getAllWeakQuestionIds s in
  let s1 := (Main.startReview reviewType now interval s rnd n).1 in
  let s2 := (Main.reviewWeakPoints now interval s rnd n).1 in
  (questions = [] -> s1 = s)
  /\ (weak = [] -> s2 = s)
  /\ (questions <> [] ->
      reviewType <> BASE
      /\ currentRoundType (round s1) = reviewType
      /\ stack (round s1) = questions
      /\ currentIndex (round s1) = 0%nat
      /\ questionState (round s1) = ∅)
  /\ (weak <> [] ->
      currentRoundType (round s2) = REVIEW_WEAK
      /\ stack (round s2) = weak
      /\ currentIndex (round s2) = 0%nat
      /\ questionState (round s2) = ∅
      /\ currentMode (round s2)
         = Some (default LEARNING (currentMode (round s))))
  /\ (forall s' selected t t',
        s' = s1 /\ questions <> [] \/ s' = s2 /\ weak <> [] ->
        let s3 := Main.backToBaseResults
                    (Main.finishExam t'
                       (checkCurrentQuestion selected t s').2) in
        currentRoundType (round s3) = BASE
        /\ stack (round s3) = bk
        /\ questionState (round s3) = bs
        /\ baseState (round s3) = Some bs
        /\ baseStack (round s3) = Some bk
        /\ history (progress s3) = history (progress s)
        /\ examHistory (progress s3) = examHistory (progress s)).
Proof.
  intros Hbs Hbk. cbn zeta.
  assert (Hback : forall s' selected t t',
            currentRoundType (round s') <> BASE ->
            baseState (round s') = Some bs ->
            baseStack (round s') = Some bk ->
            progress s' = progress s ->
            let s3 := Main.backToBaseResults
                        (Main.finishExam t'
                           (checkCurrentQuestion selected t s').2) in
            currentRoundType (round s3) = BASE
            /\ stack (round s3) = bk
            /\ questionState (round s3) = bs
            /\ baseState (round s3) = Some bs
            /\ baseStack (round s3) = Some bk
            /\ history (progress s3) = history (progress s)
            /\ examHistory (progress s3) = examHistory (progress s)).
  { intros s' selected t t' Hrt Hb1 Hb2 Hp. cbn zeta.
    destruct (checkCurrentQuestion_frame selected t s') as (qs & wc & Hck).
    set (s'' := (checkCurrentQuestion selected t s').2) in *.
    assert (Hrt' : currentRoundType (round s'') <> BASE) by by rewrite Hck.
    pose proof (finishExam_review_frame t' s'' Hrt') as Hround.
    assert (Hprog : history (progress (Main.finishExam t' s''))
                    = history (progress s)
                    /\ examHistory (progress (Main.finishExam t' s''))
                       = examHistory (progress s)).
    { destruct (finishExam_review_history t' s'' Hrt') as [-> ->].
      rewrite Hck. cbn. by rewrite Hp. }
    assert (Hb1' : baseState (round s'') = Some bs) by by rewrite Hck.
    assert (Hb2' : baseStack (round s'') = Some bk) by by rewrite Hck.
    clearbody s''.
    unfold Main.backToBaseResults, restoreBaseState, setRoundType.
    cbn [round with_round baseState baseStack set_currentRoundType].
    rewrite Hround, Hb1', Hb2'.
    cbn [round with_round progress baseState baseStack currentRoundType
         stack questionState set_stack set_questionState
         set_currentRoundType].
    rewrite Hround. destruct Hprog. by split_and!. }
  assert (Hq : forall x l,
            Quiz.getReviewQuestions (Some bs) (Some bk) reviewType = x :: l ->
            reviewType <> BASE).
  { intros x l Hx ->. discriminate Hx. }
  unfold Main.startReview, Main.reviewWeakPoints. rewrite Hbs, Hbk.
  destruct (Quiz.getReviewQuestions (Some bs) (Some bk) reviewType)
    as [|x l] eqn:Hquestions;
    destruct (Stats.getAllWeakQuestionIds s) as [|w ws] eqn:Hweak;
    destruct (currentMode (round s)) as [md|] eqn:Hmode.
  all: cbn [Quiz.startRound].
  all: try (destruct (round_started reviewType x l now interval s rnd n)
              as (A1 & A2 & A3 & A4 & A5 & A6 & A7 & A8 & A9)).
  all: try (destruct (round_started REVIEW_WEAK w ws now interval s rnd n)
              as (B1 & B2 & B3 & B4 & B5 & B6 & B7 & B8 & B9)).
  all: try (destruct (round_started REVIEW_WEAK w ws now interval
                        (setMode (Some LEARNING) s) rnd n)
              as (C1 & C2 & C3 & C4 & C5 & C6 & C7 & C8 & C9)).
  all: cbn [Quiz.startRound snd] in *.
  all: split_and!; try done.
  all: try (intros _; split_and!; try done; try (by eapply Hq);
            first [by rewrite B7, Hmode | by rewrite C7]).
  all: intros s' selected t t' [[-> Hne]|[-> Hne]]; try done.
  all: apply Hback.
  all: try (rewrite A1; by eapply Hq).
  all: try (by rewrite B1).
  all: try (by rewrite A5).
  all: try (by rewrite A6).
  all: try (by rewrite B5).
  all: try (by rewrite B6).
  all: try (by rewrite C1).
  all: try (by rewrite C5).
  all: try (by rewrite C6).
  all: done.
Qed.

Lemma review_round_trip_witness :
  stack (round (Main.backToBaseResults
                  (Main.finishExam 9900
                     (checkCurrentQuestion (Some "A"%string) 9500
                        (Main.startReview REVIEW_WRONG 9100 7
                           (Main.finishExam 9000 smart_session)
                           zero_source 0%nat).1).2)))
  = [3; 7].
Proof.
  refine (proj1 (proj2
            (proj2 (proj2 (proj2 (proj2
               (review_round_trip REVIEW_WRONG 9100 7
                  (Main.finishExam 9000 smart_session) zero_source 0%nat
                  (questionState (round smart_session)) [3; 7] _ _))))
               _ (Some "A"%string) 9500 9900 _))).
  - vm_compute. reflexivity.
  - vm_compute. reflexivity.
  - left. split; [reflexivity|]. vm_compute. discriminate.
Defined.

(** ** The smart queue (smart.js) *)

(** X28: whatever numbers are drawn, the queue of [generateSmartQueue] has
    the smaller of the session size and the number of questions as its
    length, holds questions of the bank only and none more often than the
    bank does, is a permutation of the bank when the session is large
    enough, and is made of three consecutive parts: the questions never
    seen or of level at most 1, then those of level 2 or 3, then the
    others. *)
Theorem generateSmartQueue_spec (sessionSize : nat) (s : AppState)
    (rnd : nat -> Q) (n : nat) :
  let all := allQuestionIds (bank s) in
  let queue := (generateSmartQueue sessionSize s rnd n).1 in
  length queue = Nat.min sessionSize (length all)
  /\ queue ⊆+ all
  /\ ((length all <= sessionSize)%nat -> queue ≡ₚ all)
  /\ exists u m r,
       queue = u ++ m ++ r
       /\ Forall (fun q => tier_of (getSpacedRepData s q) = 0%nat) u
       /\ Forall (fun q => tier_of (getSpacedRepData s q) = 1%nat) m
       /\ Forall (fun q => tier_of (getSpacedRepData s q) = 2%nat) r.
Proof.
  cbn zeta. unfold generateSmartQueue.
  destruct (allQuestionIds (bank s)) as [|q0 l0] eqn:Hall.
  { cbn. rewrite Nat.min_0_r. split_and!; [done..|].
    exists [], [], []. by split_and!. }
  rewrite <- Hall. clear Hall q0 l0.
  set (all := allQuestionIds (bank s)).
  unfold bind.
  destruct (score_all_spec all s rnd n) as [Hq Hd].
  destruct (score_all all s rnd n) as [scored n1]. cbn [fst] in Hq, Hd.
  set (selected := take (Nat.min sessionSize (length all))
                     (sort_by_priority scored)).
  destruct (shuffleWithPriority_spec selected rnd n1)
    as (u & m & r & -> & Hu & Hm & Hr).
  assert (Hlen : length scored = length all).
  { by rewrite <- Hq, length_fmap. }
  assert (Hperm : u ++ m ++ r ≡ₚ qid <$> selected).
  { rewrite Hu, Hm, Hr, <- !fmap_app. by rewrite tiers_perm. }
  assert (Hsel : Forall (fun x => data x = getSpacedRepData s (qid x))
                   selected).
  { apply (Forall_take _ _ (sort_by_priority scored)).
    by rewrite sort_by_priority_perm. }
  split_and!.
  - rewrite Hperm, length_fmap. unfold selected.
    rewrite length_take, sort_by_priority_perm, Hlen. lia.
  - rewrite Hperm, <- Hq. apply fmap_submseteq.
    transitivity (sort_by_priority scored).
    + apply sublist_submseteq, sublist_take.
    + by rewrite sort_by_priority_perm.
  - intros Hk. rewrite Hperm, <- Hq. apply fmap_Permutation.
    unfold selected. rewrite take_ge.
    + apply sort_by_priority_perm.
    + rewrite sort_by_priority_perm, Hlen. lia.
  - destruct (tier_of_filter s selected Hsel) as (Tu & Tm & Tr).
    exists u, m, r. split_and!; [done|..].
    + by rewrite Hu.
    + by rewrite Hm.
    + by rewrite Hr.
Qed.

Lemma generateSmartQueue_spec_witness :
  (generateSmartQueue 20 two_questions zero_source 0%nat).1
  ≡ₚ allQuestionIds (bank two_questions).
Proof.
  apply (proj1 (proj2 (proj2
           (generateSmartQueue_spec 20 two_questions zero_source 0%nat)))).
  vm_compute. lia.
Defined.

(** ** Due questions (smart.js) *)

Lemma INTERVALS_range (l : Z) :
  0 <= l <= 5 -> exists i, INTERVALS l = Some i /\ 2 <= i <= 50.
Proof.
  intros Hl. unfold INTERVALS.
  repeat case_decide; try (eexists; split; [reflexivity|lia]). lia.
Qed.

Lemma INTERVALS_outside (l : Z) : ~ (0 <= l <= 5) -> INTERVALS l = None.
Proof. intros Hl. unfold INTERVALS. repeat case_decide; try done; lia. Qed.

Lemma getSpacedRepData_session (now : Z) (s : AppState) (q : Z) :
  currentMode (round s) = Some SMART
  \/ currentMode (round s) = Some LEARNING ->
  NoDup (stack (round s)) ->
  getSpacedRepData (Main.finishExam now s) q
  = if decide (q ∈ stack (round s))
    then session_record now (questionState (round s)) q
           (getSpacedRepData s q)
    else getSpacedRepData s q.
Proof.
  intros Hmode Hnd. finishExam_stopped s.
  rewrite getSpacedRepData_finishExam.
  assert (Hyes : bool_decide (currentMode (round s) = Some SMART)
                 || bool_decide (currentMode (round s) = Some LEARNING)
                 = true).
  { destruct Hmode as [-> | ->]; reflexivity. }
  rewrite Hyes.
  destruct (decide (currentRoundType (round s) = BASE));
    rewrite ?getSpacedRepData_addExamHistory;
    by apply update_levels_loop_get.
Qed.

Lemma seenCount_nonneg (s : AppState) (q : Z) :
  valid_store s -> 0 <= seenCount (getSpacedRepData s q).
Proof.
  intros Hv. unfold getSpacedRepData.
  destruct (spacedRepetition (progress s) !! q) as [d|] eqn:Hd; cbn;
    [apply (Hv q d Hd)|lia].
Qed.

(** X29: a question of the bank that was never seen is due at every time;
    a seen question whose level is outside 0..5 is never due; a question
    answered in a smart or learning round that ended at the time [t] (its
    record then carries a level in [0,5]) is not due for the two hours,
    in milliseconds, that follow [t], and is due from fifty hours on. *)
Theorem getDueQuestions_spec (now : Z) (s : AppState) (q : Z) :
  (q ∈ allQuestionIds (bank s) ->
   seenCount (getSpacedRepData s q) = 0 ->
   q ∈ getDueQuestions now s)
  /\ (seenCount (getSpacedRepData s q) <> 0 ->
      ~ (0 <= level (getSpacedRepData s q) <= 5) ->
      q ∉ getDueQuestions now s)
  /\ (forall t,
        valid_store s ->
        currentMode (round s) = Some SMART
        \/ currentMode (round s) = Some LEARNING ->
        NoDup (stack (round s)) ->
        q ∈ stack (round s) ->
        q ∈ allQuestionIds (bank s) ->
        is_answered (questionState (round s)) q = true ->
        (now < t + 2 * 3600000 ->
         q ∉ getDueQuestions now (Main.finishExam t s))
        /\ (t + 50 * 3600000 <= now ->
            q ∈ getDueQuestions now (Main.finishExam t s))).
Proof.
  split_and!.
  - intros Hin Hsc. unfold getDueQuestions.
    apply list_elem_of_filter. split; [|done].
    unfold is_due. by rewrite decide_True.
  - intros Hsc Hl. unfold getDueQuestions.
    rewrite list_elem_of_filter. intros [Hdue _]. unfold is_due in Hdue.
    rewrite decide_False in Hdue by done.
    by rewrite (INTERVALS_outside _ Hl) in Hdue.
  - intros t Hv Hmode Hnd Hstk Hall Hans.
    pose proof (seenCount_nonneg s q Hv) as Hsc.
    destruct (finishExam_frame t s) as (_ & _ & _ & _ & _ & Hbank).
    assert (Hrec : exists lvl,
              0 <= lvl <= 5
              /\ getSpacedRepData (Main.finishExam t s) q
                 = {| level := lvl; lastSeen := t;
                      seenCount := seenCount (getSpacedRepData s q) + 1;
                      lastSeenPosition :=
                        lastSeenPosition (getSpacedRepData s q) |}).
    { rewrite (getSpacedRepData_session t s q Hmode Hnd).
      rewrite decide_True by done.
      unfold session_record. unfold is_answered in Hans.
      destruct (questionState (round s) !! q) as [st|]; [|done].
      rewrite Hans. eexists. split; [|reflexivity]. unfold clamp. lia. }
    destruct Hrec as (lvl & Hlvl & Hrec).
    destruct (INTERVALS_range lvl Hlvl) as (i & Hi & Hrange).
    unfold getDueQuestions. rewrite !list_elem_of_filter, Hbank, Hrec.
    unfold is_due. cbn [seenCount level lastSeen].
    rewrite decide_False by lia. rewrite Hi. split.
    + intros Hnow [Hdue _]. apply bool_decide_eq_true_1 in Hdue. lia.
    + intros Hnow. split; [|done]. apply bool_decide_eq_true_2. lia.
Qed.

Lemma getDueQuestions_spec_witness :
  (1 ∉ getDueQuestions 8000 (Main.finishExam 5000 smart_loaded))
  /\ (2 ∈ getDueQuestions 8000 (Main.finishExam 5000 smart_loaded)).
Proof.
  split.
  - refine (proj1 (proj2 (proj2 (getDueQuestions_spec 8000 smart_loaded 1))
                     5000 _ _ _ _ _ _) _).
    + intros q d Hd. vm_compute in Hd. discriminate Hd.
    + by left.
    + apply (bool_decide_unpack _). vm_compute. exact I.
    + apply (bool_decide_unpack _). vm_compute. exact I.
    + apply (bool_decide_unpack _). vm_compute. exact I.
    + reflexivity.
    + lia.
  - refine (proj1 (getDueQuestions_spec 8000
                     (Main.finishExam 5000 smart_loaded) 2) _ _).
    + apply (bool_decide_unpack _). vm_compute. exact I.
    + reflexivity.
Defined.

(** ** A fresh profile (state.js, smart.js, stats.js) *)

Lemma count_step_empty (l : list Z) (c : Counters) :
  foldl (count_step ∅) c l
  = {| c_mastered := c_mastered c; c_learning := c_learning c;
       c_struggling := c_struggling c;
       c_notStarted := c_notStarted c + Z.of_nat (length l) |}.
Proof.
  revert c. induction l as [|q l IH]; intros c; cbn [foldl length].
  - destruct c; cbn. f_equal. lia.
  - rewrite IH. unfold count_step. rewrite lookup_empty. cbn. f_equal. lia.
Qed.

(** X30: [resetAllData] keeps the questions of the bank and makes the
    profile a fresh one: every question counts as not started and is due,
    the overall figures are 0, no detailed record is found, and a second
    reset changes nothing; [clearStats] empties the history as well but
    keeps the spaced-repetition figures, the flags and the detailed
    records. *)
Theorem resetAllData_fresh (now : Z) (s : AppState) :
  let s' := resetAllData s in
  let n := Z.of_nat (length (allQuestionIds (bank s))) in
  questions (bank s') = questions (bank s)
  /\ allQuestionIds (bank s') = allQuestionIds (bank s)
  /\ getSmartStats s'
     = {| total := n; mastered := 0; learning := 0; struggling := 0;
          notStarted := n; masteredPct := 0 |}
  /\ getDueQuestions now s' = allQuestionIds (bank s)
  /\ Stats.calculateOverallStats s'
     = {| Stats.totalExams := 0; Stats.avgScore := 0; Stats.avgTime := 0;
          Stats.passRate := 0 |}
  /\ (forall examId, getExamById s' examId = None)
  /\ resetAllData s' = s'
  /\ getSmartStats (clearStats s) = getSmartStats s
  /\ getFlaggedQuestionIds (clearStats s) = getFlaggedQuestionIds s
  /\ examHistory (progress (clearStats s)) = examHistory (progress s)
  /\ Stats.calculateOverallStats (clearStats s)
     = Stats.calculateOverallStats s'.
Proof.
  cbn zeta. split_and!; try reflexivity.
  - unfold getSmartStats, getAllSpacedRepData, resetAllData.
    cbn [bank progress with_bank with_progress with_round spacedRepetition
         allQuestionIds set_exams].
    rewrite count_step_empty. cbn [c_mastered c_learning c_struggling
                                    c_notStarted].
    f_equal; try lia.
    case_decide; [done|].
    assert (Hq : (inject_Z 0 / inject_Z (Z.of_nat (length (allQuestionIds
                                                            (bank s))))
                  == 0)%Q) by (unfold Qdiv; ring).
    pose proof (percent_mono _ 0 (proj2 (Qle_lteq _ _) (or_intror Hq)))
      as Hle.
    pose proof (percent_mono 0 _
                  (proj2 (Qle_lteq _ _) (or_intror (Qeq_sym _ _ Hq))))
      as Hge.
    change (Math_round (fl (fl 0 * 100))) with 0 in Hle, Hge. lia.
  - unfold getDueQuestions.
    change (allQuestionIds (bank (resetAllData s)))
      with (allQuestionIds (bank s)).
    induction (allQuestionIds (bank s)) as [|q l IH]; [done|].
    rewrite filter_cons, decide_True by done. by rewrite IH.
Qed.
